(** * MPEG4Writer: a shallow embedding of media/libstagefright/MPEG4Writer.cpp

    The writer is modelled by explicit state passing.  Integers are [Z];
    where the source narrows a value to a fixed width (the [uint8_t]
    stores of the avcC header, [htons]/[htonl]/[hton64] on the way to the
    file) the reduction modulo the width is written out.  Signed 64-bit
    arithmetic on timestamps and the sample counters is kept in [Z]: its
    overflow is not defined by C++, so the model is exact on every defined
    execution.  A byte is a [Z]; the file is the list of its bytes. *)

From Stdlib Require Import ZArith List String Ascii Bool Lia.
From stdpp Require Import base list.
Import ListNotations.
Local Open Scope Z_scope.

(** ** Outcomes

    [CHECK] and [CHECK_EQ] terminate the process when they fail; a few
    statements have no behaviour defined by the language (reading the
    element of an empty [List], reading a member that was never
    initialised, writing through a NULL pointer).  Both are outcomes of the
    model, kept apart from a normal return. *)

Inductive result (A : Type) : Type :=
| Ok (a : A)
| Abort
| Undefined.

Arguments Ok {A} a.
Arguments Abort {A}.
Arguments Undefined {A}.

Definition bind {A B : Type} (m : result A) (k : A -> result B) : result B :=
  match m with
  | Ok a => k a
  | Abort => Abort
  | Undefined => Undefined
  end.

Notation "x <- m ;; k" := (bind m (fun x => k))
  (at level 100, m at next level, right associativity).

Definition CHECK (b : bool) : result unit :=
  if b then Ok tt else Abort.

Definition is_Ok {A : Type} (m : result A) : bool :=
  match m with Ok _ => true | _ => false end.

(** ** Bytes and byte order *)

Definition byte_of_ascii (c : ascii) : Z := Z.of_N (N_of_ascii c).

Fixpoint bytes_of_string (s : string) : list Z :=
  match s with
  | EmptyString => []
  | String c s' => byte_of_ascii c :: bytes_of_string s'
  end.

(** [strlen]: the number of characters before the first NUL. *)
Fixpoint strlen (s : string) : Z :=
  match s with
  | EmptyString => 0
  | String c s' => if (byte_of_ascii c =? 0) then 0 else 1 + strlen s'
  end.

(** The [n] bytes at [s], the terminating NUL included when the string is
    shorter. *)
Definition cstr_bytes (s : string) (n : Z) : list Z :=
  take (Z.to_nat n) (bytes_of_string s ++ [0]).

Definition u8 (x : Z) : Z := x mod 256.

(** [htons], [htonl], [hton64] followed by a byte-wise store: the value
    reduced to its width, most significant byte first. *)
Definition be16 (x : Z) : list Z :=
  [u8 (Z.shiftr x 8); u8 x].

Definition be32 (x : Z) : list Z :=
  [u8 (Z.shiftr x 24); u8 (Z.shiftr x 16); u8 (Z.shiftr x 8); u8 x].

Definition be64 (x : Z) : list Z :=
  [u8 (Z.shiftr x 56); u8 (Z.shiftr x 48); u8 (Z.shiftr x 40); u8 (Z.shiftr x 32);
   u8 (Z.shiftr x 24); u8 (Z.shiftr x 16); u8 (Z.shiftr x 8); u8 x].

(** Reading a big-endian field back. *)
Definition read_be (bs : list Z) : Z :=
  fold_left (fun acc b => acc * 256 + b) bs 0.

(** ** Media buffers and metadata *)

Record MetaData : Type := {
  kKeyMIMEType : option string;
  kKeyWidth : option Z;
  kKeyHeight : option Z;
  kKeyChannelCount : option Z;
  kKeySampleRate : option Z;
  kKeyIsCodecConfig : option Z;
  kKeyIsSyncFrame : option Z;
  kKeyTime : option Z
}.

(** A [MediaBuffer] is seen through its window
    [data() + range_offset(), range_length()): [range] is the content of
    the window, [set_range (range_offset + k) (range_length - k)] drops
    [k] leading bytes. *)
Record MediaBuffer : Type := {
  range : list Z;
  meta_data : MetaData
}.

Definition range_length (b : MediaBuffer) : Z := Z.of_nat (length (range b)).

Definition set_range_from (k : Z) (b : MediaBuffer) : MediaBuffer :=
  {| range := drop (Z.to_nat k) (range b); meta_data := meta_data b |}.

Inductive status_t : Type :=
| OK
| UNKNOWN_ERROR
| ERROR_MALFORMED.

Inductive event : Type :=
| MEDIA_RECORDER_INFO_MAX_FILESIZE_REACHED
| MEDIA_RECORDER_INFO_MAX_DURATION_REACHED
| MEDIA_RECORDER_INFO_STOP_PREMATURELY.

(** ** Track state *)

Record SampleInfo : Type := {
  size : Z;
  timestamp : Z
}.

Record StscTableEntry : Type := {
  firstChunk : Z;
  samplesPerChunk : Z;
  sampleDescriptionId : Z
}.

Record SttsTableEntry : Type := {
  sampleCount : Z;
  sampleDuration : Z
}.

Module Track.

(** [mStartTimestampUs] is set neither by the constructor nor by
    [start()]: it holds no value until the first sample is accepted. *)
Record state : Type := {
  mMeta : MetaData;
  mSourceStart : status_t;
  mDone : bool;
  mMaxTimeStampUs : Z;
  mEstimatedTrackSizeBytes : Z;
  mSampleInfos : list SampleInfo;
  mSamplesHaveSameSize : bool;
  mChunkSamples : list MediaBuffer;
  mChunkOffsets : list Z;
  mStscTableEntries : list StscTableEntry;
  mStssTableEntries : list Z;
  mSttsTableEntries : list SttsTableEntry;
  mCodecSpecificData : option (list Z);
  mCodecSpecificDataSize : Z;
  mGotAllCodecSpecificData : bool;
  mReachedEOS : bool;
  mStartTimestampUs : option Z
}.

(** [Track::Track]. *)
Definition new (format : MetaData) (source_start : status_t) : state :=
  {| mMeta := format;
     mSourceStart := source_start;
     mDone := false;
     mMaxTimeStampUs := 0;
     mEstimatedTrackSizeBytes := 0;
     mSampleInfos := [];
     mSamplesHaveSameSize := true;
     mChunkSamples := [];
     mChunkOffsets := [];
     mStscTableEntries := [];
     mStssTableEntries := [];
     mSttsTableEntries := [];
     mCodecSpecificData := None;
     mCodecSpecificDataSize := 0;
     mGotAllCodecSpecificData := false;
     mReachedEOS := false;
     mStartTimestampUs := None |}.

Definition set_mDone (x : bool) (t : state) : state :=
  {| mMeta := mMeta t; mSourceStart := mSourceStart t; mDone := x; mMaxTimeStampUs :=
     mMaxTimeStampUs t; mEstimatedTrackSizeBytes := mEstimatedTrackSizeBytes t;
     mSampleInfos := mSampleInfos t; mSamplesHaveSameSize := mSamplesHaveSameSize t;
     mChunkSamples := mChunkSamples t; mChunkOffsets := mChunkOffsets t;
     mStscTableEntries := mStscTableEntries t; mStssTableEntries := mStssTableEntries t;
     mSttsTableEntries := mSttsTableEntries t; mCodecSpecificData := mCodecSpecificData
     t; mCodecSpecificDataSize := mCodecSpecificDataSize t; mGotAllCodecSpecificData :=
     mGotAllCodecSpecificData t; mReachedEOS := mReachedEOS t; mStartTimestampUs :=
     mStartTimestampUs t |}.

Definition set_mMaxTimeStampUs (x : Z) (t : state) : state :=
  {| mMeta := mMeta t; mSourceStart := mSourceStart t; mDone := mDone t; mMaxTimeStampUs
     := x; mEstimatedTrackSizeBytes := mEstimatedTrackSizeBytes t; mSampleInfos :=
     mSampleInfos t; mSamplesHaveSameSize := mSamplesHaveSameSize t; mChunkSamples :=
     mChunkSamples t; mChunkOffsets := mChunkOffsets t; mStscTableEntries :=
     mStscTableEntries t; mStssTableEntries := mStssTableEntries t; mSttsTableEntries :=
     mSttsTableEntries t; mCodecSpecificData := mCodecSpecificData t;
     mCodecSpecificDataSize := mCodecSpecificDataSize t; mGotAllCodecSpecificData :=
     mGotAllCodecSpecificData t; mReachedEOS := mReachedEOS t; mStartTimestampUs :=
     mStartTimestampUs t |}.

Definition set_mEstimatedTrackSizeBytes (x : Z) (t : state) : state :=
  {| mMeta := mMeta t; mSourceStart := mSourceStart t; mDone := mDone t; mMaxTimeStampUs
     := mMaxTimeStampUs t; mEstimatedTrackSizeBytes := x; mSampleInfos := mSampleInfos t;
     mSamplesHaveSameSize := mSamplesHaveSameSize t; mChunkSamples := mChunkSamples t;
     mChunkOffsets := mChunkOffsets t; mStscTableEntries := mStscTableEntries t;
     mStssTableEntries := mStssTableEntries t; mSttsTableEntries := mSttsTableEntries t;
     mCodecSpecificData := mCodecSpecificData t; mCodecSpecificDataSize :=
     mCodecSpecificDataSize t; mGotAllCodecSpecificData := mGotAllCodecSpecificData t;
     mReachedEOS := mReachedEOS t; mStartTimestampUs := mStartTimestampUs t |}.

Definition set_mSampleInfos (x : list SampleInfo) (t : state) : state :=
  {| mMeta := mMeta t; mSourceStart := mSourceStart t; mDone := mDone t; mMaxTimeStampUs
     := mMaxTimeStampUs t; mEstimatedTrackSizeBytes := mEstimatedTrackSizeBytes t;
     mSampleInfos := x; mSamplesHaveSameSize := mSamplesHaveSameSize t; mChunkSamples :=
     mChunkSamples t; mChunkOffsets := mChunkOffsets t; mStscTableEntries :=
     mStscTableEntries t; mStssTableEntries := mStssTableEntries t; mSttsTableEntries :=
     mSttsTableEntries t; mCodecSpecificData := mCodecSpecificData t;
     mCodecSpecificDataSize := mCodecSpecificDataSize t; mGotAllCodecSpecificData :=
     mGotAllCodecSpecificData t; mReachedEOS := mReachedEOS t; mStartTimestampUs :=
     mStartTimestampUs t |}.

Definition set_mSamplesHaveSameSize (x : bool) (t : state) : state :=
  {| mMeta := mMeta t; mSourceStart := mSourceStart t; mDone := mDone t; mMaxTimeStampUs
     := mMaxTimeStampUs t; mEstimatedTrackSizeBytes := mEstimatedTrackSizeBytes t;
     mSampleInfos := mSampleInfos t; mSamplesHaveSameSize := x; mChunkSamples :=
     mChunkSamples t; mChunkOffsets := mChunkOffsets t; mStscTableEntries :=
     mStscTableEntries t; mStssTableEntries := mStssTableEntries t; mSttsTableEntries :=
     mSttsTableEntries t; mCodecSpecificData := mCodecSpecificData t;
     mCodecSpecificDataSize := mCodecSpecificDataSize t; mGotAllCodecSpecificData :=
     mGotAllCodecSpecificData t; mReachedEOS := mReachedEOS t; mStartTimestampUs :=
     mStartTimestampUs t |}.

Definition set_mChunkSamples (x : list MediaBuffer) (t : state) : state :=
  {| mMeta := mMeta t; mSourceStart := mSourceStart t; mDone := mDone t; mMaxTimeStampUs
     := mMaxTimeStampUs t; mEstimatedTrackSizeBytes := mEstimatedTrackSizeBytes t;
     mSampleInfos := mSampleInfos t; mSamplesHaveSameSize := mSamplesHaveSameSize t;
     mChunkSamples := x; mChunkOffsets := mChunkOffsets t; mStscTableEntries :=
     mStscTableEntries t; mStssTableEntries := mStssTableEntries t; mSttsTableEntries :=
     mSttsTableEntries t; mCodecSpecificData := mCodecSpecificData t;
     mCodecSpecificDataSize := mCodecSpecificDataSize t; mGotAllCodecSpecificData :=
     mGotAllCodecSpecificData t; mReachedEOS := mReachedEOS t; mStartTimestampUs :=
     mStartTimestampUs t |}.

Definition set_mChunkOffsets (x : list Z) (t : state) : state :=
  {| mMeta := mMeta t; mSourceStart := mSourceStart t; mDone := mDone t; mMaxTimeStampUs
     := mMaxTimeStampUs t; mEstimatedTrackSizeBytes := mEstimatedTrackSizeBytes t;
     mSampleInfos := mSampleInfos t; mSamplesHaveSameSize := mSamplesHaveSameSize t;
     mChunkSamples := mChunkSamples t; mChunkOffsets := x; mStscTableEntries :=
     mStscTableEntries t; mStssTableEntries := mStssTableEntries t; mSttsTableEntries :=
     mSttsTableEntries t; mCodecSpecificData := mCodecSpecificData t;
     mCodecSpecificDataSize := mCodecSpecificDataSize t; mGotAllCodecSpecificData :=
     mGotAllCodecSpecificData t; mReachedEOS := mReachedEOS t; mStartTimestampUs :=
     mStartTimestampUs t |}.

Definition set_mStscTableEntries (x : list StscTableEntry) (t : state) : state :=
  {| mMeta := mMeta t; mSourceStart := mSourceStart t; mDone := mDone t; mMaxTimeStampUs
     := mMaxTimeStampUs t; mEstimatedTrackSizeBytes := mEstimatedTrackSizeBytes t;
     mSampleInfos := mSampleInfos t; mSamplesHaveSameSize := mSamplesHaveSameSize t;
     mChunkSamples := mChunkSamples t; mChunkOffsets := mChunkOffsets t;
     mStscTableEntries := x; mStssTableEntries := mStssTableEntries t; mSttsTableEntries
     := mSttsTableEntries t; mCodecSpecificData := mCodecSpecificData t;
     mCodecSpecificDataSize := mCodecSpecificDataSize t; mGotAllCodecSpecificData :=
     mGotAllCodecSpecificData t; mReachedEOS := mReachedEOS t; mStartTimestampUs :=
     mStartTimestampUs t |}.

Definition set_mStssTableEntries (x : list Z) (t : state) : state :=
  {| mMeta := mMeta t; mSourceStart := mSourceStart t; mDone := mDone t; mMaxTimeStampUs
     := mMaxTimeStampUs t; mEstimatedTrackSizeBytes := mEstimatedTrackSizeBytes t;
     mSampleInfos := mSampleInfos t; mSamplesHaveSameSize := mSamplesHaveSameSize t;
     mChunkSamples := mChunkSamples t; mChunkOffsets := mChunkOffsets t;
     mStscTableEntries := mStscTableEntries t; mStssTableEntries := x; mSttsTableEntries
     := mSttsTableEntries t; mCodecSpecificData := mCodecSpecificData t;
     mCodecSpecificDataSize := mCodecSpecificDataSize t; mGotAllCodecSpecificData :=
     mGotAllCodecSpecificData t; mReachedEOS := mReachedEOS t; mStartTimestampUs :=
     mStartTimestampUs t |}.

Definition set_mSttsTableEntries (x : list SttsTableEntry) (t : state) : state :=
  {| mMeta := mMeta t; mSourceStart := mSourceStart t; mDone := mDone t; mMaxTimeStampUs
     := mMaxTimeStampUs t; mEstimatedTrackSizeBytes := mEstimatedTrackSizeBytes t;
     mSampleInfos := mSampleInfos t; mSamplesHaveSameSize := mSamplesHaveSameSize t;
     mChunkSamples := mChunkSamples t; mChunkOffsets := mChunkOffsets t;
     mStscTableEntries := mStscTableEntries t; mStssTableEntries := mStssTableEntries t;
     mSttsTableEntries := x; mCodecSpecificData := mCodecSpecificData t;
     mCodecSpecificDataSize := mCodecSpecificDataSize t; mGotAllCodecSpecificData :=
     mGotAllCodecSpecificData t; mReachedEOS := mReachedEOS t; mStartTimestampUs :=
     mStartTimestampUs t |}.

Definition set_mCodecSpecificData (x : option (list Z)) (t : state) : state :=
  {| mMeta := mMeta t; mSourceStart := mSourceStart t; mDone := mDone t; mMaxTimeStampUs
     := mMaxTimeStampUs t; mEstimatedTrackSizeBytes := mEstimatedTrackSizeBytes t;
     mSampleInfos := mSampleInfos t; mSamplesHaveSameSize := mSamplesHaveSameSize t;
     mChunkSamples := mChunkSamples t; mChunkOffsets := mChunkOffsets t;
     mStscTableEntries := mStscTableEntries t; mStssTableEntries := mStssTableEntries t;
     mSttsTableEntries := mSttsTableEntries t; mCodecSpecificData := x;
     mCodecSpecificDataSize := mCodecSpecificDataSize t; mGotAllCodecSpecificData :=
     mGotAllCodecSpecificData t; mReachedEOS := mReachedEOS t; mStartTimestampUs :=
     mStartTimestampUs t |}.

Definition set_mCodecSpecificDataSize (x : Z) (t : state) : state :=
  {| mMeta := mMeta t; mSourceStart := mSourceStart t; mDone := mDone t; mMaxTimeStampUs
     := mMaxTimeStampUs t; mEstimatedTrackSizeBytes := mEstimatedTrackSizeBytes t;
     mSampleInfos := mSampleInfos t; mSamplesHaveSameSize := mSamplesHaveSameSize t;
     mChunkSamples := mChunkSamples t; mChunkOffsets := mChunkOffsets t;
     mStscTableEntries := mStscTableEntries t; mStssTableEntries := mStssTableEntries t;
     mSttsTableEntries := mSttsTableEntries t; mCodecSpecificData := mCodecSpecificData
     t; mCodecSpecificDataSize := x; mGotAllCodecSpecificData := mGotAllCodecSpecificData
     t; mReachedEOS := mReachedEOS t; mStartTimestampUs := mStartTimestampUs t |}.

Definition set_mGotAllCodecSpecificData (x : bool) (t : state) : state :=
  {| mMeta := mMeta t; mSourceStart := mSourceStart t; mDone := mDone t; mMaxTimeStampUs
     := mMaxTimeStampUs t; mEstimatedTrackSizeBytes := mEstimatedTrackSizeBytes t;
     mSampleInfos := mSampleInfos t; mSamplesHaveSameSize := mSamplesHaveSameSize t;
     mChunkSamples := mChunkSamples t; mChunkOffsets := mChunkOffsets t;
     mStscTableEntries := mStscTableEntries t; mStssTableEntries := mStssTableEntries t;
     mSttsTableEntries := mSttsTableEntries t; mCodecSpecificData := mCodecSpecificData
     t; mCodecSpecificDataSize := mCodecSpecificDataSize t; mGotAllCodecSpecificData :=
     x; mReachedEOS := mReachedEOS t; mStartTimestampUs := mStartTimestampUs t |}.

Definition set_mReachedEOS (x : bool) (t : state) : state :=
  {| mMeta := mMeta t; mSourceStart := mSourceStart t; mDone := mDone t; mMaxTimeStampUs
     := mMaxTimeStampUs t; mEstimatedTrackSizeBytes := mEstimatedTrackSizeBytes t;
     mSampleInfos := mSampleInfos t; mSamplesHaveSameSize := mSamplesHaveSameSize t;
     mChunkSamples := mChunkSamples t; mChunkOffsets := mChunkOffsets t;
     mStscTableEntries := mStscTableEntries t; mStssTableEntries := mStssTableEntries t;
     mSttsTableEntries := mSttsTableEntries t; mCodecSpecificData := mCodecSpecificData
     t; mCodecSpecificDataSize := mCodecSpecificDataSize t; mGotAllCodecSpecificData :=
     mGotAllCodecSpecificData t; mReachedEOS := x; mStartTimestampUs := mStartTimestampUs
     t |}.

Definition set_mStartTimestampUs (x : option Z) (t : state) : state :=
  {| mMeta := mMeta t; mSourceStart := mSourceStart t; mDone := mDone t; mMaxTimeStampUs
     := mMaxTimeStampUs t; mEstimatedTrackSizeBytes := mEstimatedTrackSizeBytes t;
     mSampleInfos := mSampleInfos t; mSamplesHaveSameSize := mSamplesHaveSameSize t;
     mChunkSamples := mChunkSamples t; mChunkOffsets := mChunkOffsets t;
     mStscTableEntries := mStscTableEntries t; mStssTableEntries := mStssTableEntries t;
     mSttsTableEntries := mSttsTableEntries t; mCodecSpecificData := mCodecSpecificData
     t; mCodecSpecificDataSize := mCodecSpecificDataSize t; mGotAllCodecSpecificData :=
     mGotAllCodecSpecificData t; mReachedEOS := mReachedEOS t; mStartTimestampUs := x |}.

End Track.

(** ** Writer state

    [mFile] is the [FILE *] (false: NULL).  The file behind it outlives the
    handle: [file_bytes] is its content and [file_pos] the position of the
    stream.  [notified] collects the events passed to [notify]. *)
Record MPEG4Writer : Type := {
  mFile : bool;
  file_bytes : list Z;
  file_pos : Z;
  mOffset : Z;
  mMdatOffset : Z;
  mFreeBoxOffset : Z;
  mEstimatedMoovBoxSize : Z;
  mInterleaveDurationUs : Z;
  mMaxFileSizeLimitBytes : Z;
  mMaxFileDurationLimitUs : Z;
  mStartTimestampUs : Z;
  mStreamableFile : bool;
  mWriteMoovBoxToMemory : bool;
  mMoovBoxBuffer : option (list Z);
  mMoovBoxBufferOffset : Z;
  mBoxes : list Z;
  mTracks : list Track.state;
  notified : list event
}.

Definition set_mFile (x : bool) (w : MPEG4Writer) : MPEG4Writer :=
  {| mFile := x; file_bytes := file_bytes w; file_pos := file_pos w; mOffset := mOffset
     w; mMdatOffset := mMdatOffset w; mFreeBoxOffset := mFreeBoxOffset w;
     mEstimatedMoovBoxSize := mEstimatedMoovBoxSize w; mInterleaveDurationUs :=
     mInterleaveDurationUs w; mMaxFileSizeLimitBytes := mMaxFileSizeLimitBytes w;
     mMaxFileDurationLimitUs := mMaxFileDurationLimitUs w; mStartTimestampUs :=
     mStartTimestampUs w; mStreamableFile := mStreamableFile w; mWriteMoovBoxToMemory :=
     mWriteMoovBoxToMemory w; mMoovBoxBuffer := mMoovBoxBuffer w; mMoovBoxBufferOffset :=
     mMoovBoxBufferOffset w; mBoxes := mBoxes w; mTracks := mTracks w; notified :=
     notified w |}.

Definition set_file_bytes (x : list Z) (w : MPEG4Writer) : MPEG4Writer :=
  {| mFile := mFile w; file_bytes := x; file_pos := file_pos w; mOffset := mOffset w;
     mMdatOffset := mMdatOffset w; mFreeBoxOffset := mFreeBoxOffset w;
     mEstimatedMoovBoxSize := mEstimatedMoovBoxSize w; mInterleaveDurationUs :=
     mInterleaveDurationUs w; mMaxFileSizeLimitBytes := mMaxFileSizeLimitBytes w;
     mMaxFileDurationLimitUs := mMaxFileDurationLimitUs w; mStartTimestampUs :=
     mStartTimestampUs w; mStreamableFile := mStreamableFile w; mWriteMoovBoxToMemory :=
     mWriteMoovBoxToMemory w; mMoovBoxBuffer := mMoovBoxBuffer w; mMoovBoxBufferOffset :=
     mMoovBoxBufferOffset w; mBoxes := mBoxes w; mTracks := mTracks w; notified :=
     notified w |}.

Definition set_file_pos (x : Z) (w : MPEG4Writer) : MPEG4Writer :=
  {| mFile := mFile w; file_bytes := file_bytes w; file_pos := x; mOffset := mOffset w;
     mMdatOffset := mMdatOffset w; mFreeBoxOffset := mFreeBoxOffset w;
     mEstimatedMoovBoxSize := mEstimatedMoovBoxSize w; mInterleaveDurationUs :=
     mInterleaveDurationUs w; mMaxFileSizeLimitBytes := mMaxFileSizeLimitBytes w;
     mMaxFileDurationLimitUs := mMaxFileDurationLimitUs w; mStartTimestampUs :=
     mStartTimestampUs w; mStreamableFile := mStreamableFile w; mWriteMoovBoxToMemory :=
     mWriteMoovBoxToMemory w; mMoovBoxBuffer := mMoovBoxBuffer w; mMoovBoxBufferOffset :=
     mMoovBoxBufferOffset w; mBoxes := mBoxes w; mTracks := mTracks w; notified :=
     notified w |}.

Definition set_mOffset (x : Z) (w : MPEG4Writer) : MPEG4Writer :=
  {| mFile := mFile w; file_bytes := file_bytes w; file_pos := file_pos w; mOffset := x;
     mMdatOffset := mMdatOffset w; mFreeBoxOffset := mFreeBoxOffset w;
     mEstimatedMoovBoxSize := mEstimatedMoovBoxSize w; mInterleaveDurationUs :=
     mInterleaveDurationUs w; mMaxFileSizeLimitBytes := mMaxFileSizeLimitBytes w;
     mMaxFileDurationLimitUs := mMaxFileDurationLimitUs w; mStartTimestampUs :=
     mStartTimestampUs w; mStreamableFile := mStreamableFile w; mWriteMoovBoxToMemory :=
     mWriteMoovBoxToMemory w; mMoovBoxBuffer := mMoovBoxBuffer w; mMoovBoxBufferOffset :=
     mMoovBoxBufferOffset w; mBoxes := mBoxes w; mTracks := mTracks w; notified :=
     notified w |}.

Definition set_mMdatOffset (x : Z) (w : MPEG4Writer) : MPEG4Writer :=
  {| mFile := mFile w; file_bytes := file_bytes w; file_pos := file_pos w; mOffset :=
     mOffset w; mMdatOffset := x; mFreeBoxOffset := mFreeBoxOffset w;
     mEstimatedMoovBoxSize := mEstimatedMoovBoxSize w; mInterleaveDurationUs :=
     mInterleaveDurationUs w; mMaxFileSizeLimitBytes := mMaxFileSizeLimitBytes w;
     mMaxFileDurationLimitUs := mMaxFileDurationLimitUs w; mStartTimestampUs :=
     mStartTimestampUs w; mStreamableFile := mStreamableFile w; mWriteMoovBoxToMemory :=
     mWriteMoovBoxToMemory w; mMoovBoxBuffer := mMoovBoxBuffer w; mMoovBoxBufferOffset :=
     mMoovBoxBufferOffset w; mBoxes := mBoxes w; mTracks := mTracks w; notified :=
     notified w |}.

Definition set_mFreeBoxOffset (x : Z) (w : MPEG4Writer) : MPEG4Writer :=
  {| mFile := mFile w; file_bytes := file_bytes w; file_pos := file_pos w; mOffset :=
     mOffset w; mMdatOffset := mMdatOffset w; mFreeBoxOffset := x; mEstimatedMoovBoxSize
     := mEstimatedMoovBoxSize w; mInterleaveDurationUs := mInterleaveDurationUs w;
     mMaxFileSizeLimitBytes := mMaxFileSizeLimitBytes w; mMaxFileDurationLimitUs :=
     mMaxFileDurationLimitUs w; mStartTimestampUs := mStartTimestampUs w; mStreamableFile
     := mStreamableFile w; mWriteMoovBoxToMemory := mWriteMoovBoxToMemory w;
     mMoovBoxBuffer := mMoovBoxBuffer w; mMoovBoxBufferOffset := mMoovBoxBufferOffset w;
     mBoxes := mBoxes w; mTracks := mTracks w; notified := notified w |}.

Definition set_mEstimatedMoovBoxSize (x : Z) (w : MPEG4Writer) : MPEG4Writer :=
  {| mFile := mFile w; file_bytes := file_bytes w; file_pos := file_pos w; mOffset :=
     mOffset w; mMdatOffset := mMdatOffset w; mFreeBoxOffset := mFreeBoxOffset w;
     mEstimatedMoovBoxSize := x; mInterleaveDurationUs := mInterleaveDurationUs w;
     mMaxFileSizeLimitBytes := mMaxFileSizeLimitBytes w; mMaxFileDurationLimitUs :=
     mMaxFileDurationLimitUs w; mStartTimestampUs := mStartTimestampUs w; mStreamableFile
     := mStreamableFile w; mWriteMoovBoxToMemory := mWriteMoovBoxToMemory w;
     mMoovBoxBuffer := mMoovBoxBuffer w; mMoovBoxBufferOffset := mMoovBoxBufferOffset w;
     mBoxes := mBoxes w; mTracks := mTracks w; notified := notified w |}.

Definition set_mStartTimestampUs (x : Z) (w : MPEG4Writer) : MPEG4Writer :=
  {| mFile := mFile w; file_bytes := file_bytes w; file_pos := file_pos w; mOffset :=
     mOffset w; mMdatOffset := mMdatOffset w; mFreeBoxOffset := mFreeBoxOffset w;
     mEstimatedMoovBoxSize := mEstimatedMoovBoxSize w; mInterleaveDurationUs :=
     mInterleaveDurationUs w; mMaxFileSizeLimitBytes := mMaxFileSizeLimitBytes w;
     mMaxFileDurationLimitUs := mMaxFileDurationLimitUs w; mStartTimestampUs := x;
     mStreamableFile := mStreamableFile w; mWriteMoovBoxToMemory := mWriteMoovBoxToMemory
     w; mMoovBoxBuffer := mMoovBoxBuffer w; mMoovBoxBufferOffset := mMoovBoxBufferOffset
     w; mBoxes := mBoxes w; mTracks := mTracks w; notified := notified w |}.

Definition set_mStreamableFile (x : bool) (w : MPEG4Writer) : MPEG4Writer :=
  {| mFile := mFile w; file_bytes := file_bytes w; file_pos := file_pos w; mOffset :=
     mOffset w; mMdatOffset := mMdatOffset w; mFreeBoxOffset := mFreeBoxOffset w;
     mEstimatedMoovBoxSize := mEstimatedMoovBoxSize w; mInterleaveDurationUs :=
     mInterleaveDurationUs w; mMaxFileSizeLimitBytes := mMaxFileSizeLimitBytes w;
     mMaxFileDurationLimitUs := mMaxFileDurationLimitUs w; mStartTimestampUs :=
     mStartTimestampUs w; mStreamableFile := x; mWriteMoovBoxToMemory :=
     mWriteMoovBoxToMemory w; mMoovBoxBuffer := mMoovBoxBuffer w; mMoovBoxBufferOffset :=
     mMoovBoxBufferOffset w; mBoxes := mBoxes w; mTracks := mTracks w; notified :=
     notified w |}.

Definition set_mWriteMoovBoxToMemory (x : bool) (w : MPEG4Writer) : MPEG4Writer :=
  {| mFile := mFile w; file_bytes := file_bytes w; file_pos := file_pos w; mOffset :=
     mOffset w; mMdatOffset := mMdatOffset w; mFreeBoxOffset := mFreeBoxOffset w;
     mEstimatedMoovBoxSize := mEstimatedMoovBoxSize w; mInterleaveDurationUs :=
     mInterleaveDurationUs w; mMaxFileSizeLimitBytes := mMaxFileSizeLimitBytes w;
     mMaxFileDurationLimitUs := mMaxFileDurationLimitUs w; mStartTimestampUs :=
     mStartTimestampUs w; mStreamableFile := mStreamableFile w; mWriteMoovBoxToMemory :=
     x; mMoovBoxBuffer := mMoovBoxBuffer w; mMoovBoxBufferOffset := mMoovBoxBufferOffset
     w; mBoxes := mBoxes w; mTracks := mTracks w; notified := notified w |}.

Definition set_mMoovBoxBuffer (x : option (list Z)) (w : MPEG4Writer) : MPEG4Writer :=
  {| mFile := mFile w; file_bytes := file_bytes w; file_pos := file_pos w; mOffset :=
     mOffset w; mMdatOffset := mMdatOffset w; mFreeBoxOffset := mFreeBoxOffset w;
     mEstimatedMoovBoxSize := mEstimatedMoovBoxSize w; mInterleaveDurationUs :=
     mInterleaveDurationUs w; mMaxFileSizeLimitBytes := mMaxFileSizeLimitBytes w;
     mMaxFileDurationLimitUs := mMaxFileDurationLimitUs w; mStartTimestampUs :=
     mStartTimestampUs w; mStreamableFile := mStreamableFile w; mWriteMoovBoxToMemory :=
     mWriteMoovBoxToMemory w; mMoovBoxBuffer := x; mMoovBoxBufferOffset :=
     mMoovBoxBufferOffset w; mBoxes := mBoxes w; mTracks := mTracks w; notified :=
     notified w |}.

Definition set_mMoovBoxBufferOffset (x : Z) (w : MPEG4Writer) : MPEG4Writer :=
  {| mFile := mFile w; file_bytes := file_bytes w; file_pos := file_pos w; mOffset :=
     mOffset w; mMdatOffset := mMdatOffset w; mFreeBoxOffset := mFreeBoxOffset w;
     mEstimatedMoovBoxSize := mEstimatedMoovBoxSize w; mInterleaveDurationUs :=
     mInterleaveDurationUs w; mMaxFileSizeLimitBytes := mMaxFileSizeLimitBytes w;
     mMaxFileDurationLimitUs := mMaxFileDurationLimitUs w; mStartTimestampUs :=
     mStartTimestampUs w; mStreamableFile := mStreamableFile w; mWriteMoovBoxToMemory :=
     mWriteMoovBoxToMemory w; mMoovBoxBuffer := mMoovBoxBuffer w; mMoovBoxBufferOffset :=
     x; mBoxes := mBoxes w; mTracks := mTracks w; notified := notified w |}.

Definition set_mBoxes (x : list Z) (w : MPEG4Writer) : MPEG4Writer :=
  {| mFile := mFile w; file_bytes := file_bytes w; file_pos := file_pos w; mOffset :=
     mOffset w; mMdatOffset := mMdatOffset w; mFreeBoxOffset := mFreeBoxOffset w;
     mEstimatedMoovBoxSize := mEstimatedMoovBoxSize w; mInterleaveDurationUs :=
     mInterleaveDurationUs w; mMaxFileSizeLimitBytes := mMaxFileSizeLimitBytes w;
     mMaxFileDurationLimitUs := mMaxFileDurationLimitUs w; mStartTimestampUs :=
     mStartTimestampUs w; mStreamableFile := mStreamableFile w; mWriteMoovBoxToMemory :=
     mWriteMoovBoxToMemory w; mMoovBoxBuffer := mMoovBoxBuffer w; mMoovBoxBufferOffset :=
     mMoovBoxBufferOffset w; mBoxes := x; mTracks := mTracks w; notified := notified w |}.

Definition set_mTracks (x : list Track.state) (w : MPEG4Writer) : MPEG4Writer :=
  {| mFile := mFile w; file_bytes := file_bytes w; file_pos := file_pos w; mOffset :=
     mOffset w; mMdatOffset := mMdatOffset w; mFreeBoxOffset := mFreeBoxOffset w;
     mEstimatedMoovBoxSize := mEstimatedMoovBoxSize w; mInterleaveDurationUs :=
     mInterleaveDurationUs w; mMaxFileSizeLimitBytes := mMaxFileSizeLimitBytes w;
     mMaxFileDurationLimitUs := mMaxFileDurationLimitUs w; mStartTimestampUs :=
     mStartTimestampUs w; mStreamableFile := mStreamableFile w; mWriteMoovBoxToMemory :=
     mWriteMoovBoxToMemory w; mMoovBoxBuffer := mMoovBoxBuffer w; mMoovBoxBufferOffset :=
     mMoovBoxBufferOffset w; mBoxes := mBoxes w; mTracks := x; notified := notified w |}.

Definition set_notified (x : list event) (w : MPEG4Writer) : MPEG4Writer :=
  {| mFile := mFile w; file_bytes := file_bytes w; file_pos := file_pos w; mOffset :=
     mOffset w; mMdatOffset := mMdatOffset w; mFreeBoxOffset := mFreeBoxOffset w;
     mEstimatedMoovBoxSize := mEstimatedMoovBoxSize w; mInterleaveDurationUs :=
     mInterleaveDurationUs w; mMaxFileSizeLimitBytes := mMaxFileSizeLimitBytes w;
     mMaxFileDurationLimitUs := mMaxFileDurationLimitUs w; mStartTimestampUs :=
     mStartTimestampUs w; mStreamableFile := mStreamableFile w; mWriteMoovBoxToMemory :=
     mWriteMoovBoxToMemory w; mMoovBoxBuffer := mMoovBoxBuffer w; mMoovBoxBufferOffset :=
     mMoovBoxBufferOffset w; mBoxes := mBoxes w; mTracks := mTracks w; notified := x |}.

Definition notify (e : event) (w : MPEG4Writer) : MPEG4Writer :=
  set_notified (notified w ++ [e]) w.

(** ** The file and the moov buffer *)

Definition zlen {A : Type} (l : list A) : Z := Z.of_nat (length l).

(** Bytes written at position [pos]: what was there is overwritten, a gap
    past the end of the file reads as zeros. *)
Definition pwrite (pos : Z) (bs f : list Z) : list Z :=
  let p := Z.to_nat pos in
  take p f ++ replicate (p - length f)%nat 0 ++ bs ++ drop (p + length bs)%nat f.

(** [fseeko (mFile, pos, SEEK_SET)]; the result is not looked at by the
    source, and a negative position leaves the stream where it is. *)
Definition fseeko (pos : Z) (w : MPEG4Writer) : MPEG4Writer :=
  if pos <? 0 then w else set_file_pos pos w.

Definition fwrite (bs : list Z) (w : MPEG4Writer) : result MPEG4Writer :=
  if mFile w then
    Ok (set_file_pos (file_pos w + zlen bs)
          (set_file_bytes (pwrite (file_pos w) bs (file_bytes w)) w))
  else Undefined.

(** [memcpy (buf + off, bs, length bs)] into an allocation of [length buf]
    bytes. *)
Definition memcpy_to (off : Z) (bs buf : list Z) : result (list Z) :=
  if (0 <=? off) && (off + zlen bs <=? zlen buf) then
    Ok (take (Z.to_nat off) buf ++ bs ++ drop (Z.to_nat off + length bs)%nat buf)
  else Undefined.

(** The first [mMoovBoxBufferOffset] bytes of [mMoovBoxBuffer]. *)
Definition moov_prefix (w : MPEG4Writer) : result (list Z) :=
  match mMoovBoxBuffer w with
  | Some buf =>
      if (0 <=? mMoovBoxBufferOffset w) && (mMoovBoxBufferOffset w <=? zlen buf)
      then Ok (take (Z.to_nat (mMoovBoxBufferOffset w)) buf)
      else Undefined
  | None => if mMoovBoxBufferOffset w =? 0 then Ok [] else Undefined
  end.

(** ** Emission primitives *)

(** [MPEG4Writer::write (ptr, size, nmemb, stream)]; [ptr] is the list of
    the [size * nmemb] bytes. *)
Definition write (ptr : list Z) (w : MPEG4Writer) : result MPEG4Writer :=
  let bytes := zlen ptr in
  if mWriteMoovBoxToMemory w then
    if 8 + mMoovBoxBufferOffset w + bytes >? mEstimatedMoovBoxSize w then
      let w1 := set_mBoxes (map (fun it => it + mOffset w) (mBoxes w)) w in
      let w2 := fseeko (mOffset w1) w1 in
      buffered <- moov_prefix w2 ;;
      w3 <- fwrite buffered w2 ;;
      w4 <- fwrite ptr w3 ;;
      let w5 := set_mOffset (mOffset w4 + (bytes + mMoovBoxBufferOffset w4)) w4 in
      let w6 := set_mMoovBoxBuffer None w5 in
      let w7 := set_mMoovBoxBufferOffset 0 w6 in
      let w8 := set_mWriteMoovBoxToMemory false w7 in
      Ok (set_mStreamableFile false w8)
    else
      match mMoovBoxBuffer w with
      | None => Undefined
      | Some buf =>
          buf' <- memcpy_to (mMoovBoxBufferOffset w) ptr buf ;;
          Ok (set_mMoovBoxBufferOffset (mMoovBoxBufferOffset w + bytes)
                (set_mMoovBoxBuffer (Some buf') w))
      end
  else
    w1 <- fwrite ptr w ;;
    Ok (set_mOffset (mOffset w1 + bytes) w1).

Definition writeInt8 (x : Z) (w : MPEG4Writer) : result MPEG4Writer :=
  write [u8 x] w.

Definition writeInt16 (x : Z) (w : MPEG4Writer) : result MPEG4Writer :=
  write (be16 x) w.

Definition writeInt32 (x : Z) (w : MPEG4Writer) : result MPEG4Writer :=
  write (be32 x) w.

Definition writeInt64 (x : Z) (w : MPEG4Writer) : result MPEG4Writer :=
  write (be64 x) w.

Definition writeCString (s : string) (w : MPEG4Writer) : result MPEG4Writer :=
  let n := strlen s in
  write (cstr_bytes s (n + 1)) w.

Definition writeFourcc (s : string) (w : MPEG4Writer) : result MPEG4Writer :=
  _ <- CHECK (strlen s =? 4) ;;
  write (cstr_bytes s 4) w.

(** [mBoxes] grows by [push_back]; the innermost open box is last. *)
Definition beginBox (fourcc : string) (w : MPEG4Writer) : result MPEG4Writer :=
  _ <- CHECK (strlen fourcc =? 4) ;;
  let w1 := set_mBoxes
              (mBoxes w ++ [if mWriteMoovBoxToMemory w
                            then mMoovBoxBufferOffset w else mOffset w]) w in
  w2 <- writeInt32 0 w1 ;;
  writeFourcc fourcc w2.

Definition endBox (w : MPEG4Writer) : result MPEG4Writer :=
  match last (mBoxes w) with
  | None => Abort
  | Some offset =>
      let w1 := set_mBoxes (removelast (mBoxes w)) w in
      if mWriteMoovBoxToMemory w1 then
        match mMoovBoxBuffer w1 with
        | None => Undefined
        | Some buf =>
            buf' <- memcpy_to offset (be32 (mMoovBoxBufferOffset w1 - offset)) buf ;;
            Ok (set_mMoovBoxBuffer (Some buf') w1)
        end
      else
        let w2 := fseeko offset w1 in
        w3 <- writeInt32 (mOffset w2 - offset) w2 ;;
        let w4 := set_mOffset (mOffset w3 - 4) w3 in
        Ok (fseeko (mOffset w4) w4)
  end.

(** ** Samples *)

Definition addSample_l (buffer : MediaBuffer) (w : MPEG4Writer)
  : result (Z * MPEG4Writer) :=
  let old_offset := mOffset w in
  w1 <- fwrite (range buffer) w ;;
  Ok (old_offset, set_mOffset (mOffset w1 + range_length buffer) w1).

Definition StripStartcode (buffer : MediaBuffer) : MediaBuffer :=
  if range_length buffer <? 4 then buffer
  else
    match range buffer with
    | 0 :: 0 :: 0 :: 1 :: _ => set_range_from 4 buffer
    | _ => buffer
    end.

(** [USE_NALLEN_FOUR] is 1: a four-byte length goes before the payload. *)
Definition addLengthPrefixedSample_l (buffer : MediaBuffer) (w : MPEG4Writer)
  : result (Z * MPEG4Writer) :=
  let old_offset := mOffset w in
  let length := range_length buffer in
  w1 <- fwrite [u8 (Z.shiftr length 24)] w ;;
  w2 <- fwrite [Z.land (Z.shiftr length 16) 255] w1 ;;
  w3 <- fwrite [Z.land (Z.shiftr length 8) 255] w2 ;;
  w4 <- fwrite [Z.land length 255] w3 ;;
  w5 <- fwrite (range buffer) w4 ;;
  Ok (old_offset, set_mOffset (mOffset w5 + (length + 4)) w5).

(** ** Limits and the start timestamp *)

Definition exceedsFileSizeLimit (w : MPEG4Writer) : bool :=
  if mMaxFileSizeLimitBytes w =? 0 then false
  else
    let nTotalBytesEstimate :=
      fold_left (fun acc t => acc + Track.mEstimatedTrackSizeBytes t)
                (mTracks w) (mEstimatedMoovBoxSize w) in
    nTotalBytesEstimate >=? mMaxFileSizeLimitBytes w.

Definition exceedsFileDurationLimit (w : MPEG4Writer) : bool :=
  if mMaxFileDurationLimitUs w =? 0 then false
  else existsb (fun t => Track.mMaxTimeStampUs t >=? mMaxFileDurationLimitUs w)
               (mTracks w).

Definition reachedEOS (w : MPEG4Writer) : bool :=
  forallb Track.mReachedEOS (mTracks w).

Definition setStartTimestamp (timeUs : Z) (w : MPEG4Writer) : MPEG4Writer :=
  if negb (mStartTimestampUs w =? 0) then w
  else set_mStartTimestampUs timeUs w.

Definition getStartTimestamp (w : MPEG4Writer) : Z := mStartTimestampUs w.

(** ** MIME types *)

(** Modelled from the spec: the constants of MediaDefs.h, which is not part
    of the sources at hand; the spec lists the recognised MIME types. *)
Definition MEDIA_MIMETYPE_VIDEO_MPEG4 : string := "video/mp4v-es".
Definition MEDIA_MIMETYPE_VIDEO_H263 : string := "video/3gpp".
Definition MEDIA_MIMETYPE_VIDEO_AVC : string := "video/avc".
Definition MEDIA_MIMETYPE_AUDIO_AMR_NB : string := "audio/3gpp".
Definition MEDIA_MIMETYPE_AUDIO_AMR_WB : string := "audio/amr-wb".
Definition MEDIA_MIMETYPE_AUDIO_AAC : string := "audio/mp4a-latm".

Definition tolower (c : Z) : Z :=
  if (65 <=? c) && (c <=? 90) then c + 32 else c.

(** The characters of a C string, up to its NUL. *)
Definition c_chars (s : string) : list Z :=
  take (Z.to_nat (strlen s)) (bytes_of_string s).

Fixpoint bytes_eqb (a b : list Z) : bool :=
  match a, b with
  | [], [] => true
  | x :: a', y :: b' => (x =? y) && bytes_eqb a' b'
  | _, _ => false
  end.

(** [!strcasecmp (a, b)] *)
Definition strcasecmp0 (a b : string) : bool :=
  bytes_eqb (map tolower (c_chars a)) (map tolower (c_chars b)).

(** [!strncasecmp (a, b, n)] *)
Definition strncasecmp0 (a b : string) (n : nat) : bool :=
  bytes_eqb (map tolower (take n (c_chars a))) (map tolower (take n (c_chars b))).

(** ** Fixed-width conversions of the table constructors *)

Definition u32 (x : Z) : Z := x mod 2 ^ 32.

Definition s32 (x : Z) : Z := (x + 2 ^ 31) mod 2 ^ 32 - 2 ^ 31.

(** [StscTableEntry (uint32_t chunk, uint32_t samples, uint32_t id)] *)
Definition mkStsc (chunk samples id : Z) : StscTableEntry :=
  {| firstChunk := u32 chunk; samplesPerChunk := u32 samples;
     sampleDescriptionId := u32 id |}.

(** [SttsTableEntry (uint32_t count, uint32_t duration)] *)
Definition mkStts (count duration : Z) : SttsTableEntry :=
  {| sampleCount := u32 count; sampleDuration := u32 duration |}.

(** ** AVC configuration record *)

(** [!memcmp ("\x00\x00\x00\x01", p, 4)] *)
Definition is_start_code (p : list Z) : bool :=
  match p with
  | a :: b :: c :: d :: _ => (a =? 0) && (b =? 0) && (c =? 0) && (d =? 1)
  | _ => false
  end.

(** The search loop of [makeAVCCodecSpecificData]: [rest] is the input from
    [picParamOffset] on, so that [picParamOffset + 3 < size] reads
    [3 < length rest]. *)
Fixpoint find_picParamOffset (rest : list Z) (picParamOffset : Z) : Z :=
  match rest with
  | [] => picParamOffset
  | _ :: rest' =>
      if (3 <? zlen rest) && negb (is_start_code rest)
      then find_picParamOffset rest' (picParamOffset + 1)
      else picParamOffset
  end.

Definition makeAVCCodecSpecificData (data : list Z) (t : Track.state)
  : status_t * Track.state :=
  let size := zlen data in
  match Track.mCodecSpecificData t with
  | Some _ => (ERROR_MALFORMED, t)
  | None =>
      if (size <? 4) || negb (is_start_code data) then (ERROR_MALFORMED, t)
      else
        let picParamOffset := find_picParamOffset (drop 4 data) 4 in
        if picParamOffset + 3 >=? size then (ERROR_MALFORMED, t)
        else
          let seqParamSetLength := picParamOffset - 4 in
          let picParamSetLength := size - picParamOffset - 4 in
          let t1 := Track.set_mCodecSpecificDataSize
                      (6 + 1 + seqParamSetLength + 2 + picParamSetLength + 2) t in
          let header :=
            [1; 0x42; 0x80; 0x1e; Z.lor 0xfc 3; Z.lor 0xe0 1;
             u8 (Z.shiftr seqParamSetLength 8); Z.land seqParamSetLength 0xff]
            ++ take (Z.to_nat seqParamSetLength) (drop 4 data)
            ++ [1; u8 (Z.shiftr picParamSetLength 8); Z.land picParamSetLength 0xff]
            ++ take (Z.to_nat picParamSetLength)
                    (drop (Z.to_nat (picParamOffset + 4)) data) in
          (OK, Track.set_mCodecSpecificData (Some header) t1)
  end.

(** ** The producer loop *)

Module Locals.

Record t : Type := {
  count : Z;
  chunkTimestampUs : Z;
  nChunks : Z;
  nZeroLengthFrames : Z;
  lastTimestamp : Z;
  lastDuration : Z;
  sampleCount : Z;
  previousSampleSize : Z
}.

Definition init : t :=
  {| count := 0; chunkTimestampUs := 0; nChunks := 0; nZeroLengthFrames := 0;
     lastTimestamp := 0; lastDuration := 0; sampleCount := 1;
     previousSampleSize := 0 |}.

Definition set_count (x : Z) (l : t) : t :=
  {| count := x; chunkTimestampUs := chunkTimestampUs l; nChunks := nChunks l;
     nZeroLengthFrames := nZeroLengthFrames l; lastTimestamp := lastTimestamp l;
     lastDuration := lastDuration l; sampleCount := sampleCount l;
     previousSampleSize := previousSampleSize l |}.

Definition set_chunkTimestampUs (x : Z) (l : t) : t :=
  {| count := count l; chunkTimestampUs := x; nChunks := nChunks l;
     nZeroLengthFrames := nZeroLengthFrames l; lastTimestamp := lastTimestamp l;
     lastDuration := lastDuration l; sampleCount := sampleCount l;
     previousSampleSize := previousSampleSize l |}.

Definition set_nChunks (x : Z) (l : t) : t :=
  {| count := count l; chunkTimestampUs := chunkTimestampUs l; nChunks := x;
     nZeroLengthFrames := nZeroLengthFrames l; lastTimestamp := lastTimestamp l;
     lastDuration := lastDuration l; sampleCount := sampleCount l;
     previousSampleSize := previousSampleSize l |}.

Definition set_nZeroLengthFrames (x : Z) (l : t) : t :=
  {| count := count l; chunkTimestampUs := chunkTimestampUs l; nChunks := nChunks l;
     nZeroLengthFrames := x; lastTimestamp := lastTimestamp l;
     lastDuration := lastDuration l; sampleCount := sampleCount l;
     previousSampleSize := previousSampleSize l |}.

Definition set_lastTimestamp (x : Z) (l : t) : t :=
  {| count := count l; chunkTimestampUs := chunkTimestampUs l; nChunks := nChunks l;
     nZeroLengthFrames := nZeroLengthFrames l; lastTimestamp := x;
     lastDuration := lastDuration l; sampleCount := sampleCount l;
     previousSampleSize := previousSampleSize l |}.

Definition set_lastDuration (x : Z) (l : t) : t :=
  {| count := count l; chunkTimestampUs := chunkTimestampUs l; nChunks := nChunks l;
     nZeroLengthFrames := nZeroLengthFrames l; lastTimestamp := lastTimestamp l;
     lastDuration := x; sampleCount := sampleCount l;
     previousSampleSize := previousSampleSize l |}.

Definition set_sampleCount (x : Z) (l : t) : t :=
  {| count := count l; chunkTimestampUs := chunkTimestampUs l; nChunks := nChunks l;
     nZeroLengthFrames := nZeroLengthFrames l; lastTimestamp := lastTimestamp l;
     lastDuration := lastDuration l; sampleCount := x;
     previousSampleSize := previousSampleSize l |}.

Definition set_previousSampleSize (x : Z) (l : t) : t :=
  {| count := count l; chunkTimestampUs := chunkTimestampUs l; nChunks := nChunks l;
     nZeroLengthFrames := nZeroLengthFrames l; lastTimestamp := lastTimestamp l;
     lastDuration := lastDuration l; sampleCount := sampleCount l;
     previousSampleSize := x |}.

End Locals.

Definition loop_state : Type := Locals.t * Track.state * MPEG4Writer.

Inductive control : Type :=
| Continue (st : loop_state)
| Break (st : loop_state).

(** The track lives in [mOwner->mTracks]; the loop works on its own copy
    [t], which [sync] stores back at index [me] before the owner looks at
    its tracks. *)
Definition sync (me : nat) (t : Track.state) (w : MPEG4Writer) : MPEG4Writer :=
  set_mTracks (<[me := t]> (mTracks w)) w.

Fixpoint write_chunk_samples (isAvc first : bool) (samples : list MediaBuffer)
    (t : Track.state) (w : MPEG4Writer) : result (Track.state * MPEG4Writer) :=
  match samples with
  | [] => Ok (t, w)
  | it :: rest =>
      r <- (if isAvc then addLengthPrefixedSample_l it w else addSample_l it w) ;;
      let t1 := if first
                then Track.set_mChunkOffsets (Track.mChunkOffsets t ++ [fst r]) t
                else t in
      write_chunk_samples isAvc false rest t1 (snd r)
  end.

Definition writeOneChunk (isAvc : bool) (t : Track.state) (w : MPEG4Writer)
  : result (Track.state * MPEG4Writer) :=
  r <- write_chunk_samples isAvc true (Track.mChunkSamples t) t w ;;
  Ok (Track.set_mChunkSamples [] (fst r), snd r).

(** The search for the VOL start code 00 00 01 b6; [rest] is the sample
    from [offset] on. *)
Fixpoint find_vol_offset (rest : list Z) (offset : Z) : Z :=
  match rest with
  | [] => offset
  | _ :: rest' =>
      if 3 <? zlen rest then
        match rest with
        | 0 :: 0 :: 1 :: 0xb6 :: _ => offset
        | _ => find_vol_offset rest' (offset + 1)
        end
      else offset
  end.

(** What an iteration does with the buffer before it is taken as a sample:
    [Config] stands for the [continue] of the codec-configuration branches,
    [Sample] for falling through with the (possibly narrowed) buffer. *)
Inductive config_outcome : Type :=
| Config (t : Track.state)
| Sample (t : Track.state) (buffer : MediaBuffer).

Definition codec_config (is_mpeg4 is_avc : bool) (count : Z)
    (t : Track.state) (buffer : MediaBuffer) : result config_outcome :=
  let isCodecConfig := kKeyIsCodecConfig (meta_data buffer) in
  if match isCodecConfig with Some v => negb (v =? 0) | None => false end then
    _ <- CHECK (negb (Track.mGotAllCodecSpecificData t)) ;;
    t1 <- (if is_avc then
             let r := makeAVCCodecSpecificData (range buffer) t in
             _ <- CHECK (match fst r with OK => true | _ => false end) ;;
             Ok (snd r)
           else if is_mpeg4 then
             Ok (Track.set_mCodecSpecificData (Some (range buffer))
                   (Track.set_mCodecSpecificDataSize (range_length buffer) t))
           else Ok t) ;;
    Ok (Config (Track.set_mGotAllCodecSpecificData true t1))
  else if negb (Track.mGotAllCodecSpecificData t) && (count =? 1) && is_mpeg4
          && match Track.mCodecSpecificData t with None => true | Some _ => false end
  then
    let data := range buffer in
    let size := range_length buffer in
    let offset := find_vol_offset data 0 in
    let offset := if offset + 3 >=? size then size else offset in
    let t1 := Track.set_mCodecSpecificData (Some (take (Z.to_nat offset) data))
                (Track.set_mCodecSpecificDataSize offset t) in
    let buffer1 := set_range_from offset buffer in
    if size =? offset then Ok (Config t1)
    else Ok (Sample (Track.set_mGotAllCodecSpecificData true t1) buffer1)
  else if negb (Track.mGotAllCodecSpecificData t) && is_avc && (count <? 3) then
    let data := range buffer in
    let size := range_length buffer in
    _ <- CHECK ((count =? 2)
                || match Track.mCodecSpecificData t with
                   | None => true | Some _ => false end) ;;
    let offset := Track.mCodecSpecificDataSize t in
    let old := match Track.mCodecSpecificData t with Some d => d | None => [] end in
    if negb (zlen old =? offset) then Undefined
    else
      let t1 := Track.set_mCodecSpecificData (Some (old ++ [0; 0; 0; 1] ++ data))
                  (Track.set_mCodecSpecificDataSize (offset + (size + 4)) t) in
      if count =? 2 then
        let tmp := old ++ [0; 0; 0; 1] ++ data in
        let t2 := Track.set_mCodecSpecificDataSize 0
                    (Track.set_mCodecSpecificData None t1) in
        let r := makeAVCCodecSpecificData tmp t2 in
        _ <- CHECK (match fst r with OK => true | _ => false end) ;;
        Ok (Config (Track.set_mGotAllCodecSpecificData true (snd r)))
      else Ok (Config t1)
  else Ok (Sample t buffer).

(** The stts bookkeeping of an accepted sample, after the sample was
    appended to [mSampleInfos]. *)
Definition update_stts (info : SampleInfo) (l : Locals.t) (t : Track.state)
  : Locals.t * Track.state :=
  if zlen (Track.mSampleInfos t) >? 2 then
    if negb (Locals.lastDuration l =? timestamp info - Locals.lastTimestamp l) then
      (Locals.set_sampleCount 1 l,
       Track.set_mSttsTableEntries
         (Track.mSttsTableEntries t
            ++ [mkStts (Locals.sampleCount l) (Locals.lastDuration l)]) t)
    else (Locals.set_sampleCount (Locals.sampleCount l + 1) l, t)
  else (l, t).

(** The comparison of the sample's size with the previous one. *)
Definition update_same_size (info : SampleInfo) (l : Locals.t) (t : Track.state)
  : Locals.t * Track.state :=
  if Track.mSamplesHaveSameSize t then
    let t' := if (zlen (Track.mSampleInfos t) >=? 2)
                 && negb (Locals.previousSampleSize l =? size info)
              then Track.set_mSamplesHaveSameSize false t else t in
    (Locals.set_previousSampleSize (u32 (size info)) l, t')
  else (l, t).

(** The table updates for an accepted sample, from the timestamp
    conversion down to [mChunkSamples.push_back (copy)]. *)
Definition record_sample (info_size isSync timestampUs : Z) (copy : MediaBuffer)
    (l : Locals.t) (t : Track.state) : Locals.t * Track.state :=
  let t1 := if timestampUs >? Track.mMaxTimeStampUs t
            then Track.set_mMaxTimeStampUs timestampUs t else t in
  let info := {| size := info_size; timestamp := Z.quot (timestampUs + 500) 1000 |} in
  let t2 := Track.set_mSampleInfos (Track.mSampleInfos t1 ++ [info]) t1 in
  let '(l1, t3) := update_stts info l t2 in
  let '(l2, t4) := update_same_size info l1 t3 in
  let l3 := Locals.set_lastDuration (timestamp info - Locals.lastTimestamp l2) l2 in
  let l4 := Locals.set_lastTimestamp (timestamp info) l3 in
  let t5 := if negb (isSync =? 0)
            then Track.set_mStssTableEntries
                   (Track.mStssTableEntries t4
                      ++ [s32 (zlen (Track.mSampleInfos t4))]) t4
            else t4 in
  (l4, Track.set_mChunkSamples (Track.mChunkSamples t5 ++ [copy]) t5).

(** The chunk boundary at the end of an iteration. *)
Definition chunk_boundary (is_avc : bool) (interleaveDurationUs timestampUs : Z)
    (l : Locals.t) (t : Track.state) (w : MPEG4Writer) : result loop_state :=
  if interleaveDurationUs =? 0 then
    let l1 := Locals.set_nChunks (Locals.nChunks l + 1) l in
    let t1 := Track.set_mStscTableEntries
                (Track.mStscTableEntries t ++ [mkStsc (Locals.nChunks l1) 1 1]) t in
    r <- writeOneChunk is_avc t1 w ;;
    Ok (l1, fst r, snd r)
  else if Locals.chunkTimestampUs l =? 0 then
    Ok (Locals.set_chunkTimestampUs timestampUs l, t, w)
  else if timestampUs - Locals.chunkTimestampUs l >? interleaveDurationUs then
    let l1 := Locals.set_nChunks (Locals.nChunks l + 1) l in
    t1 <- (if Locals.nChunks l1 =? 1 then
             Ok (Track.set_mStscTableEntries
                   (Track.mStscTableEntries t
                      ++ [mkStsc (Locals.nChunks l1) (zlen (Track.mChunkSamples t)) 1]) t)
           else
             match last (Track.mStscTableEntries t) with
             | None => Undefined
             | Some e =>
                 if negb (samplesPerChunk e =? zlen (Track.mChunkSamples t)) then
                   Ok (Track.set_mStscTableEntries
                         (Track.mStscTableEntries t
                            ++ [mkStsc (Locals.nChunks l1)
                                       (zlen (Track.mChunkSamples t)) 1]) t)
                 else Ok t
             end) ;;
    r <- writeOneChunk is_avc t1 w ;;
    Ok (Locals.set_chunkTimestampUs timestampUs l1, fst r, snd r)
  else Ok (l, t, w).

(** One turn of the [while] loop on a buffer the source returned. *)
Definition iteration (is_mpeg4 is_avc : bool) (interleaveDurationUs : Z) (me : nat)
    (st : loop_state) (buffer : MediaBuffer) : result control :=
  let '(l, t, w) := st in
  if range_length buffer =? 0 then
    Ok (Continue
          (Locals.set_nZeroLengthFrames (Locals.nZeroLengthFrames l + 1) l, t, w))
  else
    let l := Locals.set_count (Locals.count l + 1) l in
    c <- codec_config is_mpeg4 is_avc (Locals.count l) t buffer ;;
    match c with
    | Config t1 => Ok (Continue (l, t1, w))
    | Sample t1 buffer1 =>
        let copy := {| range := range buffer1; meta_data := meta_data buffer1 |} in
        let copy := if is_avc then StripStartcode copy else copy in
        let info_size := if is_avc then range_length copy + 4
                         else range_length copy in
        let t2 := Track.set_mEstimatedTrackSizeBytes
                    (Track.mEstimatedTrackSizeBytes t1 + info_size) t1 in
        if exceedsFileSizeLimit (sync me t2 w) then
          Ok (Break (l, t2, notify MEDIA_RECORDER_INFO_MAX_FILESIZE_REACHED w))
        else if exceedsFileDurationLimit (sync me t2 w) then
          Ok (Break (l, t2, notify MEDIA_RECORDER_INFO_MAX_DURATION_REACHED w))
        else
          let isSync := default 0 (kKeyIsSyncFrame (meta_data copy)) in
          match kKeyTime (meta_data copy) with
          | None => Abort
          | Some timestampUs =>
              let '(t3, w1) :=
                match Track.mSampleInfos t2 with
                | [] =>
                    let w' := setStartTimestamp timestampUs w in
                    (Track.set_mStartTimestampUs
                       (Some (timestampUs - getStartTimestamp w')) t2, w')
                | _ :: _ => (t2, w)
                end in
              let '(l1, t4) := record_sample info_size isSync timestampUs copy l t3 in
              st' <- chunk_boundary is_avc interleaveDurationUs timestampUs l1 t4 w1 ;;
              Ok (Continue st')
          end
    end.

(** The [while] loop over the buffers read until [mDone] was seen or
    [read] failed. *)
Fixpoint producer_loop (is_mpeg4 is_avc : bool) (interleaveDurationUs : Z)
    (me : nat) (st : loop_state) (reads : list MediaBuffer) : result loop_state :=
  match reads with
  | [] => Ok st
  | buffer :: rest =>
      c <- iteration is_mpeg4 is_avc interleaveDurationUs me st buffer ;;
      match c with
      | Continue st' => producer_loop is_mpeg4 is_avc interleaveDurationUs me st' rest
      | Break st' => Ok st'
      end
  end.

(** What follows the loop in [threadEntry]; the locals are returned with
    the track so that the chunk counter can be spoken of. *)
Definition end_of_stream (is_avc : bool) (st : loop_state) : result loop_state :=
  let '(l, t, w) := st in
  let w1 := match Track.mSampleInfos t with
            | [] => notify MEDIA_RECORDER_INFO_STOP_PREMATURELY w
            | _ :: _ => w
            end in
  r <- (match Track.mChunkSamples t with
        | [] => Ok (l, t, w1)
        | _ :: _ =>
            let l1 := Locals.set_nChunks (Locals.nChunks l + 1) l in
            let t1 := Track.set_mStscTableEntries
                        (Track.mStscTableEntries t
                           ++ [mkStsc (Locals.nChunks l1)
                                      (zlen (Track.mChunkSamples t)) 1]) t in
            r <- writeOneChunk is_avc t1 w1 ;;
            Ok (l1, fst r, snd r)
        end) ;;
  let '(l2, t2, w2) := r in
  let l3 := if zlen (Track.mSampleInfos t2) =? 1
            then Locals.set_lastDuration 0 l2
            else Locals.set_sampleCount (Locals.sampleCount l2 + 1) l2 in
  let t3 := Track.set_mSttsTableEntries
              (Track.mSttsTableEntries t2
                 ++ [mkStts (Locals.sampleCount l3) (Locals.lastDuration l3)]) t2 in
  Ok (l3, Track.set_mReachedEOS true t3, w2).

Definition is_mpeg4_mime (mime : string) : bool :=
  strcasecmp0 mime MEDIA_MIMETYPE_VIDEO_MPEG4
  || strcasecmp0 mime MEDIA_MIMETYPE_AUDIO_AAC.

Definition is_avc_mime (mime : string) : bool :=
  strcasecmp0 mime MEDIA_MIMETYPE_VIDEO_AVC.

(** The body of [threadEntry] for a track of MIME type [mime]: the loop,
    then the end of the stream. *)
Definition thread_body (mime : string) (me : nat) (t : Track.state)
    (w : MPEG4Writer) (reads : list MediaBuffer) : result loop_state :=
  let is_mpeg4 := is_mpeg4_mime mime in
  let is_avc := is_avc_mime mime in
  let interleaveDurationUs := mInterleaveDurationUs w in
  st <- producer_loop is_mpeg4 is_avc interleaveDurationUs me
          (Locals.init, t, w) reads ;;
  end_of_stream is_avc st.

(** [Track::threadEntry]; [reads] are the buffers the source returned while
    the loop condition held.  Without a MIME type in the format, [mime] is
    never assigned. *)
Definition threadEntry (me : nat) (t : Track.state) (w : MPEG4Writer)
    (reads : list MediaBuffer) : result (Track.state * MPEG4Writer) :=
  match kKeyMIMEType (Track.mMeta t) with
  | None => Undefined
  | Some mime =>
      st <- thread_body mime me t w reads ;;
      let '(_, t', w') := st in
      Ok (t', sync me t' w')
  end.

(** ** Track header *)

Definition emitter : Type := MPEG4Writer -> result MPEG4Writer.

(** One call after the other on the same writer. *)
Definition andThen (f g : emitter) : emitter :=
  fun w => w1 <- f w ;; g w1.

Infix ">>" := andThen (at level 65, right associativity).

Definition skip : emitter := fun w => Ok w.

Definition check (b : bool) : emitter := fun w => if b then Ok w else Abort.

Definition undefined : emitter := fun _ => Undefined.

Fixpoint for_each {A : Type} (l : list A) (body : A -> emitter) : emitter :=
  match l with
  | [] => skip
  | it :: rest => body it >> for_each rest body
  end.

(** [write (mCodecSpecificData, mCodecSpecificDataSize)] *)
Definition write_codec_specific_data (t : Track.state) : emitter :=
  match Track.mCodecSpecificData t with
  | Some d =>
      if (0 <=? Track.mCodecSpecificDataSize t)
         && (Track.mCodecSpecificDataSize t <=? zlen d)
      then write (take (Z.to_nat (Track.mCodecSpecificDataSize t)) d)
      else undefined
  | None => if Track.mCodecSpecificDataSize t =? 0 then write [] else undefined
  end.

Definition write_tkhd (is_audio : bool) (now trackID : Z) (t : Track.state) : emitter :=
  beginBox "tkhd" >>
    writeInt32 0 >>
    writeInt32 now >>
    writeInt32 now >>
    writeInt32 trackID >>
    writeInt32 0 >>
    writeInt32 (Z.quot (Track.mMaxTimeStampUs t) 1000) >>
    writeInt32 0 >>
    writeInt32 0 >>
    writeInt16 0 >>
    writeInt16 0 >>
    writeInt16 (if is_audio then 0x100 else 0) >>
    writeInt16 0 >>
    writeInt32 0x10000 >>
    writeInt32 0 >>
    writeInt32 0 >>
    writeInt32 0 >>
    writeInt32 0x10000 >>
    writeInt32 0 >>
    writeInt32 0 >>
    writeInt32 0 >>
    writeInt32 0x40000000 >>
    (if is_audio then writeInt32 0 >> writeInt32 0
     else
       match kKeyWidth (Track.mMeta t), kKeyHeight (Track.mMeta t) with
       | Some width, Some height =>
           writeInt32 (Z.shiftl width 16) >> writeInt32 (Z.shiftl height 16)
       | _, _ => check false
       end) >>
  endBox.

Definition write_edts (t : Track.state) : emitter :=
  match Track.mStartTimestampUs t with
  | None => undefined
  | Some mStartTimestampUs =>
      if negb (mStartTimestampUs =? 0) then
        beginBox "edts" >>
          writeInt32 0 >>
          beginBox "elst" >>
            writeInt32 0 >>
            writeInt32 1 >>
            writeInt32 (Z.quot mStartTimestampUs 1000) >>
            writeInt32 (-1) >>
            writeInt32 1 >>
          endBox >>
        endBox
      else skip
  end.

Definition write_mdhd (now : Z) (t : Track.state) : emitter :=
  beginBox "mdhd" >>
    writeInt32 0 >>
    writeInt32 now >>
    writeInt32 now >>
    writeInt32 1000 >>
    writeInt32 (Z.quot (Track.mMaxTimeStampUs t) 1000) >>
    writeInt16 0 >>
    writeInt16 0 >>
  endBox.

Definition write_hdlr (is_audio : bool) : emitter :=
  beginBox "hdlr" >>
    writeInt32 0 >>
    writeInt32 0 >>
    writeFourcc (if is_audio then "soun" else "vide") >>
    writeInt32 0 >>
    writeInt32 0 >>
    writeInt32 0 >>
    writeCString (if is_audio then "SoundHandler" else "") >>
  endBox.

Definition write_minf (is_audio : bool) : emitter :=
  beginBox "minf" >>
    (if is_audio then
       beginBox "smhd" >> writeInt32 0 >> writeInt16 0 >> writeInt16 0 >> endBox
     else
       beginBox "vmhd" >> writeInt32 1 >> writeInt16 0 >> writeInt16 0 >>
         writeInt16 0 >> writeInt16 0 >> endBox) >>
    beginBox "dinf" >>
      beginBox "dref" >>
        writeInt32 0 >>
        writeInt32 1 >>
        beginBox "url " >>
          writeInt32 1 >>
        endBox >>
      endBox >>
    endBox >>
  endBox.

Definition write_audio_entry (mime : string) (t : Track.state) : emitter :=
  let fourcc :=
    if strcasecmp0 MEDIA_MIMETYPE_AUDIO_AMR_NB mime then Some "samr"%string
    else if strcasecmp0 MEDIA_MIMETYPE_AUDIO_AMR_WB mime then Some "sawb"%string
    else if strcasecmp0 MEDIA_MIMETYPE_AUDIO_AAC mime then Some "mp4a"%string
    else None in
  match fourcc with
  | None => check false
  | Some fourcc =>
      beginBox fourcc >>
        writeInt32 0 >>
        writeInt16 0 >>
        writeInt16 1 >>
        writeInt32 0 >>
        writeInt32 0 >>
        match kKeyChannelCount (Track.mMeta t) with
        | None => check false
        | Some nChannels =>
            writeInt16 nChannels >>
            writeInt16 16 >>
            writeInt16 0 >>
            writeInt16 0 >>
            match kKeySampleRate (Track.mMeta t) with
            | None => check false
            | Some samplerate =>
                writeInt32 (Z.shiftl samplerate 16) >>
                (if strcasecmp0 MEDIA_MIMETYPE_AUDIO_AAC mime then
                   beginBox "esds" >>
                     writeInt32 0 >>
                     writeInt8 0x03 >>
                     writeInt8 (23 + Track.mCodecSpecificDataSize t) >>
                     writeInt16 0 >>
                     writeInt8 0 >>
                     writeInt8 0x04 >>
                     writeInt8 (15 + Track.mCodecSpecificDataSize t) >>
                     writeInt8 0x40 >>
                     writeInt8 0x15 >>
                     writeInt16 0x03 >>
                     writeInt8 0 >>
                     writeInt32 96000 >>
                     writeInt32 96000 >>
                     writeInt8 0x05 >>
                     writeInt8 (Track.mCodecSpecificDataSize t) >>
                     write_codec_specific_data t >>
                     write [0x06; 0x01; 0x02] >>
                   endBox
                 else skip)
            end
        end >>
      endBox
  end.

Definition write_video_entry (mime : string) (t : Track.state) : emitter :=
  (if strcasecmp0 MEDIA_MIMETYPE_VIDEO_MPEG4 mime then beginBox "mp4v"
   else if strcasecmp0 MEDIA_MIMETYPE_VIDEO_H263 mime then beginBox "s263"
   else if strcasecmp0 MEDIA_MIMETYPE_VIDEO_AVC mime then beginBox "avc1"
   else check false) >>
    writeInt32 0 >>
    writeInt16 0 >>
    writeInt16 0 >>
    writeInt16 0 >>
    writeInt16 0 >>
    writeInt32 0 >>
    writeInt32 0 >>
    writeInt32 0 >>
    match kKeyWidth (Track.mMeta t), kKeyHeight (Track.mMeta t) with
    | Some width, Some height =>
        writeInt16 width >>
        writeInt16 height >>
        writeInt32 0x480000 >>
        writeInt32 0x480000 >>
        writeInt32 0 >>
        writeInt16 1 >>
        write (cstr_bytes "                                " 32) >>
        writeInt16 0x18 >>
        writeInt16 (-1) >>
        check (23 + Track.mCodecSpecificDataSize t <? 128) >>
        (if strcasecmp0 MEDIA_MIMETYPE_VIDEO_MPEG4 mime then
           beginBox "esds" >>
             writeInt32 0 >>
             writeInt8 0x03 >>
             writeInt8 (23 + Track.mCodecSpecificDataSize t) >>
             writeInt16 0 >>
             writeInt8 0x1f >>
             writeInt8 0x04 >>
             writeInt8 (15 + Track.mCodecSpecificDataSize t) >>
             writeInt8 0x20 >>
             writeInt8 0x11 >>
             write [0x01; 0x77; 0x00; 0x00; 0x03; 0xe8; 0x00; 0x00; 0x03; 0xe8; 0x00] >>
             writeInt8 0x05 >>
             writeInt8 (Track.mCodecSpecificDataSize t) >>
             write_codec_specific_data t >>
             write [0x06; 0x01; 0x02] >>
           endBox
         else if strcasecmp0 MEDIA_MIMETYPE_VIDEO_H263 mime then
           beginBox "d263" >>
             writeInt32 0 >>
             writeInt8 0 >>
             writeInt8 10 >>
             writeInt8 0 >>
           endBox
         else if strcasecmp0 MEDIA_MIMETYPE_VIDEO_AVC mime then
           beginBox "avcC" >>
             write_codec_specific_data t >>
           endBox
         else skip)
    | _, _ => check false
    end >>
  endBox.

Definition write_stsd (is_audio : bool) (mime : string) (t : Track.state) : emitter :=
  beginBox "stsd" >>
    writeInt32 0 >>
    writeInt32 1 >>
    (if is_audio then write_audio_entry mime t else write_video_entry mime t) >>
  endBox.

Definition write_stts (t : Track.state) : emitter :=
  beginBox "stts" >>
    writeInt32 0 >>
    writeInt32 (zlen (Track.mSttsTableEntries t)) >>
    for_each (Track.mSttsTableEntries t)
      (fun it => writeInt32 (sampleCount it) >> writeInt32 (sampleDuration it)) >>
  endBox.

Definition write_stss (t : Track.state) : emitter :=
  beginBox "stss" >>
    writeInt32 0 >>
    writeInt32 (zlen (Track.mStssTableEntries t)) >>
    for_each (Track.mStssTableEntries t) (fun it => writeInt32 it) >>
  endBox.

(** With [mSamplesHaveSameSize] the default size is read through
    [mSampleInfos.begin ()]; on an empty list that iterator is [end ()]
    and has no element to read. *)
Definition write_stsz (t : Track.state) : emitter :=
  beginBox "stsz" >>
    writeInt32 0 >>
    (if Track.mSamplesHaveSameSize t then
       match Track.mSampleInfos t with
       | it :: _ => writeInt32 (size it)
       | [] => undefined
       end
     else writeInt32 0) >>
    writeInt32 (zlen (Track.mSampleInfos t)) >>
    (if negb (Track.mSamplesHaveSameSize t) then
       for_each (Track.mSampleInfos t) (fun it => writeInt32 (size it))
     else skip) >>
  endBox.

Definition write_stsc (t : Track.state) : emitter :=
  beginBox "stsc" >>
    writeInt32 0 >>
    writeInt32 (zlen (Track.mStscTableEntries t)) >>
    for_each (Track.mStscTableEntries t)
      (fun it => writeInt32 (firstChunk it) >>
                 writeInt32 (samplesPerChunk it) >>
                 writeInt32 (sampleDescriptionId it)) >>
  endBox.

Definition write_co64 (t : Track.state) : emitter :=
  beginBox "co64" >>
    writeInt32 0 >>
    writeInt32 (zlen (Track.mChunkOffsets t)) >>
    for_each (Track.mChunkOffsets t) (fun it => writeInt64 it) >>
  endBox.

(** [Track::writeTrackHeader]; [now] is what [time (NULL)] returns.  The
    source closes minf before it opens stbl. *)
Definition writeTrackHeader (now trackID : Z) (t : Track.state) : emitter :=
  match kKeyMIMEType (Track.mMeta t) with
  | None => check false
  | Some mime =>
      let is_audio := strncasecmp0 mime "audio/" 6 in
      beginBox "trak" >>
        write_tkhd is_audio now trackID t >>
        write_edts t >>
        beginBox "mdia" >>
          write_mdhd now t >>
          write_hdlr is_audio >>
          write_minf is_audio >>
          beginBox "stbl" >>
            write_stsd is_audio mime t >>
            write_stts t >>
            (if negb is_audio then write_stss t else skip) >>
            write_stsz t >>
            write_stsc t >>
            write_co64 t >>
          endBox >>
        endBox >>
      endBox
  end.

(** ** Starting and stopping *)

(** [Track::start]; the producer thread it creates runs [threadEntry]. *)
Definition Track_start (t : Track.state) : status_t * Track.state :=
  match Track.mSourceStart t with
  | OK =>
      (OK,
       Track.set_mEstimatedTrackSizeBytes 0
         (Track.set_mReachedEOS false
            (Track.set_mMaxTimeStampUs 0 (Track.set_mDone false t))))
  | err => (err, Track.set_mReachedEOS true (Track.set_mDone true t))
  end.

(** [Track::stop]; [pthread_join] waits for the producer, whose effects
    are those of [threadEntry]. *)
Definition Track_stop (t : Track.state) : Track.state :=
  if Track.mDone t then t else Track.set_mDone true t.

Fixpoint start_tracks (started rest : list Track.state)
  : status_t * list Track.state :=
  match rest with
  | [] => (OK, started)
  | it :: rest' =>
      let r := Track_start it in
      match fst r with
      | OK => start_tracks (started ++ [snd r]) rest'
      | err => (err, map Track_stop started ++ snd r :: rest')
      end
  end.

Definition start (w : MPEG4Writer) : result (status_t * MPEG4Writer) :=
  if negb (mFile w) then Ok (UNKNOWN_ERROR, w)
  else
    let w := set_mStartTimestampUs 0 w in
    let w := set_mStreamableFile true w in
    let w := set_mWriteMoovBoxToMemory false w in
    let w := set_mMoovBoxBuffer None w in
    let w := set_mMoovBoxBufferOffset 0 w in
    w <- (beginBox "ftyp" >>
            writeFourcc "isom" >>
            writeInt32 0 >>
            writeFourcc "isom" >>
          endBox) w ;;
    let w := set_mFreeBoxOffset (mOffset w) w in
    let w := if mEstimatedMoovBoxSize w =? 0
             then set_mEstimatedMoovBoxSize 0x0F00 w else w in
    _ <- CHECK (mEstimatedMoovBoxSize w >=? 8) ;;
    let w := fseeko (mFreeBoxOffset w) w in
    w <- (writeInt32 (mEstimatedMoovBoxSize w) >> write (cstr_bytes "free" 4)) w ;;
    let w := set_mMdatOffset (mFreeBoxOffset w + mEstimatedMoovBoxSize w) w in
    let w := set_mOffset (mMdatOffset w) w in
    let w := fseeko (mMdatOffset w) w in
    w <- write ([0; 0; 0; 1] ++ bytes_of_string "mdat????????") w ;;
    let r := start_tracks [] (mTracks w) in
    Ok (fst r, set_mTracks (snd r) w).

(** The moov subtree of [stop]; [track_now k] is the time read by the
    header of the track at index [k]. *)
Fixpoint write_track_headers (track_now : nat -> Z) (k : nat) (id : Z)
    (tracks : list Track.state) : emitter :=
  match tracks with
  | [] => skip
  | it :: rest =>
      writeTrackHeader (track_now k) id it >>
      write_track_headers track_now (S k) (id + 1) rest
  end.

Definition write_moov (now : Z) (track_now : nat -> Z) (max_duration : Z)
    (tracks : list Track.state) : emitter :=
  beginBox "moov" >>
    beginBox "mvhd" >>
      writeInt32 0 >>
      writeInt32 now >>
      writeInt32 now >>
      writeInt32 1000 >>
      writeInt32 (Z.quot max_duration 1000) >>
      writeInt32 0x10000 >>
      writeInt16 0x100 >>
      writeInt16 0 >>
      writeInt32 0 >>
      writeInt32 0 >>
      writeInt32 0x10000 >>
      writeInt32 0 >>
      writeInt32 0 >>
      writeInt32 0 >>
      writeInt32 0x10000 >>
      writeInt32 0 >>
      writeInt32 0 >>
      writeInt32 0 >>
      writeInt32 0x40000000 >>
      writeInt32 0 >>
      writeInt32 0 >>
      writeInt32 0 >>
      writeInt32 0 >>
      writeInt32 0 >>
      writeInt32 0 >>
      writeInt32 (zlen tracks + 1) >>
    endBox >>
    write_track_headers track_now 0 1 tracks >>
  endBox.

(** The streamable branch of [stop]: the staged moov is written over the
    reserved space at [mFreeBoxOffset], a free box takes what is left. *)
Definition place_staged_moov (w : MPEG4Writer) : result MPEG4Writer :=
  _ <- CHECK (mMoovBoxBufferOffset w + 8 <=? mEstimatedMoovBoxSize w) ;;
  let w := fseeko (mFreeBoxOffset w) w in
  let w := set_mOffset (mFreeBoxOffset w) w in
  buffered <- moov_prefix w ;;
  w <- write buffered w ;;
  let w := set_mFreeBoxOffset
             (if mStreamableFile w then mOffset w else mFreeBoxOffset w) w in
  let w := fseeko (mFreeBoxOffset w) w in
  w <- (writeInt32 (mEstimatedMoovBoxSize w - mMoovBoxBufferOffset w) >>
        write (cstr_bytes "free" 4)) w ;;
  let w := set_mMoovBoxBuffer None w in
  Ok (set_mMoovBoxBufferOffset 0 w).

(** The first steps of [stop] on the file: the size of the mdat box is
    written into its header, and the stream is set back to [mOffset]. *)
Definition patch_mdat_size (w : MPEG4Writer) : result MPEG4Writer :=
  let w := fseeko (mMdatOffset w + 8) w in
  w <- fwrite (be64 (mOffset w - mMdatOffset w)) w ;;
  Ok (fseeko (mOffset w) w).

(** The switch to memory mode.  [malloc] is taken to succeed; the buffer
    it returns has [mEstimatedMoovBoxSize] bytes, and only what was copied
    into it is ever read back. *)
Definition stage_moov (w : MPEG4Writer) : MPEG4Writer :=
  let w := set_mWriteMoovBoxToMemory true w in
  let w := set_mMoovBoxBuffer
             (Some (replicate (Z.to_nat (mEstimatedMoovBoxSize w)) 0)) w in
  set_mMoovBoxBufferOffset 0 w.

(** [MPEG4Writer::stop]. *)
Definition stop (now : Z) (track_now : nat -> Z) (w : MPEG4Writer)
  : result MPEG4Writer :=
  if negb (mFile w) then Ok w
  else
    let w := set_mTracks (map Track_stop (mTracks w)) w in
    let max_duration :=
      fold_left (fun acc it => if Track.mMaxTimeStampUs it >? acc
                               then Track.mMaxTimeStampUs it else acc)
                (mTracks w) 0 in
    w <- patch_mdat_size w ;;
    let w := stage_moov w in
    w <- write_moov now track_now max_duration (mTracks w) w ;;
    let w := set_mWriteMoovBoxToMemory false w in
    w <- (if mStreamableFile w then place_staged_moov w else Ok w) ;;
    _ <- CHECK (match mBoxes w with [] => true | _ => false end) ;;
    Ok (set_mFile false w).

(** ** Well-bracketed emission

    A use of the primitives in which every [beginBox] is closed by its
    [endBox]: nothing, raw bytes and then more, or a box around an
    emission and then more. *)
Inductive emission : Type :=
| Done
| Bytes (ptr : list Z) (rest : emission)
| Box (fourcc : string) (body rest : emission).

Fixpoint emit (e : emission) : emitter :=
  match e with
  | Done => skip
  | Bytes ptr rest => write ptr >> emit rest
  | Box fourcc body rest => beginBox fourcc >> emit body >> endBox >> emit rest
  end.

(** The number of bytes an emission hands to [write]. *)
Fixpoint emitted_size (e : emission) : Z :=
  match e with
  | Done => 0
  | Bytes ptr rest => zlen ptr + emitted_size rest
  | Box fourcc body rest => 8 + emitted_size body + emitted_size rest
  end.

(** The boxes of an emission that starts at [pos]: where each one begins
    and how many bytes it has, its eight-byte header included. *)
Fixpoint boxes_of (e : emission) (pos : Z) : list (Z * Z) :=
  match e with
  | Done => []
  | Bytes ptr rest => boxes_of rest (pos + zlen ptr)
  | Box fourcc body rest =>
      (pos, 8 + emitted_size body)
        :: boxes_of body (pos + 8)
        ++ boxes_of rest (pos + (8 + emitted_size body))
  end.

(** The bytes a conforming file holds for an emission: a box is its
    four-byte big-endian size, its type, and its body. *)
Fixpoint box_bytes (e : emission) : list Z :=
  match e with
  | Done => []
  | Bytes ptr rest => ptr ++ box_bytes rest
  | Box fourcc body rest =>
      be32 (8 + emitted_size body) ++ cstr_bytes fourcc 4
        ++ box_bytes body ++ box_bytes rest
  end.

(** Every fourcc of the emission is four characters long. *)
Fixpoint fourcc_ok (e : emission) : bool :=
  match e with
  | Done => true
  | Bytes _ rest => fourcc_ok rest
  | Box fourcc body rest => (strlen fourcc =? 4) && fourcc_ok body && fourcc_ok rest
  end.

(** One emission after the other. *)
Fixpoint emission_app (e1 e2 : emission) : emission :=
  match e1 with
  | Done => e2
  | Bytes ptr rest => Bytes ptr (emission_app rest e2)
  | Box fourcc body rest => Box fourcc body (emission_app rest e2)
  end.

(** What is left to do inside open boxes: an emission, and for each box
    still open its [endBox] and what follows it. *)
Fixpoint emit_closing (first : emission) (after : list emission) : emitter :=
  match after with
  | [] => emit first
  | e :: l => emit first >> endBox >> emit_closing e l
  end.

(** [f] closes [n] boxes that were open before it and leaves closed
    every box that it opens: a run of [f] that returns is the run of such
    emissions. *)
Definition closes (n : nat) (f : emitter) : Prop :=
  forall w w',
    f w = Ok w' ->
    exists first after,
      length after = n /\
      fourcc_ok first = true /\
      forallb fourcc_ok after = true /\
      emit_closing first after w = Ok w'.

(** ** The moov as it lies, or will lie, in the file

    While the moov is staged in memory the bytes copied so far follow, in
    the order of emission, what the file holds up to [mOffset]: that is
    where [write] puts them when the reserved space overflows. *)
Definition staged (w : MPEG4Writer) : list Z :=
  if mWriteMoovBoxToMemory w then
    match mMoovBoxBuffer w with
    | Some buf => take (Z.to_nat (mMoovBoxBufferOffset w)) buf
    | None => []
    end
  else [].

Definition stream (w : MPEG4Writer) : list Z :=
  take (Z.to_nat (mOffset w)) (file_bytes w) ++ staged w.

(** The place in [stream] that a saved position of [mBoxes] stands for. *)
Definition abs_pos (w : MPEG4Writer) (p : Z) : Z :=
  if mWriteMoovBoxToMemory w then mOffset w + p else p.

(** How far the current target, buffer or file, has been written. *)
Definition extent (w : MPEG4Writer) : Z :=
  if mWriteMoovBoxToMemory w then mMoovBoxBufferOffset w else mOffset w.

(** The states in which boxes are emitted: the file is open and holds at
    least [mOffset] bytes; in file mode the stream stands at [mOffset]; in
    memory mode the buffer is allocated with room for
    [mEstimatedMoovBoxSize] bytes; saved positions lie in what was
    emitted. *)
Definition wf (w : MPEG4Writer) : Prop :=
  mFile w = true /\
  0 <= mOffset w <= zlen (file_bytes w) /\
  Forall (fun p => 0 <= p <= extent w) (mBoxes w) /\
  if mWriteMoovBoxToMemory w then
    exists buf, mMoovBoxBuffer w = Some buf /\
                mEstimatedMoovBoxSize w <= zlen buf /\
                0 <= mMoovBoxBufferOffset w <= zlen buf
  else file_pos w = mOffset w.

(** Overwriting [length new] elements of [l] from index [p] on. *)
Definition patch (p : nat) (new l : list Z) : list Z :=
  take p l ++ new ++ drop (p + length new) l.

(** ** Start codes, as the specification words them *)

(** The four bytes 00 00 00 01 stand at index [p] of [data]. *)
Definition start_code_at (data : list Z) (p : Z) : Prop :=
  0 <= p /\ take 4 (drop (Z.to_nat p) data) = [0; 0; 0; 1].

(** The avcC record of the specification for a sequence parameter set
    [sps] and a picture parameter set [pps]. *)
Definition avcC_record (sps pps : list Z) : list Z :=
  [0x01; 0x42; 0x80; 0x1E; Z.lor 0xFC 3; Z.lor 0xE0 1]
    ++ be16 (zlen sps) ++ sps ++ [0x01] ++ be16 (zlen pps) ++ pps.

(** ** The tables, as the specification words them *)

(** The samples the stts table accounts for. *)
Definition stts_samples (entries : list SttsTableEntry) : Z :=
  fold_right (fun e acc => sampleCount e + acc) 0 entries.

(** The samples the stsc table accounts for when the track has [chunks]
    chunks: an entry stands for the chunks from its [firstChunk] up to the
    chunk before the next entry's, the last entry up to the last chunk. *)
Fixpoint stsc_samples (entries : list StscTableEntry) (chunks : Z) : Z :=
  match entries with
  | [] => 0
  | e :: rest =>
      let next := match rest with
                  | [] => chunks + 1
                  | e' :: _ => firstChunk e'
                  end in
      samplesPerChunk e * (next - firstChunk e) + stsc_samples rest chunks
  end.

(** A track on which no producer has run yet. *)
Definition fresh_track (t : Track.state) : Prop :=
  Track.mSampleInfos t = [] /\
  Track.mChunkSamples t = [] /\
  Track.mChunkOffsets t = [] /\
  Track.mStscTableEntries t = [] /\
  Track.mSttsTableEntries t = [] /\
  Track.mSamplesHaveSameSize t = true.

(** Two track states with the same sample tables. *)
Definition tables_eq (t t' : Track.state) : Prop :=
  Track.mSampleInfos t' = Track.mSampleInfos t /\
  Track.mChunkSamples t' = Track.mChunkSamples t /\
  Track.mChunkOffsets t' = Track.mChunkOffsets t /\
  Track.mStscTableEntries t' = Track.mStscTableEntries t /\
  Track.mSttsTableEntries t' = Track.mSttsTableEntries t /\
  Track.mSamplesHaveSameSize t' = Track.mSamplesHaveSameSize t /\
  Track.mMeta t' = Track.mMeta t.

(** What the loop keeps true of the stts bookkeeping. *)
Definition stts_inv (l : Locals.t) (t : Track.state) : Prop :=
  let n := zlen (Track.mSampleInfos t) in
  n < 2 ^ 32 ->
  1 <= Locals.sampleCount l /\
  0 <= stts_samples (Track.mSttsTableEntries t) /\
  (n <= 1 -> Track.mSttsTableEntries t = [] /\ Locals.sampleCount l = 1) /\
  (2 <= n -> stts_samples (Track.mSttsTableEntries t) + Locals.sampleCount l = n - 1).

(** What the loop keeps true of the chunk bookkeeping: [nChunks] counts
    the chunks flushed, each with its offset in [mChunkOffsets], and the
    stsc table accounts for the samples of the flushed chunks. *)
Definition chunk_core (l : Locals.t) (t : Track.state) : Prop :=
  let n := zlen (Track.mSampleInfos t) in
  let pending := zlen (Track.mChunkSamples t) in
  n < 2 ^ 32 ->
  Locals.nChunks l = zlen (Track.mChunkOffsets t) /\
  Locals.nChunks l <= n - pending /\
  stsc_samples (Track.mStscTableEntries t) (Locals.nChunks l) = n - pending /\
  (1 <= Locals.nChunks l -> Track.mStscTableEntries t <> []).

Definition chunk_inv (interleaveDurationUs : Z) (l : Locals.t) (t : Track.state)
  : Prop :=
  chunk_core l t /\
  (interleaveDurationUs = 0 -> Track.mChunkSamples t = []).

(** Every recorded sample carries the rounded time of a buffer of [reads]. *)
Definition rounded_from (reads : list MediaBuffer) (info : SampleInfo) : Prop :=
  exists buffer timestampUs,
    In buffer reads /\
    kKeyTime (meta_data buffer) = Some timestampUs /\
    timestamp info = Z.quot (timestampUs + 500) 1000.

(** What the loop keeps true while no sample has been accepted. *)
Definition untouched (t : Track.state) : Prop :=
  Track.mSampleInfos t = [] ->
  Track.mChunkSamples t = [] /\
  Track.mChunkOffsets t = [] /\
  Track.mStscTableEntries t = [] /\
  Track.mSttsTableEntries t = [] /\
  Track.mSamplesHaveSameSize t = true.

Definition loop_inv (interleaveDurationUs : Z) (reads : list MediaBuffer)
    (st : loop_state) : Prop :=
  let '(l, t, w) := st in
  stts_inv l t /\ chunk_inv interleaveDurationUs l t /\
  Forall (rounded_from reads) (Track.mSampleInfos t) /\
  untouched t /\
  (Track.mSampleInfos t = [] -> Locals.sampleCount l = 1 /\ Locals.nChunks l = 0).

(** A sequence of [setStartTimestamp] calls. *)
Definition setStartTimestamp_calls (timesUs : list Z) (w : MPEG4Writer)
  : MPEG4Writer :=
  fold_left (fun w timeUs => setStartTimestamp timeUs w) timesUs w.

(** ** Writers and tracks to compute with *)

(** [MPEG4Writer::MPEG4Writer] on a file that could be opened; the members
    the constructor leaves unset are given the values [start] stores. *)
Definition MPEG4Writer_new (tracks : list Track.state) : MPEG4Writer :=
  {| mFile := true; file_bytes := []; file_pos := 0; mOffset := 0;
     mMdatOffset := 0; mFreeBoxOffset := 0; mEstimatedMoovBoxSize := 0;
     mInterleaveDurationUs := 500000; mMaxFileSizeLimitBytes := 0;
     mMaxFileDurationLimitUs := 0; mStartTimestampUs := 0;
     mStreamableFile := true; mWriteMoovBoxToMemory := false;
     mMoovBoxBuffer := None; mMoovBoxBufferOffset := 0; mBoxes := [];
     mTracks := tracks; notified := [] |}.

Definition format_of (mime : string) : MetaData :=
  {| kKeyMIMEType := Some mime; kKeyWidth := Some 176; kKeyHeight := Some 144;
     kKeyChannelCount := Some 1; kKeySampleRate := Some 8000;
     kKeyIsCodecConfig := None; kKeyIsSyncFrame := None; kKeyTime := None |}.

Definition sample_at (timeUs : Z) (payload : list Z) : MediaBuffer :=
  {| range := payload;
     meta_data := {| kKeyMIMEType := None; kKeyWidth := None; kKeyHeight := None;
                     kKeyChannelCount := None; kKeySampleRate := None;
                     kKeyIsCodecConfig := None; kKeyIsSyncFrame := None;
                     kKeyTime := Some timeUs |} |}.

(** A writer in the middle of [stop]: the mdat ends at offset 40, the moov
    is staged in a buffer of 24 bytes. *)
Definition staging_writer : MPEG4Writer :=
  {| mFile := true; file_bytes := replicate 40 7; file_pos := 40; mOffset := 40;
     mMdatOffset := 28; mFreeBoxOffset := 4; mEstimatedMoovBoxSize := 24;
     mInterleaveDurationUs := 500000; mMaxFileSizeLimitBytes := 0;
     mMaxFileDurationLimitUs := 0; mStartTimestampUs := 0;
     mStreamableFile := true; mWriteMoovBoxToMemory := true;
     mMoovBoxBuffer := Some (replicate 24 0); mMoovBoxBufferOffset := 0;
     mBoxes := []; mTracks := []; notified := [] |}.

(** moov { mvhd { 1 2 3 4 } 5 6 } followed by free { }: 30 bytes, more
    than the buffer of [staging_writer] takes. *)
Definition nested_boxes : emission :=
  Box "moov" (Box "mvhd" (Bytes [1; 2; 3; 4] Done) (Bytes [5; 6] Done))
      (Box "free" Done Done).

(** A writer in file mode with the box opened at offset 4 still open. *)
Definition file_mode_writer : MPEG4Writer :=
  {| mFile := true; file_bytes := [9; 9; 9; 9; 0; 0; 0; 0; 102; 116; 121; 112; 1; 2];
     file_pos := 14; mOffset := 14;
     mMdatOffset := 0; mFreeBoxOffset := 0; mEstimatedMoovBoxSize := 0;
     mInterleaveDurationUs := 500000; mMaxFileSizeLimitBytes := 0;
     mMaxFileDurationLimitUs := 0; mStartTimestampUs := 0;
     mStreamableFile := true; mWriteMoovBoxToMemory := false;
     mMoovBoxBuffer := None; mMoovBoxBufferOffset := 0;
     mBoxes := [4]; mTracks := []; notified := [] |}.

(** An AMR track, and a writer that holds it and was started. *)
Definition amr_track : Track.state :=
  Track.new (format_of MEDIA_MIMETYPE_AUDIO_AMR_NB) OK.

Definition started_writer : MPEG4Writer :=
  match start (MPEG4Writer_new [amr_track]) with
  | Ok (_, w) => w
  | _ => MPEG4Writer_new [amr_track]
  end.

(** Five samples 20 ms apart and a sixth one second later. *)
Definition six_samples : list MediaBuffer :=
  [sample_at 0 [1; 2; 3]; sample_at 20000 [4; 5; 6]; sample_at 40000 [7; 8];
   sample_at 60000 [9]; sample_at 80499 [10; 11]; sample_at 1080500 [12]].

(** What [thread_body] leaves, or the state it was given when it does not
    return. *)
Definition outcome_of (r : result loop_state) (otherwise : loop_state) : loop_state :=
  match r with
  | Ok st => st
  | _ => otherwise
  end.

Definition after_six_samples : loop_state :=
  outcome_of (thread_body MEDIA_MIMETYPE_AUDIO_AMR_NB 0 amr_track started_writer
                six_samples)
             (Locals.init, amr_track, started_writer).

Definition after_no_sample : loop_state :=
  outcome_of (thread_body MEDIA_MIMETYPE_AUDIO_AMR_NB 0 amr_track started_writer [])
             (Locals.init, amr_track, started_writer).

(** The writer once the producer of its track has consumed
    [six_samples]. *)
Definition recorded_writer : MPEG4Writer :=
  match threadEntry 0 amr_track started_writer six_samples with
  | Ok (_, w) => w
  | _ => started_writer
  end.

Definition stopped_writer : MPEG4Writer :=
  match stop 1000 (fun _ => 1000) recorded_writer with
  | Ok w => w
  | _ => recorded_writer
  end.

(** SPS 67 42 and PPS 68 ce, each behind a start code. *)
Definition sps_pps : list Z := [0; 0; 0; 1; 0x67; 0x42; 0; 0; 0; 1; 0x68; 0xce].

(** Two AMR tracks in one writer; the second source delivers its first
    sample 200 ms after the first one. *)
Definition two_track_writer : MPEG4Writer :=
  match start (MPEG4Writer_new [amr_track; amr_track]) with
  | Ok (_, w) => w
  | _ => MPEG4Writer_new [amr_track; amr_track]
  end.

Definition late_samples : list MediaBuffer :=
  [sample_at 200000 [5; 6]; sample_at 220000 [7; 8]].

(** The writer after both producers have run, the first on two samples
    that begin at [first_timeUs], the second on [late_samples]. *)
Definition both_tracks_recorded (first_timeUs : Z) : MPEG4Writer :=
  let w1 := match threadEntry 0 amr_track two_track_writer
                    [sample_at first_timeUs [1; 2];
                     sample_at (first_timeUs + 20000) [3; 4]] with
            | Ok (_, w) => w
            | _ => two_track_writer
            end in
  match threadEntry 1 amr_track w1 late_samples with
  | Ok (_, w) => w
  | _ => w1
  end.

(** * Proofs *)

(** ** Lists of bytes *)

Lemma zlen_app {A : Type} (a b : list A) : zlen (a ++ b) = zlen a + zlen b.
Proof. unfold zlen. rewrite length_app. lia. Qed.

Lemma zlen_nonneg {A : Type} (a : list A) : 0 <= zlen a.
Proof. unfold zlen. lia. Qed.

Lemma zlen_be32 x : zlen (be32 x) = 4.
Proof. reflexivity. Qed.

Lemma u8_range x : 0 <= u8 x < 256.
Proof. unfold u8. apply Z.mod_pos_bound. lia. Qed.

Lemma read_be_be32 x : 0 <= x < 2 ^ 32 -> read_be (be32 x) = x.
Proof.
  intros Hx. unfold read_be, be32, u8. simpl.
  rewrite !Z.shiftr_div_pow2 by lia.
  change (2 ^ 24) with 16777216. change (2 ^ 16) with 65536.
  change (2 ^ 8) with 256. change (2 ^ 32) with 4294967296 in Hx.
  pose proof (Z.div_mod x 16777216 ltac:(lia)).
  pose proof (Z.mod_pos_bound x 16777216 ltac:(lia)).
  assert (0 <= x / 16777216 < 256)
    by (split; [apply Z.div_pos; lia | apply Z.div_lt_upper_bound; lia]).
  rewrite (Z.mod_small (x / 16777216) 256) by lia.
  replace ((x / 65536) mod 256) with ((x mod 16777216) / 65536).
  2:{ replace 16777216 with (65536 * 256) by lia.
      rewrite Z.rem_mul_r by lia.
      rewrite Z.mul_comm, Z.div_add by lia.
      rewrite Z.div_small by (apply Z.mod_pos_bound; lia). lia. }
  replace ((x / 256) mod 256) with ((x mod 65536) / 256).
  2:{ replace 65536 with (256 * 256) by lia.
      rewrite Z.rem_mul_r by lia.
      rewrite Z.mul_comm, Z.div_add by lia.
      rewrite Z.div_small by (apply Z.mod_pos_bound; lia). lia. }
  replace (x mod 256) with ((x mod 65536) mod 256).
  2:{ replace 65536 with (256 * 256) by lia.
      rewrite Z.rem_mul_r by lia.
      rewrite Z.mul_comm, Z.mod_add by lia. apply Z.mod_mod. lia. }
  replace (x mod 65536) with ((x mod 16777216) mod 65536).
  2:{ replace 16777216 with (65536 * 256) by lia.
      rewrite Z.rem_mul_r by lia.
      rewrite Z.mul_comm, Z.mod_add by lia. apply Z.mod_mod. lia. }
  pose proof (Z.div_mod (x mod 16777216) 65536 ltac:(lia)).
  pose proof (Z.div_mod ((x mod 16777216) mod 65536) 256 ltac:(lia)).
  lia.
Qed.

(** ** Writing into the file *)

Lemma pwrite_within pos bs f :
  0 <= pos -> pos + zlen bs <= zlen f ->
  pwrite pos bs f
  = take (Z.to_nat pos) f ++ bs ++ drop (Z.to_nat pos + length bs) f.
Proof.
  unfold pwrite, zlen. intros Hp Hl.
  replace (Z.to_nat pos - length f)%nat with 0%nat by lia. reflexivity.
Qed.

Lemma pwrite_length_within pos bs f :
  0 <= pos -> pos + zlen bs <= zlen f -> length (pwrite pos bs f) = length f.
Proof.
  intros Hp Hl. rewrite pwrite_within by assumption. unfold zlen in *.
  rewrite !length_app, length_take, length_drop. lia.
Qed.

Lemma pwrite_lookup_outside pos bs f (i : nat) :
  0 <= pos -> pos + zlen bs <= zlen f ->
  ~ (pos <= Z.of_nat i < pos + zlen bs) ->
  pwrite pos bs f !! i = f !! i.
Proof.
  intros Hp Hl Hi. rewrite pwrite_within by assumption. unfold zlen in *.
  destruct (decide (Z.of_nat i < pos)) as [Hlt | Hge].
  - rewrite lookup_app_l by (rewrite length_take; lia).
    apply lookup_take_lt. lia.
  - rewrite lookup_app_r by (rewrite length_take; lia).
    rewrite length_take.
    rewrite lookup_app_r by lia.
    rewrite lookup_drop. f_equal. lia.
Qed.

Lemma pwrite_read_back pos bs f :
  0 <= pos -> pos + zlen bs <= zlen f ->
  take (length bs) (drop (Z.to_nat pos) (pwrite pos bs f)) = bs.
Proof.
  intros Hp Hl. rewrite pwrite_within by assumption. unfold zlen in *.
  rewrite drop_app_length' by (rewrite length_take; lia).
  apply take_app_length.
Qed.

(** Appending at [pos], inside or at the end of the file. *)
Lemma pwrite_take pos bs f :
  0 <= pos <= zlen f ->
  take (Z.to_nat (pos + zlen bs)) (pwrite pos bs f) = take (Z.to_nat pos) f ++ bs.
Proof.
  unfold pwrite, zlen. intros Hp.
  replace (Z.to_nat pos - length f)%nat with 0%nat by lia. simpl.
  rewrite app_assoc.
  apply take_app_length'. rewrite length_app, length_take. lia.
Qed.

Lemma pwrite_zlen pos bs f :
  0 <= pos <= zlen f -> pos + zlen bs <= zlen (pwrite pos bs f).
Proof.
  unfold pwrite, zlen. intros Hp.
  rewrite !length_app, length_take, length_replicate, length_drop. lia.
Qed.

(** ** Closing a box in file mode *)

Lemma fseeko_nonneg pos w : 0 <= pos -> fseeko pos w = set_file_pos pos w.
Proof. unfold fseeko. intros H. destruct (Z.ltb_spec pos 0); [lia | reflexivity]. Qed.

Ltac case_seek :=
  unfold fseeko;
  repeat match goal with
         | |- context [if ?c <? 0 then _ else _] => destruct (c <? 0)
         end.

Lemma removelast_snoc {A : Type} (l : list A) (x : A) : removelast (l ++ [x]) = l.
Proof. apply removelast_last. Qed.

(** C10. [endBox] in file mode, on a writer whose file is open and whose
    innermost open box was saved at [top]: the call returns, pops that
    position and leaves [mOffset] as it was.  When the four bytes at [top]
    lie in the file, they are the only bytes of the file that change: they
    become the big-endian [mOffset - top], the length of the file is kept,
    and the stream is moved back to [mOffset]. *)
Theorem endBox_file_mode_offset_unchanged w boxes top :
  mFile w = true ->
  mWriteMoovBoxToMemory w = false ->
  mBoxes w = boxes ++ [top] ->
  exists w',
    endBox w = Ok w' /\
    mOffset w' = mOffset w /\
    mBoxes w' = boxes /\
    mWriteMoovBoxToMemory w' = false /\
    (0 <= top -> top + 4 <= zlen (file_bytes w) -> 0 <= mOffset w ->
       length (file_bytes w') = length (file_bytes w) /\
       (forall i : nat, ~ (top <= Z.of_nat i < top + 4) ->
          file_bytes w' !! i = file_bytes w !! i) /\
       take 4 (drop (Z.to_nat top) (file_bytes w')) = be32 (mOffset w - top) /\
       file_pos w' = mOffset w).
Proof.
  intros Hfile Hmode Hboxes.
  unfold endBox. rewrite Hboxes, last_snoc, removelast_snoc. simpl.
  rewrite Hmode.
  unfold writeInt32, write.
  assert (Hm : mWriteMoovBoxToMemory (fseeko top (set_mBoxes boxes w)) = false).
  { unfold fseeko. destruct (top <? 0); simpl; assumption. }
  rewrite Hm. unfold fwrite.
  assert (Hf : mFile (fseeko top (set_mBoxes boxes w)) = true).
  { unfold fseeko. destruct (top <? 0); simpl; assumption. }
  rewrite Hf. simpl.
  assert (Ho : mOffset (fseeko top (set_mBoxes boxes w)) = mOffset w).
  { unfold fseeko. destruct (top <? 0); reflexivity. }
  rewrite Ho.
  eexists. split; [reflexivity |].
  assert (Hback : mOffset w + zlen (be32 (mOffset w - top)) - 4 = mOffset w)
    by (rewrite zlen_be32; lia).
  split.
  { rewrite Hback. case_seek; reflexivity. }
  split.
  { case_seek; reflexivity. }
  split.
  { case_seek; simpl; assumption. }
  intros Htop Hin Hoff.
  rewrite Hback, (fseeko_nonneg (mOffset w)) by assumption. simpl.
  rewrite (fseeko_nonneg top) by assumption. simpl.
  assert (Hin' : top + zlen (be32 (mOffset w - top)) <= zlen (file_bytes w))
    by (rewrite zlen_be32; lia).
  split; [apply pwrite_length_within; assumption |].
  split.
  { intros i Hi. apply pwrite_lookup_outside; assumption. }
  split; [| reflexivity].
  apply (pwrite_read_back top (be32 (mOffset w - top))); assumption.
Qed.

(** ** Patching a list in place *)

Lemma patch_exact pre old new rest :
  length old = length new ->
  patch (length pre) new (pre ++ old ++ rest) = pre ++ new ++ rest.
Proof.
  intros Hl. unfold patch.
  rewrite take_app_length.
  rewrite drop_app_add, <- Hl, drop_app_length. reflexivity.
Qed.

Lemma patch_app a p new l :
  patch (length a + p) new (a ++ l) = a ++ patch p new l.
Proof.
  unfold patch.
  rewrite take_app_add, <- Nat.add_assoc, drop_app_add, <- !app_assoc. reflexivity.
Qed.

Lemma patch_app_l p new a b :
  (p + length new <= length a)%nat ->
  patch p new (a ++ b) = patch p new a ++ b.
Proof.
  intros H. unfold patch.
  rewrite take_app_le by lia. rewrite drop_app_le by lia.
  rewrite <- !app_assoc. reflexivity.
Qed.

Lemma length_patch p new l :
  (p + length new <= length l)%nat -> length (patch p new l) = length l.
Proof.
  intros H. unfold patch. rewrite !length_app, length_take, length_drop. lia.
Qed.

Lemma take_patch n p new l :
  (p + length new <= n)%nat -> (n <= length l)%nat ->
  take n (patch p new l) = patch p new (take n l).
Proof.
  intros H1 H2.
  rewrite <- (take_drop n l) at 1.
  rewrite patch_app_l by (rewrite length_take; lia).
  apply take_app_length'.
  rewrite length_patch by (rewrite length_take; lia).
  rewrite length_take. lia.
Qed.

Lemma pwrite_patch pos bs f :
  0 <= pos -> pos + zlen bs <= zlen f ->
  pwrite pos bs f = patch (Z.to_nat pos) bs f.
Proof. apply pwrite_within. Qed.

(** ** The emission primitives on well-formed writers *)

Lemma zlen_take_le (n : Z) (l : list Z) :
  0 <= n <= zlen l -> zlen (take (Z.to_nat n) l) = n.
Proof. unfold zlen. intros H. rewrite length_take. lia. Qed.

Lemma stream_zlen w : wf w -> zlen (stream w) = abs_pos w (extent w).
Proof.
  intros (_ & Hoff & _ & Hmode).
  unfold stream, staged, abs_pos, extent. rewrite zlen_app.
  rewrite zlen_take_le by assumption.
  destruct (mWriteMoovBoxToMemory w).
  - destruct Hmode as (buf & -> & _ & Hb). rewrite zlen_take_le by assumption.
    reflexivity.
  - unfold zlen. simpl. lia.
Qed.

Lemma write_spec ptr w :
  wf w ->
  exists w',
    write ptr w = Ok w' /\ wf w' /\
    stream w' = stream w ++ ptr /\
    map (abs_pos w') (mBoxes w') = map (abs_pos w) (mBoxes w).
Proof.
  intros (Hfile & Hoff & Hboxes & Hmode).
  unfold write.
  destruct (mWriteMoovBoxToMemory w) eqn:Emem.
  - destruct Hmode as (buf & Ebuf & Hest & Hb).
    destruct (Z.gtb_spec (8 + mMoovBoxBufferOffset w + zlen ptr)
                (mEstimatedMoovBoxSize w)) as [Hover | Hfits].
    + (* the reserved space overflows: the staged bytes go to the file *)
      simpl. rewrite (fseeko_nonneg (mOffset w)) by lia.
      unfold moov_prefix. simpl. rewrite Ebuf.
      replace ((0 <=? mMoovBoxBufferOffset w)
               && (mMoovBoxBufferOffset w <=? zlen buf)) with true
        by (symmetry; apply andb_true_iff; split; apply Z.leb_le; lia).
      unfold fwrite. simpl. rewrite Hfile. simpl. rewrite Hfile. simpl.
      set (pre := take (Z.to_nat (mMoovBoxBufferOffset w)) buf).
      assert (Hpre : zlen pre = mMoovBoxBufferOffset w)
        by (apply zlen_take_le; assumption).
      eexists. split; [reflexivity |].
      pose proof (pwrite_zlen (mOffset w) pre (file_bytes w) Hoff) as Hz1.
      pose proof (pwrite_take (mOffset w) pre (file_bytes w) Hoff) as Ht1.
      assert (Hp2 : 0 <= mOffset w + zlen pre
                    <= zlen (pwrite (mOffset w) pre (file_bytes w)))
        by (pose proof (zlen_nonneg pre); lia).
      pose proof (pwrite_zlen _ ptr _ Hp2) as Hz2.
      pose proof (pwrite_take _ ptr _ Hp2) as Ht2.
      split; [| split].
      * unfold wf. simpl. split; [assumption |]. split.
        { pose proof (zlen_nonneg ptr). lia. }
        split; [| lia].
        unfold extent. simpl. rewrite Forall_map.
        eapply Forall_impl; [exact Hboxes |]. simpl. intros p.
        unfold extent. rewrite Emem. pose proof (zlen_nonneg ptr). lia.
      * unfold stream, staged. simpl. rewrite Emem, Ebuf. fold pre.
        rewrite app_nil_r.
        replace (mOffset w + (zlen ptr + mMoovBoxBufferOffset w))
          with (mOffset w + zlen pre + zlen ptr) by lia.
        rewrite Ht2, Ht1, <- app_assoc. reflexivity.
      * simpl. rewrite map_map. apply map_ext. intros p.
        unfold abs_pos. simpl. rewrite Emem. lia.
    + (* the bytes fit: they are copied into the buffer *)
      rewrite Ebuf. unfold memcpy_to.
      replace ((0 <=? mMoovBoxBufferOffset w)
               && (mMoovBoxBufferOffset w + zlen ptr <=? zlen buf)) with true
        by (symmetry; apply andb_true_iff; split; apply Z.leb_le; lia).
      simpl. eexists. split; [reflexivity |].
      set (buf' := take _ buf ++ ptr ++ drop _ buf).
      assert (Hlen : zlen buf' = zlen buf).
      { subst buf'. unfold zlen in *.
        rewrite !length_app, length_take, length_drop. lia. }
      split; [| split].
      * unfold wf. simpl. rewrite Emem. split; [assumption |].
        split; [assumption |]. split.
        { eapply Forall_impl; [exact Hboxes |]. simpl. intros p.
          unfold extent. simpl. rewrite Emem. pose proof (zlen_nonneg ptr). lia. }
        exists buf'. split; [reflexivity |].
        pose proof (zlen_nonneg ptr). lia.
      * unfold stream, staged. simpl. rewrite Emem, Ebuf.
        rewrite <- app_assoc. f_equal. subst buf'.
        rewrite app_assoc. apply take_app_length'.
        unfold zlen in *. rewrite length_app, length_take. lia.
      * apply map_ext. intros p. unfold abs_pos. simpl. rewrite Emem. reflexivity.
  - (* file mode *)
    unfold fwrite. rewrite Hfile. simpl.
    eexists. split; [reflexivity |].
    assert (Hpos : 0 <= file_pos w <= zlen (file_bytes w)) by lia.
    pose proof (pwrite_zlen _ ptr _ Hpos) as Hz.
    pose proof (pwrite_take _ ptr _ Hpos) as Ht.
    split; [| split].
    + unfold wf. simpl. rewrite Emem. split; [assumption |].
      split; [pose proof (zlen_nonneg ptr); lia |].
      split; [| lia].
      eapply Forall_impl; [exact Hboxes |]. simpl. intros p.
      unfold extent. simpl. rewrite Emem. pose proof (zlen_nonneg ptr). lia.
    + unfold stream, staged. simpl. rewrite Emem, !app_nil_r.
      rewrite <- Hmode, Ht. reflexivity.
    + apply map_ext. intros p. unfold abs_pos. simpl. rewrite Emem. reflexivity.
Qed.

Lemma strlen_le s : 0 <= strlen s <= zlen (bytes_of_string s).
Proof.
  induction s as [| c s IH]; simpl.
  - unfold zlen. simpl. lia.
  - unfold zlen in *. simpl. destruct (byte_of_ascii c =? 0); lia.
Qed.

Lemma zlen_cstr_bytes s n :
  0 <= n <= strlen s + 1 -> zlen (cstr_bytes s n) = n.
Proof.
  intros H. unfold cstr_bytes. pose proof (strlen_le s) as Hs.
  unfold zlen in *. rewrite length_take, length_app. simpl. lia.
Qed.

Lemma wf_extent_nonneg w : wf w -> 0 <= extent w.
Proof.
  intros (_ & Hoff & _ & Hmode). unfold extent.
  destruct (mWriteMoovBoxToMemory w); [| lia].
  destruct Hmode as (buf & _ & _ & Hb). lia.
Qed.

Lemma beginBox_spec fourcc w :
  wf w -> strlen fourcc = 4 ->
  exists w',
    beginBox fourcc w = Ok w' /\ wf w' /\
    stream w' = stream w ++ be32 0 ++ cstr_bytes fourcc 4 /\
    map (abs_pos w') (mBoxes w') = map (abs_pos w) (mBoxes w) ++ [zlen (stream w)].
Proof.
  intros Hwf Hlen.
  unfold beginBox, writeFourcc, writeInt32. rewrite Hlen. simpl.
  set (w1 := set_mBoxes _ w).
  assert (Hwf1 : wf w1).
  { pose proof (wf_extent_nonneg w Hwf) as Hext.
    destruct Hwf as (Hfile & Hoff & Hboxes & Hmode).
    unfold wf. subst w1. simpl. split; [assumption |]. split; [assumption |].
    split; [| assumption].
    apply Forall_app. split; [assumption |].
    apply Forall_singleton. unfold extent in *. simpl. lia. }
  destruct (write_spec (be32 0) w1 Hwf1) as (w2 & E2 & Hwf2 & Hs2 & Hb2).
  rewrite E2. simpl.
  destruct (write_spec (cstr_bytes fourcc 4) w2 Hwf2) as (w3 & E3 & Hwf3 & Hs3 & Hb3).
  exists w3. split; [assumption |]. split; [assumption |]. split.
  - rewrite Hs3, Hs2, <- app_assoc. reflexivity.
  - rewrite Hb3, Hb2. subst w1. simpl. rewrite map_app. simpl.
    rewrite (stream_zlen w Hwf). reflexivity.
Qed.

Lemma endBox_spec w boxes p pre old rest :
  wf w ->
  mBoxes w = boxes ++ [p] ->
  stream w = pre ++ old ++ rest ->
  zlen pre = abs_pos w p ->
  length old = 4%nat ->
  exists w',
    endBox w = Ok w' /\ wf w' /\
    stream w' = pre ++ be32 (4 + zlen rest) ++ rest /\
    mBoxes w' = boxes /\
    mWriteMoovBoxToMemory w' = mWriteMoovBoxToMemory w /\
    mOffset w' = mOffset w.
Proof.
  intros Hwf Hstack Hstream Hpre Hold.
  pose proof (stream_zlen w Hwf) as Hz.
  rewrite Hstream, !zlen_app, Hpre in Hz.
  assert (Hold' : zlen old = 4) by (unfold zlen; lia).
  destruct Hwf as (Hfile & Hoff & Hboxes & Hmode).
  rewrite Hstack in Hboxes. apply Forall_app in Hboxes as [Hboxes Hp].
  apply Forall_inv in Hp.
  pose proof (zlen_nonneg rest) as Hrest.
  assert (Hext : extent w = p + 4 + zlen rest)
    by (unfold abs_pos in Hz; destruct (mWriteMoovBoxToMemory w); lia).
  unfold endBox. rewrite Hstack, last_snoc, removelast_snoc. simpl.
  unfold stream, staged in Hstream.
  destruct (mWriteMoovBoxToMemory w) eqn:Emem.
  - destruct Hmode as (buf & Ebuf & Hest & Hb).
    unfold extent in Hext, Hp. rewrite Emem in Hext, Hp.
    rewrite Ebuf in *.
    set (new := be32 (mMoovBoxBufferOffset w - p)).
    assert (Hnew : length new = 4%nat) by reflexivity.
    assert (Hm : memcpy_to p new buf = Ok (patch (Z.to_nat p) new buf)).
    { unfold memcpy_to, patch.
      replace ((0 <=? p) && (p + zlen new <=? zlen buf)) with true; [reflexivity |].
      symmetry. apply andb_true_iff. unfold zlen in *. rewrite Hnew.
      split; apply Z.leb_le; lia. }
    rewrite Hm. simpl. eexists. split; [reflexivity |].
    split; [| split; [| split; [| split]]]; try reflexivity; try exact Emem.
    + unfold wf. simpl. rewrite Emem. split; [assumption |].
      split; [assumption |]. split.
      { eapply Forall_impl; [exact Hboxes |]. simpl. intros q.
        unfold extent. simpl. rewrite Emem. tauto. }
      exists (patch (Z.to_nat p) new buf). split; [reflexivity |].
      unfold zlen in *.
      rewrite length_patch by (rewrite Hnew; lia). lia.
    + unfold stream, staged. simpl. rewrite Emem.
      rewrite take_patch by (unfold zlen in *; rewrite ?Hnew; lia).
      set (F := take (Z.to_nat (mOffset w)) (file_bytes w)) in *.
      assert (HF : length F = Z.to_nat (mOffset w))
        by (subst F; unfold zlen in *; rewrite length_take; lia).
      replace (Z.to_nat p) with (length pre - length F)%nat
        by (unfold abs_pos in Hpre; rewrite Emem in Hpre; unfold zlen in *; lia).
      assert (Hle : (length F <= length pre)%nat)
        by (unfold abs_pos in Hpre; rewrite Emem in Hpre; unfold zlen in *; lia).
      rewrite <- (patch_app F).
      replace (length F + (length pre - length F))%nat with (length pre) by lia.
      rewrite Hstream. subst new.
      replace (mMoovBoxBufferOffset w - p) with (4 + zlen rest) by lia.
      apply patch_exact. assumption.
  - unfold extent in Hext, Hp. rewrite Emem in Hext, Hp.
    rewrite app_nil_r in Hstream.
    rewrite (fseeko_nonneg p) by lia.
    unfold writeInt32, write. simpl. rewrite Emem.
    unfold fwrite. simpl. rewrite Hfile. simpl.
    replace (mOffset w + zlen (be32 (mOffset w - p)) - 4) with (mOffset w)
      by (rewrite zlen_be32; lia).
    rewrite (fseeko_nonneg (mOffset w)) by lia.
    eexists. split; [reflexivity |]. simpl.
    set (new := be32 (mOffset w - p)).
    assert (Hnew : length new = 4%nat) by reflexivity.
    assert (Hin : p + zlen new <= zlen (file_bytes w))
      by (unfold zlen in *; rewrite Hnew; lia).
    rewrite pwrite_patch by (assumption || lia).
    split; [| split; [| split; [| split]]]; try reflexivity; try exact Emem.
    + unfold wf. simpl. rewrite Emem. split; [assumption |]. split.
      { unfold zlen in *. rewrite length_patch by (rewrite Hnew; lia). lia. }
      split; [| reflexivity].
      eapply Forall_impl; [exact Hboxes |]. simpl. intros q.
      unfold extent. simpl. rewrite Emem. tauto.
    + unfold stream, staged. simpl. rewrite Emem, app_nil_r.
      rewrite take_patch by (unfold zlen in *; rewrite ?Hnew; lia).
      rewrite Hstream.
      replace (Z.to_nat p) with (length pre)
        by (unfold abs_pos in Hpre; rewrite Emem in Hpre; unfold zlen in *; lia).
      subst new. replace (mOffset w - p) with (4 + zlen rest) by lia.
      apply patch_exact. assumption.
Qed.

(** ** Well-bracketed emissions *)

Lemma zlen_box_bytes e : fourcc_ok e = true -> zlen (box_bytes e) = emitted_size e.
Proof.
  induction e as [| ptr rest IH | fourcc body IHb rest IHr];
    cbn [box_bytes emitted_size fourcc_ok]; intros Hok.
  - reflexivity.
  - rewrite zlen_app, IH by assumption. reflexivity.
  - apply andb_true_iff in Hok as [Hok Hr].
    apply andb_true_iff in Hok as [Hf Hb]. apply Z.eqb_eq in Hf.
    rewrite !zlen_app, zlen_be32, zlen_cstr_bytes, IHb, IHr by (assumption || lia).
    lia.
Qed.

Lemma map_eq_snoc {A B : Type} (f : A -> B) (l : list A) (M : list B) (z : B) :
  map f l = M ++ [z] ->
  exists b p, l = b ++ [p] /\ map f b = M /\ f p = z.
Proof.
  revert M. induction l as [| x l IH]; intros M H.
  - destruct M; discriminate.
  - destruct M as [| y M]; simpl in H.
    + injection H as Hx Hl. destruct l; [| discriminate].
      exists [], x. auto.
    + injection H as Hx Hl. destruct (IH M Hl) as (b & p & -> & Hb & Hp).
      exists (x :: b), p. simpl. rewrite Hb, Hx. auto.
Qed.

Lemma emit_spec e :
  forall w, wf w -> fourcc_ok e = true ->
  exists w',
    emit e w = Ok w' /\ wf w' /\
    stream w' = stream w ++ box_bytes e /\
    map (abs_pos w') (mBoxes w') = map (abs_pos w) (mBoxes w).
Proof.
  induction e as [| ptr rest IH | fourcc body IHb rest IHr]; intros w Hwf Hok.
  - exists w. simpl. rewrite app_nil_r. auto.
  - simpl in Hok. cbn [emit box_bytes]. unfold andThen.
    destruct (write_spec ptr w Hwf) as (w1 & E1 & Hwf1 & Hs1 & Hb1).
    rewrite E1. simpl.
    destruct (IH w1 Hwf1 Hok) as (w2 & E2 & Hwf2 & Hs2 & Hb2).
    exists w2. split; [assumption |]. split; [assumption |]. split.
    + rewrite Hs2, Hs1, <- app_assoc. reflexivity.
    + congruence.
  - simpl in Hok.
    apply andb_true_iff in Hok as [Hok Hr].
    apply andb_true_iff in Hok as [Hf Hbody]. apply Z.eqb_eq in Hf.
    cbn [emit box_bytes]. unfold andThen.
    destruct (beginBox_spec fourcc w Hwf Hf) as (w1 & E1 & Hwf1 & Hs1 & Hb1).
    rewrite E1. simpl.
    destruct (IHb w1 Hwf1 Hbody) as (w2 & E2 & Hwf2 & Hs2 & Hb2).
    rewrite E2. simpl.
    rewrite Hb1 in Hb2.
    destruct (map_eq_snoc _ _ _ _ Hb2) as (boxes & p & Hstack & Hboxes & Hp).
    assert (Hstream : stream w2
                      = stream w ++ be32 0 ++ (cstr_bytes fourcc 4 ++ box_bytes body)).
    { rewrite Hs2, Hs1, <- !app_assoc. reflexivity. }
    destruct (endBox_spec w2 boxes p (stream w) (be32 0)
                (cstr_bytes fourcc 4 ++ box_bytes body) Hwf2 Hstack Hstream
                (eq_sym Hp) eq_refl)
      as (w3 & E3 & Hwf3 & Hs3 & Hb3 & Hm3 & Ho3).
    rewrite E3. simpl.
    destruct (IHr w3 Hwf3 Hr) as (w4 & E4 & Hwf4 & Hs4 & Hb4).
    exists w4. split; [assumption |]. split; [assumption |]. split.
    + rewrite Hs4, Hs3.
      rewrite zlen_app, zlen_cstr_bytes, zlen_box_bytes by (assumption || lia).
      replace (4 + (4 + emitted_size body)) with (8 + emitted_size body) by lia.
      rewrite <- !app_assoc. reflexivity.
    + rewrite Hb4, Hb3, <- Hboxes. apply map_ext. intros q.
      unfold abs_pos. rewrite Hm3, Ho3. reflexivity.
Qed.

Lemma emitted_size_nonneg e : 0 <= emitted_size e.
Proof.
  induction e as [| ptr rest IH | fourcc body IHb rest IHr]; simpl.
  - lia.
  - pose proof (zlen_nonneg ptr). lia.
  - lia.
Qed.

Lemma take_drop_app_l (k n : nat) (a b : list Z) :
  (k + n <= length a)%nat -> take n (drop k (a ++ b)) = take n (drop k a).
Proof.
  intros H. rewrite drop_app_le by lia.
  apply take_app_le. rewrite length_drop. lia.
Qed.

(** In the conforming bytes of an emission every box begins with the
    big-endian count of its own bytes. *)
Lemma boxes_in_box_bytes e :
  forall base pos n,
    fourcc_ok e = true ->
    In (pos, n) (boxes_of e base) ->
    base <= pos /\ pos + n <= base + emitted_size e /\ 8 <= n /\
    take 4 (drop (Z.to_nat (pos - base)) (box_bytes e)) = be32 n.
Proof.
  induction e as [| ptr rest IH | fourcc body IHb rest IHr];
    intros base pos n Hok Hin; cbn [boxes_of box_bytes emitted_size fourcc_ok] in *.
  - destruct Hin.
  - destruct (IH _ _ _ Hok Hin) as (H1 & H2 & H3 & H4).
    pose proof (zlen_nonneg ptr) as Hp.
    repeat split; try lia.
    replace (Z.to_nat (pos - base))
      with (length ptr + Z.to_nat (pos - (base + zlen ptr)))%nat
      by (unfold zlen in *; lia).
    rewrite drop_app_add. exact H4.
  - apply andb_true_iff in Hok as [Hok Hr].
    apply andb_true_iff in Hok as [Hf Hb]. apply Z.eqb_eq in Hf.
    pose proof (emitted_size_nonneg body) as Hbody.
    pose proof (emitted_size_nonneg rest) as Hrest.
    pose proof (zlen_box_bytes body Hb) as Hzb.
    assert (Hzf : zlen (cstr_bytes fourcc 4) = 4) by (apply zlen_cstr_bytes; lia).
    destruct Hin as [Hhead | Hin].
    + injection Hhead as <- <-.
      repeat split; try lia.
      replace (base - base) with 0 by lia. reflexivity.
    + apply in_app_or in Hin as [Hin | Hin].
      * destruct (IHb _ _ _ Hb Hin) as (H1 & H2 & H3 & H4).
        repeat split; try lia.
        rewrite (app_assoc (be32 _)), (app_assoc (be32 _ ++ _)).
        replace (Z.to_nat (pos - base))
          with (length (be32 (8 + emitted_size body) ++ cstr_bytes fourcc 4)
                + Z.to_nat (pos - (base + 8)))%nat
          by (rewrite length_app; unfold zlen in *; simpl length; lia).
        rewrite <- app_assoc, drop_app_add.
        rewrite take_drop_app_l by (unfold zlen in *; lia).
        exact H4.
      * destruct (IHr _ _ _ Hr Hin) as (H1 & H2 & H3 & H4).
        repeat split; try lia.
        rewrite (app_assoc (be32 _)), (app_assoc (be32 _ ++ _)).
        replace (Z.to_nat (pos - base))
          with (length ((be32 (8 + emitted_size body) ++ cstr_bytes fourcc 4)
                          ++ box_bytes body)
                + Z.to_nat (pos - (base + (8 + emitted_size body))))%nat
          by (rewrite !length_app; unfold zlen in *; simpl length; lia).
        rewrite drop_app_add. exact H4.
Qed.

Lemma take_drop_take (k n p : nat) (f : list Z) :
  (k + n <= p)%nat -> take n (drop k (take p f)) = take n (drop k f).
Proof.
  intros H. destruct (Nat.le_gt_cases p (length f)) as [Hp | Hp].
  - rewrite <- (take_drop p f) at 2.
    symmetry. apply take_drop_app_l. rewrite length_take. lia.
  - rewrite (take_ge f p) by lia. reflexivity.
Qed.

Lemma pwrite_keeps_earlier pos bs f (k n : nat) :
  0 <= pos -> pos + zlen bs <= zlen f ->
  (k + n <= Z.to_nat pos)%nat ->
  take n (drop k (pwrite pos bs f)) = take n (drop k f).
Proof.
  intros Hp Hin Hk. rewrite pwrite_within by assumption.
  rewrite take_drop_app_l by (unfold zlen in *; rewrite length_take; lia).
  apply take_drop_take. assumption.
Qed.

Lemma zlen_pwrite_within pos bs f :
  0 <= pos -> pos + zlen bs <= zlen f -> zlen (pwrite pos bs f) = zlen f.
Proof.
  intros Hp Hin. unfold zlen. rewrite pwrite_length_within by assumption.
  reflexivity.
Qed.

Lemma write_file_mode ptr w :
  mFile w = true ->
  mWriteMoovBoxToMemory w = false ->
  write ptr w
  = Ok (set_mOffset (mOffset w + zlen ptr)
          (set_file_pos (file_pos w + zlen ptr)
             (set_file_bytes (pwrite (file_pos w) ptr (file_bytes w)) w))).
Proof.
  intros Hf Hm. unfold write. rewrite Hm. unfold fwrite. rewrite Hf. reflexivity.
Qed.

(** The streamable branch of [stop] copies the staged moov, byte for
    byte, to [mFreeBoxOffset]. *)
Lemma place_staged_moov_spec w :
  wf w ->
  mWriteMoovBoxToMemory w = true ->
  mStreamableFile w = true ->
  0 <= mFreeBoxOffset w ->
  mFreeBoxOffset w + mEstimatedMoovBoxSize w <= zlen (file_bytes w) ->
  mMoovBoxBufferOffset w + 8 <= mEstimatedMoovBoxSize w ->
  exists w2,
    place_staged_moov (set_mWriteMoovBoxToMemory false w) = Ok w2 /\
    take (length (staged w)) (drop (Z.to_nat (mFreeBoxOffset w)) (file_bytes w2))
      = staged w.
Proof.
  intros (Hfile & Hoff & Hboxes & Hmode) Hmem Hstream Hfree Hroom Hfits.
  rewrite Hmem in Hmode. destruct Hmode as (buf & Ebuf & Hest & Hb).
  unfold staged. rewrite Hmem, Ebuf.
  set (pre := take (Z.to_nat (mMoovBoxBufferOffset w)) buf).
  assert (Hpre : zlen pre = mMoovBoxBufferOffset w)
    by (apply zlen_take_le; assumption).
  unfold place_staged_moov. cbn [mMoovBoxBufferOffset mEstimatedMoovBoxSize
                                   set_mWriteMoovBoxToMemory].
  replace (mMoovBoxBufferOffset w + 8 <=? mEstimatedMoovBoxSize w) with true
    by (symmetry; apply Z.leb_le; assumption).
  cbn [CHECK bind mFreeBoxOffset].
  rewrite (fseeko_nonneg (mFreeBoxOffset w)) by assumption.
  unfold moov_prefix. cbn [mMoovBoxBuffer mMoovBoxBufferOffset set_mOffset
                             set_file_pos set_mWriteMoovBoxToMemory].
  rewrite Ebuf.
  replace ((0 <=? mMoovBoxBufferOffset w) && (mMoovBoxBufferOffset w <=? zlen buf))
    with true by (symmetry; apply andb_true_iff; split; apply Z.leb_le; lia).
  fold pre. cbn [bind].
  unfold write at 1. cbn [mWriteMoovBoxToMemory set_mOffset set_file_pos
                            set_mWriteMoovBoxToMemory].
  unfold fwrite at 1. cbn [mFile set_mOffset set_file_pos set_mWriteMoovBoxToMemory].
  rewrite Hfile. cbn [bind].
  cbn [mStreamableFile mOffset mFreeBoxOffset file_pos file_bytes
         set_mOffset set_file_pos set_file_bytes set_mWriteMoovBoxToMemory
         set_mFreeBoxOffset].
  rewrite Hstream.
  pose proof (zlen_nonneg pre) as Hpre0.
  rewrite (fseeko_nonneg (mFreeBoxOffset w + zlen pre)) by lia.
  unfold andThen, writeInt32.
  rewrite write_file_mode; [| exact Hfile | reflexivity].
  cbn [bind].
  rewrite write_file_mode; [| exact Hfile | reflexivity].
  eexists. split; [reflexivity |].
  cbn [file_bytes file_pos mOffset mEstimatedMoovBoxSize mMoovBoxBufferOffset
         set_mMoovBoxBufferOffset set_mMoovBoxBuffer set_mOffset
         set_file_pos set_file_bytes set_mFreeBoxOffset
         set_mWriteMoovBoxToMemory].
  set (f1 := pwrite (mFreeBoxOffset w) pre (file_bytes w)).
  assert (Hf1 : zlen f1 = zlen (file_bytes w))
    by (apply zlen_pwrite_within; lia).
  set (hdr := be32 _).
  assert (Hhdr : zlen hdr = 4) by reflexivity.
  set (f2 := pwrite (mFreeBoxOffset w + zlen pre) hdr f1).
  assert (Hf2 : zlen f2 = zlen (file_bytes w))
    by (unfold f2; rewrite zlen_pwrite_within; lia).
  assert (Hfcc : zlen (cstr_bytes "free" 4) = 4) by reflexivity.
  rewrite pwrite_keeps_earlier
    by (unfold zlen in *; rewrite ?length_take; lia).
  unfold f2. rewrite pwrite_keeps_earlier
    by (unfold zlen in *; rewrite ?length_take; lia).
  unfold f1. apply pwrite_read_back; lia.
Qed.

(** C1. From any well-formed writer, in memory or in file mode, a
    well-bracketed emission returns; it adds exactly [emitted_size e] bytes
    after what the moov stream held before, and for every box of the
    emission, at whatever depth, the four bytes at its start are the
    big-endian encoding of the number of bytes of the box, header
    included; read back, they give that number whenever it is below 2^32.
    The stream is the file up to [mOffset] followed by the bytes staged in
    memory, so the statement covers a run that stays in memory, a run in
    the file, and a run that overflows the reserved space on the way.
    When the run ends in memory, the streamable branch of [stop] copies
    the staged bytes unchanged to [mFreeBoxOffset]. *)
Theorem box_length_field_is_box_size w e :
  wf w -> fourcc_ok e = true ->
  exists w',
    emit e w = Ok w' /\
    wf w' /\
    stream w' = stream w ++ box_bytes e /\
    zlen (stream w') = zlen (stream w) + emitted_size e /\
    (forall pos n,
       In (pos, n) (boxes_of e (zlen (stream w))) ->
       zlen (stream w) <= pos /\ pos + n <= zlen (stream w') /\
       take 4 (drop (Z.to_nat pos) (stream w')) = be32 n /\
       (n < 2 ^ 32 -> read_be (take 4 (drop (Z.to_nat pos) (stream w'))) = n)) /\
    (mWriteMoovBoxToMemory w' = true ->
     mStreamableFile w' = true ->
     0 <= mFreeBoxOffset w' ->
     mFreeBoxOffset w' + mEstimatedMoovBoxSize w' <= zlen (file_bytes w') ->
     mMoovBoxBufferOffset w' + 8 <= mEstimatedMoovBoxSize w' ->
     exists w2,
       place_staged_moov (set_mWriteMoovBoxToMemory false w') = Ok w2 /\
       take (length (staged w'))
            (drop (Z.to_nat (mFreeBoxOffset w')) (file_bytes w2)) = staged w').
Proof.
  intros Hwf Hok.
  destruct (emit_spec e w Hwf Hok) as (w' & E & Hwf' & Hs & _).
  exists w'. split; [assumption |]. split; [assumption |].
  split; [assumption |].
  assert (Hz : zlen (stream w') = zlen (stream w) + emitted_size e)
    by (rewrite Hs, zlen_app, zlen_box_bytes by assumption; reflexivity).
  split; [assumption |].
  split; [| intros; apply place_staged_moov_spec; assumption].
  intros pos n Hin.
  destruct (boxes_in_box_bytes e _ _ _ Hok Hin) as (H1 & H2 & H3 & H4).
  assert (Hfield : take 4 (drop (Z.to_nat pos) (stream w')) = be32 n).
  { rewrite Hs.
    replace (Z.to_nat pos)
      with (length (stream w) + Z.to_nat (pos - zlen (stream w)))%nat
      by (unfold zlen in *; lia).
    rewrite drop_app_add. exact H4. }
  repeat split; try lia; try assumption.
  intros Hn. rewrite Hfield. apply read_be_be32. lia.
Qed.

(** ** The AVC configuration record *)

Lemma is_start_code_take l : is_start_code l = true <-> take 4 l = [0; 0; 0; 1].
Proof.
  destruct l as [| a [| b [| c [| d l]]]]; simpl; try (split; discriminate).
  split.
  - intros H. repeat (apply andb_true_iff in H as [H ?]).
    repeat match goal with E : (_ =? _) = true |- _ => apply Z.eqb_eq in E end.
    subst. rewrite take_0. reflexivity.
  - rewrite take_0. intros H. injection H as -> -> -> ->. reflexivity.
Qed.

Lemma is_start_code_short l : zlen l < 4 -> is_start_code l = false.
Proof.
  destruct l as [| a [| b [| c [| d l]]]]; try reflexivity.
  unfold zlen. simpl. lia.
Qed.

Lemma start_code_at_iff data p :
  0 <= p -> (start_code_at data p <-> is_start_code (drop (Z.to_nat p) data) = true).
Proof.
  intros Hp. unfold start_code_at. rewrite is_start_code_take. tauto.
Qed.

Lemma zlen_cons {A : Type} (a : A) (l : list A) : zlen (a :: l) = 1 + zlen l.
Proof. unfold zlen. simpl length. lia. Qed.

Lemma zlen_nil {A : Type} : zlen (@nil A) = 0.
Proof. reflexivity. Qed.

Lemma start_code_at_0 data : start_code_at data 0 <-> is_start_code data = true.
Proof. rewrite start_code_at_iff by lia. reflexivity. Qed.

Lemma find_picParamOffset_range rest :
  forall off, off <= find_picParamOffset rest off <= off + zlen rest.
Proof.
  induction rest as [| a rest IH]; intros off; cbn [find_picParamOffset].
  - rewrite zlen_nil. lia.
  - rewrite zlen_cons. pose proof (zlen_nonneg rest).
    destruct ((3 <? 1 + zlen rest) && negb (is_start_code (a :: rest))).
    + specialize (IH (off + 1)). lia.
    + lia.
Qed.

(** When the search stops before the end, it stops on the first start
    code. *)
Lemma find_picParamOffset_found rest :
  forall off,
    let r := find_picParamOffset rest off in
    r + 3 < off + zlen rest ->
    is_start_code (drop (Z.to_nat (r - off)) rest) = true /\
    forall k : nat, off + Z.of_nat k < r -> is_start_code (drop k rest) = false.
Proof.
  induction rest as [| a rest IH]; intros off; cbn [find_picParamOffset].
  - rewrite zlen_nil. cbv zeta. lia.
  - rewrite zlen_cons. pose proof (zlen_nonneg rest). cbv zeta.
    destruct (Z.ltb_spec 3 (1 + zlen rest)) as [Hlong | Hshort];
      cbn [andb negb].
    + destruct (is_start_code (a :: rest)) eqn:Esc; cbn [andb negb].
      * intros _. replace (off - off) with 0 by lia. split; [exact Esc |].
        intros k Hk. lia.
      * intros Hr.
        assert (Hr' : find_picParamOffset rest (off + 1) + 3 < off + 1 + zlen rest)
          by lia.
        destruct (IH (off + 1) Hr') as [Hfound Hbefore].
        pose proof (find_picParamOffset_range rest (off + 1)) as Hrange.
        split.
        -- replace (Z.to_nat (find_picParamOffset rest (off + 1) - off))
             with (S (Z.to_nat (find_picParamOffset rest (off + 1) - (off + 1))))
             by lia.
           exact Hfound.
        -- intros [| k] Hk; [exact Esc |]. cbn [drop]. apply Hbefore. lia.
    + intros Hr. lia.
Qed.

(** When the search runs to the end, no suffix it passed, and none after,
    is a start code. *)
Lemma find_picParamOffset_missing rest :
  forall off,
    off + zlen rest <= find_picParamOffset rest off + 3 ->
    forall k : nat, is_start_code (drop k rest) = false.
Proof.
  induction rest as [| a rest IH]; intros off; cbn [find_picParamOffset].
  - intros _ k. rewrite drop_nil. reflexivity.
  - rewrite zlen_cons. pose proof (zlen_nonneg rest).
    destruct (Z.ltb_spec 3 (1 + zlen rest)) as [Hlong | Hshort];
      cbn [andb negb].
    + destruct (is_start_code (a :: rest)) eqn:Esc; cbn [andb negb].
      * intros Hr. lia.
      * intros Hr [| k]; [exact Esc |]. cbn [drop].
        apply (IH (off + 1)). lia.
    + intros _ k. apply is_start_code_short.
      unfold zlen in *. rewrite length_drop. simpl length. lia.
Qed.

Lemma land_255 x : Z.land x 0xff = u8 x.
Proof. unfold u8. change 0xff with (Z.ones 8). apply Z.land_ones. lia. Qed.

Lemma zlen_drop (n : Z) (l : list Z) :
  0 <= n <= zlen l -> zlen (drop (Z.to_nat n) l) = zlen l - n.
Proof. unfold zlen. intros H. rewrite length_drop. lia. Qed.

Lemma start_code_at_fits data p : start_code_at data p -> p + 4 <= zlen data.
Proof.
  intros [Hp H]. apply (f_equal length) in H.
  rewrite length_take, length_drop in H. cbn [length] in H. unfold zlen. lia.
Qed.

(** A start code at the beginning leaves no room for another one before
    index 4. *)
Lemma start_code_not_overlapping data q :
  start_code_at data 0 -> start_code_at data q -> q <> 0 -> 4 <= q.
Proof.
  intros [_ H0] [Hq Hsc] Hne.
  destruct (Z.le_gt_cases 4 q) as [| Hlt]; [assumption | exfalso].
  destruct data as [| a [| b [| c [| d data]]]]; try discriminate.
  simpl in H0. rewrite take_0 in H0. injection H0 as -> -> -> ->.
  assert (Hcases : Z.to_nat q = 1%nat \/ Z.to_nat q = 2%nat \/ Z.to_nat q = 3%nat)
    by lia.
  destruct Hcases as [E | [E | E]]; rewrite E in Hsc; simpl in Hsc;
    destruct data as [| x [| y [| z data]]]; discriminate.
Qed.

(** C7. [makeAVCCodecSpecificData] answers [ERROR_MALFORMED] exactly when
    the input is shorter than four bytes or does not begin with the start
    code 00 00 00 01, or no further start code stands at an index from 4
    on, or codec-specific data is already held; every other call answers
    [OK]; a call that answers [ERROR_MALFORMED] leaves the track as it
    was, so nothing is stored. *)
Theorem makeAVCCodecSpecificData_malformed_iff data t :
  (fst (makeAVCCodecSpecificData data t) = ERROR_MALFORMED <->
     (zlen data < 4 \/ ~ start_code_at data 0) \/
     ~ (exists p, 4 <= p /\ start_code_at data p) \/
     Track.mCodecSpecificData t <> None) /\
  (fst (makeAVCCodecSpecificData data t) <> ERROR_MALFORMED ->
     fst (makeAVCCodecSpecificData data t) = OK) /\
  (fst (makeAVCCodecSpecificData data t) = ERROR_MALFORMED ->
     snd (makeAVCCodecSpecificData data t) = t).
Proof.
  unfold makeAVCCodecSpecificData.
  destruct (Track.mCodecSpecificData t) as [d |] eqn:Edata.
  { simpl. repeat split; try tauto. intros _. right. right. discriminate. }
  destruct (Z.ltb_spec (zlen data) 4) as [Hshort | Hlong]; cbn [orb].
  { simpl. repeat split; try tauto. }
  destruct (is_start_code data) eqn:Ehead; cbn [negb].
  2:{ simpl. repeat split; try tauto. intros _. left. right.
      intros Hsc. apply start_code_at_0 in Hsc. congruence. }
  assert (Hhead : start_code_at data 0)
    by (apply start_code_at_0; exact Ehead).
  assert (Hz4 : zlen (drop 4 data) = zlen data - 4)
    by (apply (zlen_drop 4); lia).
  pose proof (find_picParamOffset_range (drop 4 data) 4) as Hrange.
  destruct (Z.geb_spec (find_picParamOffset (drop 4 data) 4 + 3) (zlen data))
    as [Hmissing | Hfound].
  - simpl. repeat split; try tauto. intros _. right. left.
    intros (p & Hp & Hsc). apply start_code_at_iff in Hsc; [| lia].
    pose proof (find_picParamOffset_missing (drop 4 data) 4 ltac:(lia)
                  (Z.to_nat (p - 4))) as Hnone.
    rewrite drop_drop in Hnone.
    replace (4 + Z.to_nat (p - 4))%nat with (Z.to_nat p) in Hnone by lia.
    congruence.
  - simpl. split; [| split; [reflexivity | discriminate]].
    split; [discriminate |].
    intros [[Hs | Hs] | [Hs | Hs]]; try lia; try tauto; try congruence.
    exfalso. apply Hs.
    destruct (find_picParamOffset_found (drop 4 data) 4 ltac:(lia)) as [Hsc _].
    exists (find_picParamOffset (drop 4 data) 4). split; [lia |].
    apply start_code_at_iff; [lia |].
    rewrite drop_drop in Hsc.
    replace (4 + Z.to_nat (find_picParamOffset (drop 4 data) 4 - 4))%nat
      with (Z.to_nat (find_picParamOffset (drop 4 data) 4)) in Hsc by lia.
    exact Hsc.
Qed.

(** C6. On a track that holds no codec-specific data yet, an input that
    begins with the start code and has exactly one further start code, at
    index [p], is accepted, and the record stored is byte for byte
    01 42 80 1E (FC|3) (E0|1), the 16-bit big-endian length of the SPS,
    the SPS (input bytes 4 .. p-1), 01, the 16-bit big-endian length of
    the PPS, the PPS (input bytes p+4 .. end); the SPS has p - 4 bytes, the
    PPS size - p - 4, and the record and its recorded size 11 bytes more
    than both together. *)
Theorem makeAVCCodecSpecificData_record data t p :
  Track.mCodecSpecificData t = None ->
  start_code_at data 0 ->
  p <> 0 ->
  start_code_at data p ->
  (forall q, q <> 0 -> start_code_at data q -> q = p) ->
  let sps := take (Z.to_nat (p - 4)) (drop 4 data) in
  let pps := drop (Z.to_nat (p + 4)) data in
  fst (makeAVCCodecSpecificData data t) = OK /\
  Track.mCodecSpecificData (snd (makeAVCCodecSpecificData data t))
    = Some (avcC_record sps pps) /\
  zlen sps = p - 4 /\
  zlen pps = zlen data - p - 4 /\
  Track.mCodecSpecificDataSize (snd (makeAVCCodecSpecificData data t))
    = 11 + zlen sps + zlen pps /\
  zlen (avcC_record sps pps) = 11 + zlen sps + zlen pps.
Proof.
  intros Hnone Hhead Hp0 Hp Huniq sps pps.
  pose proof (start_code_not_overlapping data p Hhead Hp Hp0) as Hp4.
  pose proof (start_code_at_fits data p Hp) as Hfit.
  assert (Hsps : zlen sps = p - 4).
  { subst sps. unfold zlen in *. rewrite length_take, length_drop. lia. }
  assert (Hpps : zlen pps = zlen data - p - 4).
  { subst pps. unfold zlen in *. rewrite length_drop. lia. }
  assert (Hz4 : zlen (drop 4 data) = zlen data - 4)
    by (apply (zlen_drop 4); lia).
  pose proof (find_picParamOffset_range (drop 4 data) 4) as Hrange.
  (* the search stops at [p] *)
  assert (Hr : find_picParamOffset (drop 4 data) 4 = p).
  { destruct (Z.lt_ge_cases (find_picParamOffset (drop 4 data) 4 + 3) (zlen data))
      as [Hfound | Hmissing].
    - destruct (find_picParamOffset_found (drop 4 data) 4 ltac:(lia)) as [Hsc _].
      rewrite drop_drop in Hsc.
      replace (4 + Z.to_nat (find_picParamOffset (drop 4 data) 4 - 4))%nat
        with (Z.to_nat (find_picParamOffset (drop 4 data) 4)) in Hsc by lia.
      apply Huniq; [lia |]. apply start_code_at_iff; [lia | exact Hsc].
    - exfalso.
      pose proof (find_picParamOffset_missing (drop 4 data) 4 ltac:(lia)
                    (Z.to_nat (p - 4))) as Hno.
      rewrite drop_drop in Hno.
      replace (4 + Z.to_nat (p - 4))%nat with (Z.to_nat p) in Hno by lia.
      apply start_code_at_iff in Hp; [| lia]. congruence. }
  unfold makeAVCCodecSpecificData. rewrite Hnone.
  apply start_code_at_0 in Hhead. rewrite Hhead.
  replace (zlen data <? 4) with false by (symmetry; apply Z.ltb_ge; lia).
  cbn [orb negb]. rewrite Hr.
  replace (p + 3 >=? zlen data) with false
    by (symmetry; rewrite Z.geb_leb; apply Z.leb_gt; lia).
  cbn [fst snd]. split; [reflexivity |].
  assert (Hrec : Track.mCodecSpecificData
                   (Track.set_mCodecSpecificData
                      (Some
                         ([1; 66; 128; 30; Z.lor 252 3; Z.lor 224 1;
                           u8 (Z.shiftr (p - 4) 8); Z.land (p - 4) 255]
                            ++ take (Z.to_nat (p - 4)) (drop 4 data)
                            ++ [1; u8 (Z.shiftr (zlen data - p - 4) 8);
                                Z.land (zlen data - p - 4) 255]
                            ++ take (Z.to_nat (zlen data - p - 4))
                                 (drop (Z.to_nat (p + 4)) data)))
                      (Track.set_mCodecSpecificDataSize
                         (6 + 1 + (p - 4) + 2 + (zlen data - p - 4) + 2) t))
                 = Some (avcC_record sps pps)).
  { cbn [Track.mCodecSpecificData Track.set_mCodecSpecificData]. f_equal.
    unfold avcC_record, be16. rewrite Hsps, Hpps, !land_255.
    fold sps. fold pps.
    rewrite (take_ge pps) by (unfold zlen in *; lia).
    reflexivity. }
  split; [exact Hrec |].
  split; [assumption |]. split; [assumption |]. split.
  - cbn [Track.mCodecSpecificDataSize Track.set_mCodecSpecificData
           Track.set_mCodecSpecificDataSize]. lia.
  - unfold avcC_record, be16. rewrite !zlen_app, !zlen_cons, !zlen_nil. lia.
Qed.

(** ** The start timestamp *)

Lemma setStartTimestamp_calls_kept timesUs :
  forall w, mStartTimestampUs w <> 0 ->
    mStartTimestampUs (setStartTimestamp_calls timesUs w) = mStartTimestampUs w.
Proof.
  induction timesUs as [| t ts IH]; intros w Hw; simpl; [reflexivity |].
  assert (Hstep : setStartTimestamp t w = w).
  { unfold setStartTimestamp.
    destruct (Z.eqb_spec (mStartTimestampUs w) 0); [contradiction | reflexivity]. }
  fold (setStartTimestamp_calls ts (setStartTimestamp t w)).
  rewrite Hstep. apply IH. assumption.
Qed.

(** On a started writer the first call with a time other than zero fixes
    the start timestamp for good. *)
Lemma setStartTimestamp_first_nonzero_wins timeUs timesUs w :
  mStartTimestampUs w = 0 -> timeUs <> 0 ->
  mStartTimestampUs (setStartTimestamp_calls (timeUs :: timesUs) w) = timeUs.
Proof.
  intros Hw Ht. simpl.
  fold (setStartTimestamp_calls timesUs (setStartTimestamp timeUs w)).
  assert (Hstep : mStartTimestampUs (setStartTimestamp timeUs w) = timeUs).
  { unfold setStartTimestamp. rewrite Hw. reflexivity. }
  rewrite setStartTimestamp_calls_kept; [assumption | congruence].
Qed.

(** C4. The election takes zero for "not set yet": when the first track
    reports the time 0, the value it stores does not stop the next caller,
    and a later call with [timeUs] replaces it. *)
Theorem setStartTimestamp_zero_is_overwritten timeUs w :
  mStartTimestampUs w = 0 ->
  mStartTimestampUs (setStartTimestamp_calls [0] w) = 0 /\
  mStartTimestampUs (setStartTimestamp_calls [0; timeUs] w) = timeUs.
Proof.
  intros Hw. unfold setStartTimestamp_calls, setStartTimestamp. simpl.
  rewrite Hw. simpl. split; reflexivity.
Qed.

(** ** The sample tables *)

Lemma u32_small x : 0 <= x < 2 ^ 32 -> u32 x = x.
Proof. intros H. unfold u32. apply Z.mod_small. assumption. Qed.

Lemma u32_nonneg x : 0 <= u32 x.
Proof. unfold u32. apply Z.mod_pos_bound. lia. Qed.

Lemma stts_samples_snoc entries e :
  stts_samples (entries ++ [e]) = stts_samples entries + sampleCount e.
Proof.
  unfold stts_samples. induction entries as [| x entries IH]; simpl; [lia |].
  rewrite IH. lia.
Qed.

(** A new last entry takes over from the chunk it names. *)
Lemma stsc_samples_snoc entries e chunks :
  stsc_samples (entries ++ [e]) chunks
  = stsc_samples entries (firstChunk e - 1)
    + samplesPerChunk e * (chunks + 1 - firstChunk e).
Proof.
  induction entries as [| x entries IH]; cbn [stsc_samples app].
  - lia.
  - rewrite IH. destruct entries as [| y entries]; cbn [app]; lia.
Qed.

(** One more chunk without a new entry belongs to the last run. *)
Lemma stsc_samples_extend entries e chunks :
  last entries = Some e ->
  stsc_samples entries (chunks + 1) = stsc_samples entries chunks + samplesPerChunk e.
Proof.
  induction entries as [| x entries IH]; intros Hlast; [discriminate |].
  cbn [stsc_samples].
  destruct entries as [| y entries].
  - injection Hlast as ->. cbn [stsc_samples]. lia.
  - rewrite last_cons_cons in Hlast. rewrite (IH Hlast). lia.
Qed.

(** ** Flushing a chunk *)

Lemma write_chunk_samples_track isAvc samples :
  forall first t w t' w',
    write_chunk_samples isAvc first samples t w = Ok (t', w') ->
    t' = match samples with
         | [] => t
         | _ :: _ =>
             if first
             then Track.set_mChunkOffsets (Track.mChunkOffsets t ++ [mOffset w]) t
             else t
         end.
Proof.
  induction samples as [| it rest IH]; intros first t w t' w' H;
    cbn [write_chunk_samples] in H.
  - injection H as <- _. reflexivity.
  - destruct (if isAvc then addLengthPrefixedSample_l it w else addSample_l it w)
      as [[off w1] | |] eqn:Eadd; cbn [bind fst snd] in H; try discriminate.
    assert (Hoff : off = mOffset w).
    { destruct isAvc.
      - unfold addLengthPrefixedSample_l in Eadd.
        repeat match type of Eadd with
               | (bind ?m _) = _ => destruct m; cbn [bind] in Eadd; try discriminate
               end.
        injection Eadd as <- _. reflexivity.
      - unfold addSample_l in Eadd.
        destruct (fwrite (range it) w); cbn [bind] in Eadd; try discriminate.
        injection Eadd as <- _. reflexivity. }
    apply IH in H. rewrite H, Hoff.
    destruct rest; reflexivity.
Qed.

Lemma writeOneChunk_track isAvc t w t' w' :
  writeOneChunk isAvc t w = Ok (t', w') ->
  t' = Track.set_mChunkSamples []
         (match Track.mChunkSamples t with
          | [] => t
          | _ :: _ => Track.set_mChunkOffsets (Track.mChunkOffsets t ++ [mOffset w]) t
          end).
Proof.
  unfold writeOneChunk. intros H.
  destruct (write_chunk_samples isAvc true (Track.mChunkSamples t) t w)
    as [[t1 w1] | |] eqn:E; cbn [bind fst snd] in H; try discriminate.
  injection H as <- <-.
  apply write_chunk_samples_track in E as Ht. rewrite Ht.
  destruct (Track.mChunkSamples t); reflexivity.
Qed.

(** ** Recording a sample *)

Lemma zlen_snoc {A : Type} (l : list A) (x : A) : zlen (l ++ [x]) = zlen l + 1.
Proof. rewrite zlen_app. reflexivity. Qed.

Lemma tables_eq_refl t : tables_eq t t.
Proof. repeat split. Qed.

Lemma tables_eq_trans t1 t2 t3 : tables_eq t1 t2 -> tables_eq t2 t3 -> tables_eq t1 t3.
Proof.
  unfold tables_eq. intros (a1 & a2 & a3 & a4 & a5 & a6 & a7)
    (b1 & b2 & b3 & b4 & b5 & b6 & b7).
  repeat split; congruence.
Qed.

Lemma update_stts_spec info l t l' t' :
  update_stts info l t = (l', t') ->
  Track.mSampleInfos t' = Track.mSampleInfos t /\
  Track.mChunkSamples t' = Track.mChunkSamples t /\
  Track.mChunkOffsets t' = Track.mChunkOffsets t /\
  Track.mStscTableEntries t' = Track.mStscTableEntries t /\
  Track.mSamplesHaveSameSize t' = Track.mSamplesHaveSameSize t /\
  Track.mMeta t' = Track.mMeta t /\
  Locals.nChunks l' = Locals.nChunks l.
Proof.
  unfold update_stts. intros H.
  destruct (zlen (Track.mSampleInfos t) >? 2);
    [destruct (negb _) |]; injection H as <- <-; repeat split.
Qed.

(** The stts bookkeeping after one more sample: [t] already holds the new
    sample, [t0] is the track before it. *)
Lemma update_stts_inv info l t0 t l' t' :
  Track.mSampleInfos t = Track.mSampleInfos t0 ++ [info] ->
  Track.mSttsTableEntries t = Track.mSttsTableEntries t0 ->
  stts_inv l t0 ->
  update_stts info l t = (l', t') ->
  stts_inv l' t'.
Proof.
  intros Hinfos Hstts Hinv H.
  pose proof (update_stts_spec _ _ _ _ _ H) as (Ei & _).
  unfold stts_inv in *. rewrite Ei, Hinfos, zlen_snoc.
  pose proof (zlen_nonneg (Track.mSampleInfos t0)) as Hlen.
  intros Hbound. specialize (Hinv ltac:(lia)).
  destruct Hinv as (Hc & Hs & Hsmall & Hbig).
  unfold update_stts in H. rewrite Hinfos, zlen_snoc in H.
  destruct (Z.gtb_spec (zlen (Track.mSampleInfos t0) + 1) 2) as [Hn | Hn].
  - specialize (Hbig ltac:(lia)).
    destruct (negb _); injection H as <- <-;
      cbn [Locals.sampleCount Locals.set_sampleCount
             Track.mSttsTableEntries Track.set_mSttsTableEntries];
      rewrite ?stts_samples_snoc, Hstts; cbn [sampleCount mkStts];
      rewrite ?u32_small by lia; repeat split; intros; lia.
  - injection H as <- <-. rewrite Hstts.
    destruct (Hsmall ltac:(lia)) as [E1 E2].
    repeat split; try assumption; try lia.
    rewrite E1, E2. cbn. lia.
Qed.

Lemma update_same_size_spec info l t l' t' :
  update_same_size info l t = (l', t') ->
  Track.mSampleInfos t' = Track.mSampleInfos t /\
  Track.mChunkSamples t' = Track.mChunkSamples t /\
  Track.mChunkOffsets t' = Track.mChunkOffsets t /\
  Track.mStscTableEntries t' = Track.mStscTableEntries t /\
  Track.mSttsTableEntries t' = Track.mSttsTableEntries t /\
  Track.mMeta t' = Track.mMeta t /\
  Locals.nChunks l' = Locals.nChunks l /\
  Locals.sampleCount l' = Locals.sampleCount l.
Proof.
  unfold update_same_size. intros H.
  destruct (Track.mSamplesHaveSameSize t);
    [destruct (_ && _) |]; injection H as <- <-; repeat split.
Qed.

Lemma max_timestamp_tables timestampUs t :
  tables_eq t (if timestampUs >? Track.mMaxTimeStampUs t
               then Track.set_mMaxTimeStampUs timestampUs t else t).
Proof. destruct (_ >? _); repeat split. Qed.

Lemma stss_tables isSync t :
  tables_eq t (if negb (isSync =? 0)
               then Track.set_mStssTableEntries
                      (Track.mStssTableEntries t
                         ++ [s32 (zlen (Track.mSampleInfos t))]) t
               else t).
Proof. destruct (negb _); repeat split. Qed.

Lemma record_sample_tables info_size isSync timestampUs copy l t l' t' :
  record_sample info_size isSync timestampUs copy l t = (l', t') ->
  Track.mSampleInfos t'
    = Track.mSampleInfos t
        ++ [{| size := info_size; timestamp := Z.quot (timestampUs + 500) 1000 |}] /\
  Track.mChunkSamples t' = Track.mChunkSamples t ++ [copy] /\
  Track.mChunkOffsets t' = Track.mChunkOffsets t /\
  Track.mStscTableEntries t' = Track.mStscTableEntries t /\
  Track.mMeta t' = Track.mMeta t /\
  Locals.nChunks l' = Locals.nChunks l /\
  (stts_inv l t -> stts_inv l' t').
Proof.
  unfold record_sample. intros H.
  set (info := {| size := info_size; timestamp := Z.quot (timestampUs + 500) 1000 |})
    in *.
  set (t1 := if timestampUs >? Track.mMaxTimeStampUs t
             then Track.set_mMaxTimeStampUs timestampUs t else t) in *.
  pose proof (max_timestamp_tables timestampUs t) as E1. fold t1 in E1.
  destruct E1 as (Ei & Ec & Eo & Esc & Est & Ess & Em).
  set (t2 := Track.set_mSampleInfos (Track.mSampleInfos t1 ++ [info]) t1) in *.
  destruct (update_stts info l t2) as [l1 t3] eqn:Estts.
  destruct (update_same_size info l1 t3) as [l2 t4] eqn:Esame.
  pose proof (update_stts_spec _ _ _ _ _ Estts) as (A1 & A2 & A3 & A4 & A5 & A6 & A7).
  pose proof (update_same_size_spec _ _ _ _ _ Esame)
    as (B1 & B2 & B3 & B4 & B5 & B6 & B7 & B8).
  injection H as <- <-.
  pose proof (stss_tables isSync t4) as Hfinal.
  remember (if negb (isSync =? 0)
            then Track.set_mStssTableEntries
                   (Track.mStssTableEntries t4
                      ++ [s32 (zlen (Track.mSampleInfos t4))]) t4
            else t4) as t5 eqn:Et5.
  clear Et5.
  destruct Hfinal as (C1 & C2 & C3 & C4 & C5 & C6 & C7).
  cbn [Track.mSampleInfos Track.mChunkSamples Track.mChunkOffsets
         Track.mStscTableEntries Track.mMeta Track.set_mChunkSamples
         Locals.nChunks Locals.set_lastTimestamp Locals.set_lastDuration].
  rewrite C1, C2, C3, C4, C7, B1, B2, B3, B4, B6, B7, A1, A2, A3, A4, A6, A7.
  subst t2. cbn [Track.mSampleInfos Track.mChunkSamples Track.mChunkOffsets
                   Track.mStscTableEntries Track.mMeta Track.set_mSampleInfos].
  rewrite Ei, Ec, Eo, Esc, Em.
  repeat (split; [reflexivity |]).
  intros Hinv.
  assert (Hinv1 : stts_inv l t1).
  { unfold stts_inv in *. rewrite Ei, Est. exact Hinv. }
  assert (Hinv3 : stts_inv l1 t3).
  { eapply (update_stts_inv info l t1); [| | exact Hinv1 | exact Estts];
      reflexivity. }
  unfold stts_inv in *.
  cbn [Track.mSampleInfos Track.mSttsTableEntries Track.set_mChunkSamples
         Locals.sampleCount Locals.set_lastTimestamp Locals.set_lastDuration].
  rewrite C1, C5, B1, B5, B8. exact Hinv3.
Qed.

(** ** Chunk boundaries *)

Lemma flush_with_entry l t l' off :
  chunk_core l t ->
  Track.mChunkSamples t <> [] ->
  Locals.nChunks l' = Locals.nChunks l + 1 ->
  chunk_core l'
    (Track.set_mChunkSamples []
       (Track.set_mChunkOffsets (Track.mChunkOffsets t ++ [off])
          (Track.set_mStscTableEntries
             (Track.mStscTableEntries t
                ++ [mkStsc (Locals.nChunks l + 1) (zlen (Track.mChunkSamples t)) 1])
             t))).
Proof.
  intros Hcore Hne Hl'. unfold chunk_core in *.
  cbn [Track.mSampleInfos Track.mChunkSamples Track.mChunkOffsets
         Track.mStscTableEntries Track.set_mChunkSamples Track.set_mChunkOffsets
         Track.set_mStscTableEntries].
  intros Hbound. specialize (Hcore Hbound).
  destruct Hcore as (Hn & Hle & Hsum & Hnonempty).
  pose proof (zlen_nonneg (Track.mChunkOffsets t)) as Hco.
  assert (Hpending : 1 <= zlen (Track.mChunkSamples t)).
  { destruct (Track.mChunkSamples t); [contradiction |].
    rewrite zlen_cons. pose proof (zlen_nonneg l0). lia. }
  rewrite Hl', zlen_snoc, zlen_nil.
  repeat split; try lia.
  - rewrite stsc_samples_snoc. cbn [firstChunk samplesPerChunk mkStsc].
    rewrite !u32_small by lia.
    replace (Locals.nChunks l + 1 - 1) with (Locals.nChunks l) by lia.
    rewrite Hsum. lia.
  - intros _ H. destruct (Track.mStscTableEntries t); discriminate.
Qed.

Lemma flush_without_entry l t l' off e :
  chunk_core l t ->
  Track.mChunkSamples t <> [] ->
  last (Track.mStscTableEntries t) = Some e ->
  samplesPerChunk e = zlen (Track.mChunkSamples t) ->
  Locals.nChunks l' = Locals.nChunks l + 1 ->
  chunk_core l'
    (Track.set_mChunkSamples []
       (Track.set_mChunkOffsets (Track.mChunkOffsets t ++ [off]) t)).
Proof.
  intros Hcore Hne Hlast Hspc Hl'. unfold chunk_core in *.
  cbn [Track.mSampleInfos Track.mChunkSamples Track.mChunkOffsets
         Track.mStscTableEntries Track.set_mChunkSamples Track.set_mChunkOffsets].
  intros Hbound. specialize (Hcore Hbound).
  destruct Hcore as (Hn & Hle & Hsum & Hnonempty).
  assert (Hpending : 1 <= zlen (Track.mChunkSamples t)).
  { destruct (Track.mChunkSamples t); [contradiction |].
    rewrite zlen_cons. pose proof (zlen_nonneg l0). lia. }
  rewrite Hl', zlen_snoc, zlen_nil.
  repeat split; try lia.
  - rewrite (stsc_samples_extend _ e) by assumption. lia.
  - intros _ H. rewrite H in Hlast. discriminate.
Qed.

Lemma chunk_boundary_spec is_avc D timestampUs l t w l' t' w' :
  chunk_boundary is_avc D timestampUs l t w = Ok (l', t', w') ->
  Track.mChunkSamples t <> [] ->
  (D = 0 -> zlen (Track.mChunkSamples t) = 1) ->
  chunk_core l t ->
  Track.mSampleInfos t' = Track.mSampleInfos t /\
  Track.mSttsTableEntries t' = Track.mSttsTableEntries t /\
  Track.mSamplesHaveSameSize t' = Track.mSamplesHaveSameSize t /\
  Track.mMeta t' = Track.mMeta t /\
  Locals.sampleCount l' = Locals.sampleCount l /\
  chunk_inv D l' t'.
Proof.
  unfold chunk_boundary. intros H Hne Hone Hcore.
  destruct (Z.eqb_spec D 0) as [HD | HD].
  - (* every sample is a chunk of its own *)
    destruct (writeOneChunk _ _ w) as [[t1 w1] | |] eqn:Eflush;
      cbn [bind fst snd] in H; try discriminate.
    injection H as <- <- <-.
    apply writeOneChunk_track in Eflush.
    cbn [Track.mChunkSamples Track.mChunkOffsets Track.set_mStscTableEntries]
      in Eflush.
    pose proof (flush_with_entry l t (Locals.set_nChunks (Locals.nChunks l + 1) l)
                  (mOffset w) Hcore Hne eq_refl) as Hflush.
    rewrite (Hone HD) in Hflush.
    destruct (Track.mChunkSamples t) as [| c cs] eqn:Echunk; [contradiction |].
    subst t1.
    repeat (split; [reflexivity |]).
    split; [exact Hflush | intros _; reflexivity].
  - destruct (Z.eqb_spec (Locals.chunkTimestampUs l) 0) as [Hanchor | Hanchor].
    { injection H as <- <- <-. repeat (split; [reflexivity |]).
      split; [exact Hcore | intros; contradiction]. }
    destruct (Z.gtb_spec (timestampUs - Locals.chunkTimestampUs l) D) as [Hlate | Hearly].
    2:{ injection H as <- <- <-. repeat (split; [reflexivity |]).
        split; [exact Hcore | intros; contradiction]. }
    cbn [Locals.nChunks Locals.set_nChunks] in H.
    destruct (Z.eqb_spec (Locals.nChunks l + 1) 1) as [Hfirst | Hlater].
    + cbn [bind] in H.
      destruct (writeOneChunk _ _ w) as [[t1 w1] | |] eqn:Eflush;
        cbn [bind fst snd] in H; try discriminate.
      injection H as <- <- <-.
      apply writeOneChunk_track in Eflush.
      cbn [Track.mChunkSamples Track.mChunkOffsets Track.set_mStscTableEntries]
        in Eflush.
      pose proof (flush_with_entry l t
                    (Locals.set_chunkTimestampUs timestampUs
                       (Locals.set_nChunks (Locals.nChunks l + 1) l))
                    (mOffset w) Hcore Hne eq_refl) as Hflush.
      destruct (Track.mChunkSamples t) as [| c cs] eqn:Echunk; [contradiction |].
      subst t1.
      repeat (split; [reflexivity |]).
      split; [exact Hflush | intros; contradiction].
    + destruct (last (Track.mStscTableEntries t)) as [e |] eqn:Elast;
        cbn [bind] in H; try discriminate.
      destruct (Z.eqb_spec (samplesPerChunk e) (zlen (Track.mChunkSamples t)))
        as [Hsame | Hdiff]; cbn [negb bind] in H.
      * destruct (writeOneChunk _ _ w) as [[t1 w1] | |] eqn:Eflush;
          cbn [bind fst snd] in H; try discriminate.
        injection H as <- <- <-.
        apply writeOneChunk_track in Eflush.
        pose proof (flush_without_entry l t
                      (Locals.set_chunkTimestampUs timestampUs
                         (Locals.set_nChunks (Locals.nChunks l + 1) l))
                      (mOffset w) e Hcore Hne Elast Hsame eq_refl) as Hflush.
        destruct (Track.mChunkSamples t) as [| c cs] eqn:Echunk; [contradiction |].
        subst t1.
        repeat (split; [reflexivity |]).
        split; [exact Hflush | intros; contradiction].
      * destruct (writeOneChunk _ _ w) as [[t1 w1] | |] eqn:Eflush;
          cbn [bind fst snd] in H; try discriminate.
        injection H as <- <- <-.
        apply writeOneChunk_track in Eflush.
        cbn [Track.mChunkSamples Track.mChunkOffsets Track.set_mStscTableEntries]
          in Eflush.
        pose proof (flush_with_entry l t
                      (Locals.set_chunkTimestampUs timestampUs
                         (Locals.set_nChunks (Locals.nChunks l + 1) l))
                      (mOffset w) Hcore Hne eq_refl) as Hflush.
        destruct (Track.mChunkSamples t) as [| c cs] eqn:Echunk; [contradiction |].
        subst t1.
        repeat (split; [reflexivity |]).
        split; [exact Hflush | intros; contradiction].
Qed.

(** ** The loop invariant *)

Lemma makeAVCCodecSpecificData_tables data t :
  tables_eq t (snd (makeAVCCodecSpecificData data t)).
Proof.
  unfold makeAVCCodecSpecificData.
  destruct (Track.mCodecSpecificData t); [apply tables_eq_refl |].
  destruct (_ || _); [apply tables_eq_refl |].
  destruct (_ >=? _); [apply tables_eq_refl |].
  repeat split.
Qed.

Lemma codec_config_spec is_mpeg4 is_avc count t buffer c :
  codec_config is_mpeg4 is_avc count t buffer = Ok c ->
  match c with
  | Config t1 => tables_eq t t1
  | Sample t1 buffer1 =>
      tables_eq t t1 /\ meta_data buffer1 = meta_data buffer
  end.
Proof.
  unfold codec_config. intros H.
  destruct (match kKeyIsCodecConfig (meta_data buffer) with
            | Some v => negb (v =? 0)
            | None => false
            end).
  { destruct (CHECK (negb (Track.mGotAllCodecSpecificData t)));
      cbn [bind] in H; try discriminate.
    destruct is_avc.
    - destruct (CHECK _); cbn [bind] in H; try discriminate.
      injection H as <-.
      eapply tables_eq_trans; [apply makeAVCCodecSpecificData_tables |].
      repeat split.
    - destruct is_mpeg4; cbn [bind] in H; injection H as <-; repeat split. }
  destruct (_ && _ && _ && _).
  { destruct (_ =? _); injection H as <-; repeat split. }
  destruct (_ && _ && _).
  { destruct (CHECK _); cbn [bind] in H; try discriminate.
    destruct (negb _); [discriminate |].
    destruct (count =? 2).
    - destruct (CHECK _); cbn [bind] in H; try discriminate.
      injection H as <-.
      eapply tables_eq_trans;
        [| eapply tables_eq_trans;
           [apply makeAVCCodecSpecificData_tables | repeat split]].
      repeat split.
    - injection H as <-. repeat split. }
  injection H as <-. split; [apply tables_eq_refl | reflexivity].
Qed.

Lemma loop_inv_transfer D reads l t w l1 t1 w1 :
  tables_eq t t1 ->
  Locals.sampleCount l1 = Locals.sampleCount l ->
  Locals.nChunks l1 = Locals.nChunks l ->
  loop_inv D reads (l, t, w) ->
  loop_inv D reads (l1, t1, w1).
Proof.
  intros (Ei & Ec & Eo & Esc & Est & Ess & Em) Hs Hn.
  unfold loop_inv, stts_inv, chunk_inv, chunk_core, untouched.
  rewrite Ei, Ec, Eo, Esc, Est, Ess, Hs, Hn. tauto.
Qed.

Lemma StripStartcode_meta buffer : meta_data (StripStartcode buffer) = meta_data buffer.
Proof.
  unfold StripStartcode. destruct (_ <? _); [reflexivity |].
  repeat match goal with
         | |- context [match ?x with _ => _ end] => destruct x
         end; reflexivity.
Qed.

Lemma accepted_sample_inv is_avc D reads buffer timestampUs info_size isSync copy
      l t w l1 t4 l' t' w' w1 :
  In buffer reads ->
  kKeyTime (meta_data buffer) = Some timestampUs ->
  loop_inv D reads (l, t, w) ->
  record_sample info_size isSync timestampUs copy l t = (l1, t4) ->
  chunk_boundary is_avc D timestampUs l1 t4 w1 = Ok (l', t', w') ->
  loop_inv D reads (l', t', w') /\ Track.mMeta t' = Track.mMeta t.
Proof.
  intros Hin Htime (Hstts & (Hcore & Hzero) & Hround & Huntouched & Hstart) Hrec Hchunk.
  destruct (record_sample_tables _ _ _ _ _ _ _ _ Hrec)
    as (Ei & Ec & Eo & Esc & Em & En & Hstts').
  specialize (Hstts' Hstts).
  assert (Hne : Track.mChunkSamples t4 <> []).
  { rewrite Ec. destruct (Track.mChunkSamples t); discriminate. }
  assert (Hone : D = 0 -> zlen (Track.mChunkSamples t4) = 1).
  { intros HD. rewrite Ec, (Hzero HD). reflexivity. }
  assert (Hcore4 : chunk_core l1 t4).
  { unfold chunk_core in *. rewrite Ei, Ec, Eo, Esc, En, !zlen_snoc.
    intros Hbound.
    pose proof (zlen_nonneg (Track.mSampleInfos t)).
    specialize (Hcore ltac:(lia)). destruct Hcore as (H1 & H2 & H3 & H4).
    repeat split; try assumption; lia. }
  destruct (chunk_boundary_spec _ _ _ _ _ _ _ _ _ Hchunk Hne Hone Hcore4)
    as (Fi & Fst & Fss & Fm & Fc & Hchunk').
  split; [| congruence].
  unfold loop_inv. split.
  { unfold stts_inv in *. rewrite Fi, Fst, Fc. exact Hstts'. }
  split; [exact Hchunk' |]. split.
  { rewrite Fi, Ei. apply Forall_app. split; [assumption |].
    apply Forall_singleton. exists buffer, timestampUs. auto. }
  split.
  - unfold untouched. rewrite Fi, Ei.
    intros H. destruct (Track.mSampleInfos t); discriminate.
  - rewrite Fi, Ei. intros H. destruct (Track.mSampleInfos t); discriminate.
Qed.

Lemma iteration_inv is_mpeg4 is_avc D me reads st buffer c :
  In buffer reads ->
  loop_inv D reads st ->
  iteration is_mpeg4 is_avc D me st buffer = Ok c ->
  match c with
  | Continue st' | Break st' =>
      loop_inv D reads st' /\
      Track.mMeta (snd (fst st')) = Track.mMeta (snd (fst st))
  end.
Proof.
  destruct st as [[l t] w]. intros Hin Hinv H. cbn [fst snd].
  unfold iteration in H.
  destruct (range_length buffer =? 0).
  { injection H as <-. split; [| reflexivity].
    eapply loop_inv_transfer; [apply tables_eq_refl | | | exact Hinv]; reflexivity. }
  destruct (codec_config _ _ _ t buffer) as [c' | |] eqn:Econf;
    cbn [bind] in H; try discriminate.
  apply codec_config_spec in Econf.
  destruct c' as [t1 | t1 buffer1].
  { injection H as <-. split; [| apply Econf].
    eapply loop_inv_transfer; [exact Econf | | | exact Hinv]; reflexivity. }
  destruct Econf as [Htab Hmeta].
  set (copy := if is_avc
               then StripStartcode
                      {| range := range buffer1; meta_data := meta_data buffer1 |}
               else {| range := range buffer1; meta_data := meta_data buffer1 |}) in *.
  assert (Hcopy : meta_data copy = meta_data buffer).
  { subst copy. destruct is_avc; [rewrite StripStartcode_meta |]; exact Hmeta. }
  set (info_size := if is_avc then range_length copy + 4 else range_length copy) in *.
  set (t2 := Track.set_mEstimatedTrackSizeBytes
               (Track.mEstimatedTrackSizeBytes t1 + info_size) t1) in *.
  assert (Htab2 : tables_eq t t2).
  { eapply tables_eq_trans; [exact Htab |]. repeat split. }
  destruct (exceedsFileSizeLimit (sync me t2 w)).
  { injection H as <-. split; [| apply Htab2].
    eapply loop_inv_transfer; [exact Htab2 | | | exact Hinv]; reflexivity. }
  destruct (exceedsFileDurationLimit (sync me t2 w)).
  { injection H as <-. split; [| apply Htab2].
    eapply loop_inv_transfer; [exact Htab2 | | | exact Hinv]; reflexivity. }
  rewrite Hcopy in H.
  destruct (kKeyTime (meta_data buffer)) as [timestampUs |] eqn:Htime;
    [| discriminate].
  destruct (match Track.mSampleInfos t2 with
            | [] =>
                (Track.set_mStartTimestampUs
                   (Some (timestampUs
                          - getStartTimestamp (setStartTimestamp timestampUs w))) t2,
                 setStartTimestamp timestampUs w)
            | _ :: _ => (t2, w)
            end) as [t3 w1] eqn:Estart.
  assert (Htab3 : tables_eq t t3).
  { eapply tables_eq_trans; [exact Htab2 |].
    destruct (Track.mSampleInfos t2); injection Estart as <- <-; repeat split. }
  cbv beta iota in H.
  destruct (record_sample _ _ _ copy _ t3) as [l1 t4] eqn:Erec.
  destruct (chunk_boundary _ _ _ l1 t4 w1) as [[[l' t'] w'] | |] eqn:Echunk;
    cbn [bind] in H; try discriminate.
  injection H as <-. cbn [fst snd].
  assert (Hinv3 : loop_inv D reads
                    (Locals.set_count (Locals.count l + 1) l, t3, w1)).
  { eapply loop_inv_transfer; [exact Htab3 | | | exact Hinv]; reflexivity. }
  destruct (accepted_sample_inv _ _ _ _ _ _ _ _ _ _ _ _ _ _ _ _ _ Hin Htime Hinv3
              Erec Echunk) as [Hfinal Hm].
  split; [exact Hfinal |]. rewrite Hm. apply Htab3.
Qed.

Lemma producer_loop_inv is_mpeg4 is_avc D me reads rest :
  forall st st',
    (forall b, In b rest -> In b reads) ->
    loop_inv D reads st ->
    producer_loop is_mpeg4 is_avc D me st rest = Ok st' ->
    loop_inv D reads st' /\
    Track.mMeta (snd (fst st')) = Track.mMeta (snd (fst st)).
Proof.
  induction rest as [| buffer rest IH]; intros st st' Hsub Hinv H;
    cbn [producer_loop] in H.
  - injection H as <-. auto.
  - destruct (iteration _ _ _ _ st buffer) as [c | |] eqn:Eit;
      cbn [bind] in H; try discriminate.
    pose proof (iteration_inv _ _ _ _ reads _ _ _
                  (Hsub buffer (or_introl eq_refl)) Hinv Eit) as Hc.
    destruct c as [st1 | st1]; destruct Hc as [Hinv1 Hm1].
    + destruct (IH st1 st' (fun b Hb => Hsub b (or_intror Hb)) Hinv1 H)
        as [Hinv' Hm'].
      split; [assumption | congruence].
    + injection H as <-. auto.
Qed.

Lemma loop_inv_init D reads t w :
  fresh_track t -> loop_inv D reads (Locals.init, t, w).
Proof.
  intros (Hi & Hc & Ho & Hsc & Hst & Hss).
  unfold loop_inv, stts_inv, chunk_inv, chunk_core, untouched.
  rewrite Hi, Hc, Ho, Hsc, Hst. cbn.
  repeat split; auto; try lia; try discriminate.
  rewrite zlen_nil. lia.
Qed.

Lemma end_of_stream_spec is_avc D reads l t w l' t' w' :
  loop_inv D reads (l, t, w) ->
  end_of_stream is_avc (l, t, w) = Ok (l', t', w') ->
  Track.mSampleInfos t' = Track.mSampleInfos t /\
  Track.mReachedEOS t' = true /\
  Track.mMeta t' = Track.mMeta t /\
  Track.mChunkSamples t' = [] /\
  (zlen (Track.mSampleInfos t) < 2 ^ 32 ->
     stts_samples (Track.mSttsTableEntries t')
       = (if zlen (Track.mSampleInfos t) =? 0 then 2 else zlen (Track.mSampleInfos t)) /\
     stsc_samples (Track.mStscTableEntries t') (Locals.nChunks l')
       = zlen (Track.mSampleInfos t) /\
     zlen (Track.mChunkOffsets t') = Locals.nChunks l') /\
  (Track.mSampleInfos t = [] ->
     In MEDIA_RECORDER_INFO_STOP_PREMATURELY (notified w') /\
     Track.mSamplesHaveSameSize t' = true /\
     Track.mStscTableEntries t' = [] /\
     Track.mChunkOffsets t' = [] /\
     exists duration, Track.mSttsTableEntries t' = [mkStts 2 duration]).
Proof.
  intros (Hstts & (Hcore & Hzero) & Hround & Huntouched & Hstart) H.
  unfold end_of_stream in H.
  set (w1 := match Track.mSampleInfos t with
             | [] => notify MEDIA_RECORDER_INFO_STOP_PREMATURELY w
             | _ :: _ => w
             end) in *.
  (* the last chunk *)
  assert (Hchunk :
            exists l2 t2 w2,
              (match Track.mChunkSamples t with
               | [] => Ok (l, t, w1)
               | _ :: _ =>
                   r <- writeOneChunk is_avc
                          (Track.set_mStscTableEntries
                             (Track.mStscTableEntries t
                                ++ [mkStsc (Locals.nChunks l + 1)
                                      (zlen (Track.mChunkSamples t)) 1]) t) w1 ;;
                   Ok (Locals.set_nChunks (Locals.nChunks l + 1) l, fst r, snd r)
               end) = Ok (l2, t2, w2) /\
              chunk_core l2 t2 /\ Track.mChunkSamples t2 = [] /\
              Track.mSampleInfos t2 = Track.mSampleInfos t /\
              Track.mSttsTableEntries t2 = Track.mSttsTableEntries t /\
              Track.mSamplesHaveSameSize t2 = Track.mSamplesHaveSameSize t /\
              Track.mMeta t2 = Track.mMeta t /\
              Locals.sampleCount l2 = Locals.sampleCount l /\
              (Track.mChunkSamples t = [] -> l2 = l /\ t2 = t /\ w2 = w1)).
  { destruct (Track.mChunkSamples t) as [| c cs] eqn:Echunk.
    - exists l, t, w1. split; [reflexivity |]. split; [exact Hcore |].
      repeat split; auto.
    - cbn [Locals.nChunks Locals.set_nChunks] in H.
      destruct (writeOneChunk _ _ w1) as [[t2 w2] | |] eqn:Eflush;
        cbn [bind fst snd] in H; try discriminate.
      exists (Locals.set_nChunks (Locals.nChunks l + 1) l), t2, w2.
      split; [reflexivity |].
      apply writeOneChunk_track in Eflush.
      cbn [Track.mChunkSamples Track.mChunkOffsets Track.set_mStscTableEntries]
        in Eflush.
      assert (Hne : Track.mChunkSamples t <> []) by (rewrite Echunk; discriminate).
      pose proof (flush_with_entry l t (Locals.set_nChunks (Locals.nChunks l + 1) l)
                    (mOffset w1) Hcore Hne eq_refl) as Hflush.
      rewrite Echunk in Eflush, Hflush. subst t2.
      split; [exact Hflush |]. repeat split; discriminate. }
  destruct Hchunk as (l2 & t2 & w2 & Er & Hcore2 & Hc2 & Hi2 & Hst2 & Hss2 & Hm2
                      & Hsc2 & Hsame).
  cbn [Locals.nChunks Locals.set_nChunks] in H.
  rewrite Er in H. cbn [bind] in H. cbv beta iota in H.
  injection H as <- <- <-.
  cbn [Track.mSampleInfos Track.mReachedEOS Track.mMeta Track.mChunkSamples
         Track.mSttsTableEntries Track.mStscTableEntries Track.mChunkOffsets
         Track.mSamplesHaveSameSize
         Track.set_mReachedEOS Track.set_mSttsTableEntries].
  rewrite Hi2, Hm2, Hc2, Hst2, Hss2.
  repeat (split; [reflexivity |]).
  pose proof (zlen_nonneg (Track.mSampleInfos t)) as Hlen.
  split.
  - intros Hbound.
    unfold stts_inv in Hstts. specialize (Hstts Hbound).
    destruct Hstts as (Hcount & Hsum & Hsmall & Hbig).
    unfold chunk_core in Hcore2. rewrite Hi2, Hc2, zlen_nil in Hcore2.
    specialize (Hcore2 Hbound). destruct Hcore2 as (Hn & _ & Hsamples & _).
    rewrite stts_samples_snoc. cbn [sampleCount mkStts].
    split; [| split].
    + destruct (Z.eqb_spec (zlen (Track.mSampleInfos t)) 1) as [H1 | H1].
      * destruct (Hsmall ltac:(lia)) as [-> Hc1].
        cbn [Locals.sampleCount Locals.set_lastDuration]. rewrite Hsc2, Hc1, H1.
        reflexivity.
      * cbn [Locals.sampleCount Locals.set_sampleCount]. rewrite Hsc2.
        destruct (Z.eqb_spec (zlen (Track.mSampleInfos t)) 0) as [H0 | H0].
        -- destruct (Hsmall ltac:(lia)) as [-> Hc1]. rewrite Hc1. reflexivity.
        -- specialize (Hbig ltac:(lia)). rewrite u32_small by lia. lia.
    + destruct (Z.eqb_spec (zlen (Track.mSampleInfos t)) 1);
        cbn [Locals.nChunks Locals.set_lastDuration Locals.set_sampleCount];
        rewrite Hsamples; lia.
    + destruct (Z.eqb_spec (zlen (Track.mSampleInfos t)) 1);
        cbn [Locals.nChunks Locals.set_lastDuration Locals.set_sampleCount];
        symmetry; exact Hn.
  - intros Hempty.
    destruct (Huntouched Hempty) as (Uc & Uo & Usc & Ust & Uss).
    destruct (Hsame Uc) as (-> & -> & ->).
    destruct (Hstart Hempty) as [Hcount _].
    rewrite Uss, Usc, Uo, Ust, Hempty. cbn [zlen length Z.of_nat Z.eqb].
    split.
    { subst w1. rewrite Hempty. unfold notify. cbn [notified set_notified].
      apply in_or_app. right. left. reflexivity. }
    repeat (split; [reflexivity |]).
    cbn [Locals.sampleCount Locals.set_sampleCount Locals.lastDuration app].
    rewrite Hcount. eexists. reflexivity.
Qed.

(** ** The producer, from start to end of stream *)

Lemma thread_body_spec mime me t w reads l' t' w' :
  fresh_track t ->
  thread_body mime me t w reads = Ok (l', t', w') ->
  exists l1 t1 w1,
    loop_inv (mInterleaveDurationUs w) reads (l1, t1, w1) /\
    end_of_stream (is_avc_mime mime) (l1, t1, w1) = Ok (l', t', w').
Proof.
  intros Hfresh H. unfold thread_body in H.
  destruct (producer_loop _ _ _ _ _ reads) as [[[l1 t1] w1] | |] eqn:Eloop;
    cbn [bind] in H; try discriminate.
  exists l1, t1, w1. split; [| exact H].
  eapply producer_loop_inv; [| | exact Eloop].
  - auto.
  - apply loop_inv_init. assumption.
Qed.

(** C5. When the producer of a fresh track has finished, [mReachedEOS] is
    set, no sample is left unflushed, the stsc table read against the
    number of co64 entries accounts for exactly the samples of
    [mSampleInfos], and the number of co64 entries is [nChunks], the
    counter the loop advances once for every chunk it flushes.  The
    fields of the table are [uint32_t], hence the bound on the number of
    samples. *)
Theorem stsc_and_co64_account_for_the_samples mime me t w reads l' t' w' :
  fresh_track t ->
  thread_body mime me t w reads = Ok (l', t', w') ->
  zlen (Track.mSampleInfos t') < 2 ^ 32 ->
  Track.mReachedEOS t' = true /\
  Track.mChunkSamples t' = [] /\
  stsc_samples (Track.mStscTableEntries t') (zlen (Track.mChunkOffsets t'))
    = zlen (Track.mSampleInfos t') /\
  zlen (Track.mChunkOffsets t') = Locals.nChunks l'.
Proof.
  intros Hfresh H Hbound.
  destruct (thread_body_spec _ _ _ _ _ _ _ _ Hfresh H) as (l1 & t1 & w1 & Hinv & Hend).
  destruct (end_of_stream_spec _ _ _ _ _ _ _ _ _ Hinv Hend)
    as (Ei & Heos & _ & Hc & Htables & _).
  rewrite Ei in Hbound. destruct (Htables Hbound) as (_ & Hstsc & Hco).
  rewrite Ei, Hco. auto.
Qed.

(** C2. When the producer of a fresh track has finished, the stts table
    accounts for as many samples as [mSampleInfos] holds whenever at least
    one sample was accepted; for a track that accepted none, the closing
    entry counts two samples. *)
Theorem stts_counts_two_samples_for_an_empty_track mime me t w reads l' t' w' :
  fresh_track t ->
  thread_body mime me t w reads = Ok (l', t', w') ->
  zlen (Track.mSampleInfos t') < 2 ^ 32 ->
  Track.mReachedEOS t' = true /\
  stts_samples (Track.mSttsTableEntries t')
    = (if zlen (Track.mSampleInfos t') =? 0 then 2
       else zlen (Track.mSampleInfos t')).
Proof.
  intros Hfresh H Hbound.
  destruct (thread_body_spec _ _ _ _ _ _ _ _ Hfresh H) as (l1 & t1 & w1 & Hinv & Hend).
  destruct (end_of_stream_spec _ _ _ _ _ _ _ _ _ Hinv Hend)
    as (Ei & Heos & _ & Hc & Htables & _).
  rewrite Ei in Hbound. destruct (Htables Hbound) as (Hstts & _).
  rewrite Ei. auto.
Qed.


(** ** The header of a track without samples *)

Lemma andThen_Ok (f g : emitter) w w' :
  (f >> g) w = Ok w' -> exists w1, f w = Ok w1 /\ g w1 = Ok w'.
Proof.
  unfold andThen. destruct (f w) as [w1 | |]; cbn [bind]; try discriminate.
  intros H. exists w1. auto.
Qed.

Lemma write_stsz_of_empty_track t w w' :
  Track.mSamplesHaveSameSize t = true ->
  Track.mSampleInfos t = [] ->
  write_stsz t w = Ok w' -> False.
Proof.
  intros Hsame Hempty H. unfold write_stsz in H. rewrite Hsame, Hempty in H.
  apply andThen_Ok in H as (w1 & _ & H).
  apply andThen_Ok in H as (w2 & _ & H).
  apply andThen_Ok in H as (w3 & H & _).
  discriminate.
Qed.

Lemma write_stsz_of_empty_track_undefined t w :
  Track.mSamplesHaveSameSize t = true ->
  Track.mSampleInfos t = [] ->
  wf w ->
  write_stsz t w = Undefined.
Proof.
  intros Hsame Hempty Hwf. unfold write_stsz. rewrite Hsame, Hempty.
  unfold andThen at 1.
  destruct (beginBox_spec "stsz" w Hwf eq_refl) as (w1 & -> & Hwf1 & _).
  cbn [bind]. unfold andThen at 1. unfold writeInt32.
  destruct (write_spec (be32 0) w1 Hwf1) as (w2 & -> & _).
  reflexivity.
Qed.

Lemma writeTrackHeader_of_empty_track now trackID t w w' :
  Track.mSamplesHaveSameSize t = true ->
  Track.mSampleInfos t = [] ->
  writeTrackHeader now trackID t w = Ok w' -> False.
Proof.
  intros Hsame Hempty H. unfold writeTrackHeader in H.
  destruct (kKeyMIMEType (Track.mMeta t)) as [mime |]; [| discriminate].
  do 10 (apply andThen_Ok in H as (? & _ & H)).
  destruct (negb (strncasecmp0 mime "audio/" 6)).
  - apply andThen_Ok in H as (? & _ & H).
    apply andThen_Ok in H as (? & H & _).
    eapply write_stsz_of_empty_track; eassumption.
  - apply andThen_Ok in H as (? & _ & H).
    apply andThen_Ok in H as (? & H & _).
    eapply write_stsz_of_empty_track; eassumption.
Qed.

(** C3. A fresh track whose producer ends without an accepted sample
    raises MEDIA_RECORDER_INFO_STOP_PREMATURELY and reaches end of stream,
    but its header cannot be emitted: the stsz box takes the default
    sample size from the first element of the empty [mSampleInfos], so
    [write_stsz] never returns, on a well-formed writer its outcome is
    [Undefined], and [writeTrackHeader] never returns either.  The stts
    table of the track holds one entry that counts two samples. *)
Theorem header_of_a_track_without_samples mime me t w reads l' t' w' :
  fresh_track t ->
  thread_body mime me t w reads = Ok (l', t', w') ->
  Track.mSampleInfos t' = [] ->
  In MEDIA_RECORDER_INFO_STOP_PREMATURELY (notified w') /\
  Track.mReachedEOS t' = true /\
  (exists duration, Track.mSttsTableEntries t' = [mkStts 2 duration]) /\
  (forall w0, is_Ok (write_stsz t' w0) = false) /\
  (forall w0, wf w0 -> write_stsz t' w0 = Undefined) /\
  (forall now trackID w0, is_Ok (writeTrackHeader now trackID t' w0) = false).
Proof.
  intros Hfresh H Hempty.
  destruct (thread_body_spec _ _ _ _ _ _ _ _ Hfresh H) as (l1 & t1 & w1 & Hinv & Hend).
  destruct (end_of_stream_spec _ _ _ _ _ _ _ _ _ Hinv Hend)
    as (Ei & Heos & _ & _ & _ & Hnone).
  rewrite Ei in Hempty.
  destruct (Hnone Hempty) as (Hev & Hsame & _ & _ & Hstts).
  rewrite <- Ei in Hempty.
  repeat (split; [assumption |]).
  split; [| split].
  - intros w0. destruct (write_stsz t' w0) eqn:E; try reflexivity.
    exfalso. eapply write_stsz_of_empty_track; eassumption.
  - intros w0 Hwf. apply write_stsz_of_empty_track_undefined; assumption.
  - intros now trackID w0.
    destruct (writeTrackHeader now trackID t' w0) eqn:E; try reflexivity.
    exfalso. eapply writeTrackHeader_of_empty_track; eassumption.
Qed.

(** ** Stopping twice *)

Lemma stop_closes_the_file now track_now w w' :
  stop now track_now w = Ok w' -> mFile w' = false.
Proof.
  unfold stop. destruct (mFile w) eqn:Efile; cbn [negb].
  2:{ intros H. injection H as <-. assumption. }
  intros H.
  repeat match type of H with
         | (bind ?m _) = _ =>
             destruct m; cbn [bind] in H; try discriminate
         end.
  injection H as <-. reflexivity.
Qed.

(** C9. A [stop] that returned has closed the file, and any further
    [stop] returns at once with the writer, and so the file behind it,
    exactly as the first one left them. *)
Theorem stop_is_idempotent now track_now w w' :
  stop now track_now w = Ok w' ->
  forall now' track_now', stop now' track_now' w' = Ok w'.
Proof.
  intros H now' track_now'.
  apply stop_closes_the_file in H.
  unfold stop. rewrite H. reflexivity.
Qed.

(** ** The theorems at work on concrete runs *)

Lemma staging_writer_wf : wf staging_writer.
Proof.
  unfold wf. split; [reflexivity |].
  split; [change (0 <= 40 <= 40); lia |].
  split; [constructor |].
  exists (replicate 24 0). split; [reflexivity |].
  change (24 <= 24 /\ 0 <= 0 <= 24). lia.
Defined.

(** The emission of [nested_boxes] overflows the buffer of
    [staging_writer] on the way; the three boxes lie in the file behind the
    mdat, each with its size in front. *)
Lemma box_length_field_witness :
  wf staging_writer /\ fourcc_ok nested_boxes = true /\
  exists w',
    emit nested_boxes staging_writer = Ok w' /\
    wf w' /\
    stream w' = stream staging_writer ++ box_bytes nested_boxes /\
    zlen (stream w') = zlen (stream staging_writer) + emitted_size nested_boxes /\
    forall pos n,
      In (pos, n) (boxes_of nested_boxes (zlen (stream staging_writer))) ->
      zlen (stream staging_writer) <= pos /\ pos + n <= zlen (stream w') /\
      take 4 (drop (Z.to_nat pos) (stream w')) = be32 n /\
      (n < 2 ^ 32 -> read_be (take 4 (drop (Z.to_nat pos) (stream w'))) = n).
Proof.
  split; [exact staging_writer_wf |]. split; [reflexivity |].
  destruct (box_length_field_is_box_size staging_writer nested_boxes
              staging_writer_wf eq_refl)
    as (w' & H1 & H2 & H3 & H4 & H5 & _).
  exists w'. auto.
Defined.

Lemma endBox_file_mode_witness :
  mFile file_mode_writer = true /\
  mWriteMoovBoxToMemory file_mode_writer = false /\
  mBoxes file_mode_writer = [] ++ [4] /\
  exists w',
    endBox file_mode_writer = Ok w' /\
    mOffset w' = mOffset file_mode_writer /\
    mBoxes w' = [] /\
    mWriteMoovBoxToMemory w' = false /\
    (0 <= 4 -> 4 + 4 <= zlen (file_bytes file_mode_writer) ->
     0 <= mOffset file_mode_writer ->
       length (file_bytes w') = length (file_bytes file_mode_writer) /\
       (forall i : nat, ~ (4 <= Z.of_nat i < 4 + 4) ->
          file_bytes w' !! i = file_bytes file_mode_writer !! i) /\
       take 4 (drop (Z.to_nat 4) (file_bytes w'))
         = be32 (mOffset file_mode_writer - 4) /\
       file_pos w' = mOffset file_mode_writer).
Proof.
  split; [reflexivity |]. split; [reflexivity |]. split; [reflexivity |].
  apply (endBox_file_mode_offset_unchanged file_mode_writer [] 4); reflexivity.
Defined.

Lemma amr_track_fresh : fresh_track amr_track.
Proof. repeat split. Defined.

Lemma stsc_and_co64_witness :
  fresh_track amr_track /\
  thread_body MEDIA_MIMETYPE_AUDIO_AMR_NB 0 amr_track started_writer six_samples
    = Ok after_six_samples /\
  Track.mReachedEOS (snd (fst after_six_samples)) = true /\
  Track.mChunkSamples (snd (fst after_six_samples)) = [] /\
  stsc_samples (Track.mStscTableEntries (snd (fst after_six_samples)))
               (zlen (Track.mChunkOffsets (snd (fst after_six_samples))))
    = zlen (Track.mSampleInfos (snd (fst after_six_samples))) /\
  zlen (Track.mChunkOffsets (snd (fst after_six_samples)))
    = Locals.nChunks (fst (fst after_six_samples)).
Proof.
  split; [exact amr_track_fresh |]. split; [vm_compute; reflexivity |].
  apply (stsc_and_co64_account_for_the_samples
           MEDIA_MIMETYPE_AUDIO_AMR_NB 0 amr_track started_writer six_samples
           (fst (fst after_six_samples)) (snd (fst after_six_samples))
           (snd after_six_samples)).
  - exact amr_track_fresh.
  - vm_compute; reflexivity.
  - vm_compute; reflexivity.
Defined.

(** The producer of [amr_track] ends without having read a buffer: no
    sample, and an stts table that counts two. *)
Lemma stts_counts_two_witness :
  fresh_track amr_track /\
  thread_body MEDIA_MIMETYPE_AUDIO_AMR_NB 0 amr_track started_writer []
    = Ok after_no_sample /\
  Track.mSampleInfos (snd (fst after_no_sample)) = [] /\
  Track.mReachedEOS (snd (fst after_no_sample)) = true /\
  stts_samples (Track.mSttsTableEntries (snd (fst after_no_sample))) = 2.
Proof.
  split; [exact amr_track_fresh |]. split; [vm_compute; reflexivity |].
  split; [vm_compute; reflexivity |].
  apply (stts_counts_two_samples_for_an_empty_track
           MEDIA_MIMETYPE_AUDIO_AMR_NB 0 amr_track started_writer []
           (fst (fst after_no_sample)) (snd (fst after_no_sample))
           (snd after_no_sample)).
  - exact amr_track_fresh.
  - vm_compute; reflexivity.
  - vm_compute; reflexivity.
Defined.


Lemma header_without_samples_witness :
  fresh_track amr_track /\
  thread_body MEDIA_MIMETYPE_AUDIO_AMR_NB 0 amr_track started_writer []
    = Ok after_no_sample /\
  Track.mSampleInfos (snd (fst after_no_sample)) = [] /\
  In MEDIA_RECORDER_INFO_STOP_PREMATURELY (notified (snd after_no_sample)) /\
  Track.mReachedEOS (snd (fst after_no_sample)) = true /\
  (exists duration,
     Track.mSttsTableEntries (snd (fst after_no_sample)) = [mkStts 2 duration]) /\
  (forall w0, is_Ok (write_stsz (snd (fst after_no_sample)) w0) = false) /\
  (forall w0, wf w0 -> write_stsz (snd (fst after_no_sample)) w0 = Undefined) /\
  (forall now trackID w0,
     is_Ok (writeTrackHeader now trackID (snd (fst after_no_sample)) w0) = false).
Proof.
  split; [exact amr_track_fresh |]. split; [vm_compute; reflexivity |].
  split; [vm_compute; reflexivity |].
  apply (header_of_a_track_without_samples
           MEDIA_MIMETYPE_AUDIO_AMR_NB 0 amr_track started_writer []
           (fst (fst after_no_sample)) (snd (fst after_no_sample))
           (snd after_no_sample)).
  - exact amr_track_fresh.
  - vm_compute; reflexivity.
  - vm_compute; reflexivity.
Defined.

Lemma setStartTimestamp_zero_witness :
  mStartTimestampUs started_writer = 0 /\
  mStartTimestampUs (setStartTimestamp_calls [0] started_writer) = 0 /\
  mStartTimestampUs (setStartTimestamp_calls [0; 200000] started_writer) = 200000.
Proof.
  split; [vm_compute; reflexivity |].
  apply (setStartTimestamp_zero_is_overwritten 200000 started_writer).
  vm_compute; reflexivity.
Defined.

Lemma stop_is_idempotent_witness :
  stop 1000 (fun _ => 1000) recorded_writer = Ok stopped_writer /\
  forall now' track_now', stop now' track_now' stopped_writer = Ok stopped_writer.
Proof.
  split; [vm_compute; reflexivity |].
  apply (stop_is_idempotent 1000 (fun _ => 1000) recorded_writer stopped_writer).
  vm_compute; reflexivity.
Defined.

Lemma sps_pps_one_further_start_code q :
  q <> 0 -> start_code_at sps_pps q -> q = 6.
Proof.
  intros Hq Hsc.
  pose proof (start_code_at_fits _ _ Hsc) as Hfit.
  destruct Hsc as [Hq0 Hsc]. change (zlen sps_pps) with 12 in Hfit.
  assert (Hcases : Z.to_nat q = 1%nat \/ Z.to_nat q = 2%nat \/ Z.to_nat q = 3%nat
                   \/ Z.to_nat q = 4%nat \/ Z.to_nat q = 5%nat
                   \/ Z.to_nat q = 6%nat \/ Z.to_nat q = 7%nat
                   \/ Z.to_nat q = 8%nat) by lia.
  destruct Hcases as [E | [E | [E | [E | [E | [E | [E | E]]]]]]];
    rewrite E in Hsc; vm_compute in Hsc; try discriminate Hsc.
  lia.
Defined.

Lemma makeAVCCodecSpecificData_record_witness :
  Track.mCodecSpecificData amr_track = None /\
  start_code_at sps_pps 0 /\ start_code_at sps_pps 6 /\
  fst (makeAVCCodecSpecificData sps_pps amr_track) = OK /\
  Track.mCodecSpecificData (snd (makeAVCCodecSpecificData sps_pps amr_track))
    = Some (avcC_record [0x67; 0x42] [0x68; 0xce]).
Proof.
  assert (H0 : start_code_at sps_pps 0) by (split; [lia | reflexivity]).
  assert (H6 : start_code_at sps_pps 6) by (split; [lia | reflexivity]).
  split; [reflexivity |]. split; [exact H0 |]. split; [exact H6 |].
  pose proof (makeAVCCodecSpecificData_record sps_pps amr_track 6 eq_refl H0
                ltac:(lia) H6 sps_pps_one_further_start_code) as H.
  cbv zeta in H. destruct H as (Hok & Hrec & _).
  split; [exact Hok | exact Hrec].
Defined.

(** ** Where the writer emits boxes

    [start] emits its ftyp box in file mode on the writer as constructed,
    [stop] its moov in memory mode behind the mdat; both are well-formed
    states. *)

Lemma new_writer_wf tracks : wf (MPEG4Writer_new tracks).
Proof.
  unfold wf. split; [reflexivity |].
  split; [change (0 <= 0 <= 0); lia |].
  split; [constructor | reflexivity].
Qed.

Lemma stop_stages_a_well_formed_writer w :
  mFile w = true ->
  mBoxes w = [] ->
  0 <= mMdatOffset w ->
  mMdatOffset w + 16 <= mOffset w ->
  mOffset w <= zlen (file_bytes w) ->
  0 <= mEstimatedMoovBoxSize w ->
  exists w1,
    patch_mdat_size w = Ok w1 /\
    wf (stage_moov w1) /\
    staged (stage_moov w1) = [] /\
    mOffset (stage_moov w1) = mOffset w /\
    zlen (file_bytes (stage_moov w1)) = zlen (file_bytes w).
Proof.
  intros Hfile Hboxes Hmdat Hoff Hlen Hest.
  unfold patch_mdat_size.
  rewrite (fseeko_nonneg (mMdatOffset w + 8)) by lia.
  unfold fwrite. cbn [mFile set_file_pos]. rewrite Hfile. cbn [bind].
  cbn [mOffset mMdatOffset file_pos file_bytes set_file_pos set_file_bytes].
  rewrite (fseeko_nonneg (mOffset w)) by lia.
  eexists. split; [reflexivity |].
  assert (Hz : zlen (pwrite (mMdatOffset w + 8) (be64 (mOffset w - mMdatOffset w))
                       (file_bytes w)) = zlen (file_bytes w)).
  { apply zlen_pwrite_within; [lia |].
    change (zlen (be64 (mOffset w - mMdatOffset w))) with 8. lia. }
  unfold stage_moov.
  split; [| split; [reflexivity | split; [reflexivity | exact Hz]]].
  unfold wf.
  cbn [mFile mOffset file_bytes mBoxes mWriteMoovBoxToMemory mMoovBoxBuffer
         mEstimatedMoovBoxSize mMoovBoxBufferOffset
         set_file_pos set_file_bytes set_mWriteMoovBoxToMemory
         set_mMoovBoxBuffer set_mMoovBoxBufferOffset].
  rewrite Hz, Hboxes.
  split; [assumption |]. split; [lia |]. split; [constructor |].
  eexists. split; [reflexivity |].
  unfold zlen. rewrite length_replicate. lia.
Qed.

(** ** The code of the writer is well bracketed

    Every chain of calls in [start], [stop] and [writeTrackHeader] closes
    the boxes it opens, so each of their runs is the run of an emission. *)

Lemma emit_app e1 e2 w :
  emit (emission_app e1 e2) w = bind (emit e1 w) (emit e2).
Proof.
  revert w. induction e1 as [| ptr rest IH | fourcc body IHb rest IHr]; intros w;
    cbn [emission_app emit].
  - reflexivity.
  - unfold andThen. destruct (write ptr w); cbn [bind]; auto.
  - unfold andThen. destruct (beginBox fourcc w) as [w1 | |]; cbn [bind]; auto.
    destruct (emit body w1) as [w2 | |]; cbn [bind]; auto.
    destruct (endBox w2) as [w3 | |]; cbn [bind]; auto.
Qed.

Lemma fourcc_ok_app e1 e2 :
  fourcc_ok e1 = true -> fourcc_ok e2 = true -> fourcc_ok (emission_app e1 e2) = true.
Proof.
  induction e1 as [| ptr rest IH | fourcc body IHb rest IHr];
    cbn [emission_app fourcc_ok]; intros H1 H2; auto.
  apply andb_true_iff in H1 as [H1 Hr]. rewrite H1, (IHr Hr H2). reflexivity.
Qed.

Lemma emit_closing_app e first after w :
  emit_closing (emission_app e first) after w
  = bind (emit e w) (emit_closing first after).
Proof.
  destruct after as [| e1 l]; cbn [emit_closing].
  - apply emit_app.
  - unfold andThen at 1 3. rewrite emit_app.
    destruct (emit e w); reflexivity.
Qed.

Lemma closes_seq n (f g : emitter) :
  closes 0 f -> closes n g -> closes n (f >> g).
Proof.
  intros Hf Hg w w' H. apply andThen_Ok in H as (w1 & H1 & H2).
  destruct (Hf _ _ H1) as (ef & af & Haf & Hokf & _ & Ef).
  destruct af; [| discriminate]. cbn [emit_closing] in Ef.
  destruct (Hg _ _ H2) as (eg & ag & Hag & Hokg & Hoka & Eg).
  exists (emission_app ef eg), ag.
  split; [assumption |]. split; [apply fourcc_ok_app; assumption |].
  split; [assumption |].
  rewrite emit_closing_app, Ef. exact Eg.
Qed.

Lemma closes_beginBox n fourcc (g : emitter) :
  closes (S n) g -> closes n (beginBox fourcc >> g).
Proof.
  intros Hg w w' H. apply andThen_Ok in H as (w1 & H1 & H2).
  assert (Hlen : (strlen fourcc =? 4) = true).
  { unfold beginBox in H1. destruct (strlen fourcc =? 4); [reflexivity |].
    discriminate. }
  destruct (Hg _ _ H2) as (body & after & Hafter & Hokb & Hoka & Eg).
  destruct after as [| e1 l]; [discriminate |].
  cbn [forallb] in Hoka. apply andb_true_iff in Hoka as [Hok1 Hokl].
  exists (Box fourcc body e1), l.
  split; [cbn [length] in Hafter; lia |].
  split; [cbn [fourcc_ok]; rewrite Hlen, Hokb, Hok1; reflexivity |].
  split; [assumption |].
  cbn [emit_closing] in Eg.
  destruct l as [| e2 l']; cbn [emit_closing emit]; unfold andThen in *;
    rewrite H1; cbn [bind];
    destruct (emit body w1) as [w2 | |]; cbn [bind] in *; try discriminate;
    destruct (endBox w2) as [w3 | |]; cbn [bind] in *; try discriminate;
    exact Eg.
Qed.

Lemma closes_endBox n (g : emitter) :
  closes n g -> closes (S n) (endBox >> g).
Proof.
  intros Hg w w' H. apply andThen_Ok in H as (w1 & H1 & H2).
  destruct (Hg _ _ H2) as (first & after & Hafter & Hokf & Hoka & Eg).
  exists Done, (first :: after).
  split; [cbn [length]; lia |]. split; [reflexivity |].
  split; [cbn [forallb]; rewrite Hokf, Hoka; reflexivity |].
  cbn [emit_closing emit]. unfold andThen, skip. cbn [bind].
  rewrite H1. exact Eg.
Qed.

Lemma closes_endBox_last : closes 1 endBox.
Proof.
  intros w w' H. exists Done, [Done].
  repeat (split; [reflexivity |]).
  cbn [emit_closing emit]. unfold andThen, skip. cbn [bind].
  rewrite H. reflexivity.
Qed.

Lemma closes_write ptr : closes 0 (write ptr).
Proof.
  intros w w' H. exists (Bytes ptr Done), [].
  repeat (split; [reflexivity |]).
  cbn [emit_closing emit]. unfold andThen, skip. rewrite H. reflexivity.
Qed.

Lemma closes_skip : closes 0 skip.
Proof.
  intros w w' H. exists Done, []. repeat (split; [reflexivity |]). exact H.
Qed.

Lemma closes_check b : closes 0 (check b).
Proof.
  intros w w' H. exists Done, []. repeat (split; [reflexivity |]).
  unfold check in H. destruct b; [exact H | discriminate].
Qed.

Lemma closes_undefined : closes 0 undefined.
Proof. intros w w' H. discriminate. Qed.

Lemma closes_writeFourcc s : closes 0 (writeFourcc s).
Proof.
  intros w w' H. unfold writeFourcc in H.
  destruct (CHECK (strlen s =? 4)); cbn [bind] in H; try discriminate.
  exact (closes_write _ _ _ H).
Qed.

Lemma closes_for_each {A : Type} (l : list A) (body : A -> emitter) :
  (forall it, closes 0 (body it)) -> closes 0 (for_each l body).
Proof.
  intros Hbody. induction l as [| it l IH]; cbn [for_each].
  - apply closes_skip.
  - apply closes_seq; [apply Hbody | exact IH].
Qed.

Lemma closes_write_codec_specific_data t : closes 0 (write_codec_specific_data t).
Proof.
  unfold write_codec_specific_data.
  destruct (Track.mCodecSpecificData t); destruct (_ : bool);
    first [apply closes_write | apply closes_undefined].
Qed.

Lemma closes_writeInt8 x : closes 0 (writeInt8 x).
Proof. exact (closes_write _). Qed.

Lemma closes_writeInt16 x : closes 0 (writeInt16 x).
Proof. exact (closes_write _). Qed.

Lemma closes_writeInt32 x : closes 0 (writeInt32 x).
Proof. exact (closes_write _). Qed.

Lemma closes_writeInt64 x : closes 0 (writeInt64 x).
Proof. exact (closes_write _). Qed.

Lemma closes_writeCString s : closes 0 (writeCString s).
Proof. exact (closes_write _). Qed.

Lemma closes_abort n (g : emitter) : closes n (check false >> g).
Proof. intros w w' H. discriminate. Qed.

(** The chains of the source are taken apart call by call. *)
Ltac bracketed_step :=
  lazymatch goal with
  | |- closes _ (check false >> _) => apply closes_abort
  | |- closes _ (beginBox _ >> _) => apply closes_beginBox
  | |- closes _ (endBox >> _) => apply closes_endBox
  | |- closes _ endBox => apply closes_endBox_last
  | |- closes _ ((match ?x with _ => _ end) >> _) => destruct x
  | |- closes _ (_ >> _) => apply closes_seq
  | |- closes _ (write _) => apply closes_write
  | |- closes _ (writeInt8 _) => apply closes_writeInt8
  | |- closes _ (writeInt16 _) => apply closes_writeInt16
  | |- closes _ (writeInt32 _) => apply closes_writeInt32
  | |- closes _ (writeInt64 _) => apply closes_writeInt64
  | |- closes _ (writeCString _) => apply closes_writeCString
  | |- closes _ (writeFourcc _) => apply closes_writeFourcc
  | |- closes _ skip => apply closes_skip
  | |- closes _ (check _) => apply closes_check
  | |- closes _ undefined => apply closes_undefined
  | |- closes _ (write_codec_specific_data _) => apply closes_write_codec_specific_data
  | |- closes _ (for_each _ _) => apply closes_for_each; intros ?
  | |- closes _ (match ?x with _ => _ end) => destruct x
  end.

Ltac bracketed := cbv zeta; repeat bracketed_step.

Lemma closes_writeTrackHeader now trackID t :
  closes 0 (writeTrackHeader now trackID t).
Proof.
  unfold writeTrackHeader, write_tkhd, write_edts, write_mdhd, write_hdlr,
    write_minf, write_stsd, write_audio_entry, write_video_entry, write_stts,
    write_stss, write_stsz, write_stsc, write_co64.
  bracketed.
Qed.

Lemma closes_write_track_headers track_now tracks :
  forall k id, closes 0 (write_track_headers track_now k id tracks).
Proof.
  induction tracks as [| it rest IH]; intros k id; cbn [write_track_headers].
  - apply closes_skip.
  - apply closes_seq; [apply closes_writeTrackHeader | apply IH].
Qed.

Lemma closes_write_moov now track_now max_duration tracks :
  closes 0 (write_moov now track_now max_duration tracks).
Proof.
  unfold write_moov.
  bracketed. apply closes_write_track_headers.
Qed.

(** The moov that [stop] emits from a well-formed writer is a
    well-bracketed emission, its bytes are the conforming ones, and the
    writer is left well-formed. *)
Lemma write_moov_conforms now track_now max_duration tracks w w' :
  wf w ->
  write_moov now track_now max_duration tracks w = Ok w' ->
  exists e,
    fourcc_ok e = true /\
    emit e w = Ok w' /\
    wf w' /\
    stream w' = stream w ++ box_bytes e.
Proof.
  intros Hwf H.
  destruct (closes_write_moov _ _ _ _ _ _ H) as (e & after & Hafter & Hok & _ & E).
  destruct after; [| discriminate]. cbn [emit_closing] in E.
  exists e. split; [assumption |]. split; [assumption |].
  destruct (emit_spec e w Hwf Hok) as (w2 & E2 & Hwf2 & Hs2 & _).
  rewrite E in E2. injection E2 as <-. auto.
Qed.

(** ** Runs of the model *)

(** [start] writes the ftyp box, reserves 0xF00 bytes in a free box and
    opens the mdat. *)
Example start_writes_the_prelude :
  take 28 (file_bytes started_writer)
  = [0; 0; 0; 20; 102; 116; 121; 112; 105; 115; 111; 109; 0; 0; 0; 0;
     105; 115; 111; 109; 0; 0; 15; 0; 102; 114; 101; 101]
  /\ mFreeBoxOffset started_writer = 20
  /\ mMdatOffset started_writer = 3860
  /\ mOffset started_writer = 3876
  /\ mBoxes started_writer = [].
Proof. vm_compute. repeat split. Qed.

(** The emission of [nested_boxes] from [staging_writer] ends in the file:
    the moov of 22 bytes and the free box of 8 follow the 40 bytes of the
    mdat, and the writer is no longer streamable. *)
Example overflow_moves_the_moov_behind_the_mdat :
  match emit nested_boxes staging_writer with
  | Ok w =>
      drop 40 (file_bytes w)
      = [0; 0; 0; 22; 109; 111; 111; 118; 0; 0; 0; 12; 109; 118; 104; 100;
         1; 2; 3; 4; 5; 6; 0; 0; 0; 8; 102; 114; 101; 101]
      /\ mOffset w = 70 /\ mStreamableFile w = false
      /\ mWriteMoovBoxToMemory w = false /\ mBoxes w = []
  | _ => False
  end.
Proof. vm_compute. repeat split. Qed.

(** Six samples of an AMR track: one chunk, flushed when the sixth sample
    comes more than half a second after the chunk began; two stts runs. *)
Example tables_after_six_samples :
  Track.mSttsTableEntries (snd (fst after_six_samples))
  = [{| sampleCount := 4; sampleDuration := 20 |};
     {| sampleCount := 2; sampleDuration := 1001 |}]
  /\ Track.mStscTableEntries (snd (fst after_six_samples))
     = [{| firstChunk := 1; samplesPerChunk := 6; sampleDescriptionId := 1 |}]
  /\ Track.mChunkOffsets (snd (fst after_six_samples)) = [3876]
  /\ map size (Track.mSampleInfos (snd (fst after_six_samples))) = [3; 3; 2; 1; 2; 1].
Proof. vm_compute. repeat split. Qed.

Example tables_after_no_sample :
  Track.mSampleInfos (snd (fst after_no_sample)) = []
  /\ Track.mSttsTableEntries (snd (fst after_no_sample))
     = [{| sampleCount := 2; sampleDuration := 0 |}]
  /\ notified (snd after_no_sample) = [MEDIA_RECORDER_INFO_STOP_PREMATURELY].
Proof. vm_compute. repeat split. Qed.

(** A writer whose only track accepted no sample cannot be stopped: the
    header of that track is not emitted. *)
Example stop_after_no_sample :
  match threadEntry 0 amr_track started_writer [] with
  | Ok (_, w) => stop 1000 (fun _ => 1000) w = Undefined
  | _ => False
  end.
Proof. vm_compute. reflexivity. Qed.

(** Two tracks, the second one 200 ms late.  When the first track begins
    at 1000 us, the writer keeps 1000 and the second track is given its
    delay of 199000 us.  When the first track begins at 0, the second
    track's time replaces the writer's, and both tracks end with a start
    offset of 0: the delay is lost. *)
Example second_track_delay :
  mStartTimestampUs (both_tracks_recorded 1000) = 1000
  /\ map Track.mStartTimestampUs (mTracks (both_tracks_recorded 1000))
     = [Some 0; Some 199000]
  /\ mStartTimestampUs (both_tracks_recorded 0) = 200000
  /\ map Track.mStartTimestampUs (mTracks (both_tracks_recorded 0))
     = [Some 0; Some 0].
Proof. vm_compute. repeat split. Qed.

(** After [stop] the moov lies in the reserved space, followed by a free
    box that takes the rest of it. *)
Example stop_places_the_moov :
  mFile stopped_writer = false
  /\ take 8 (drop 20 (file_bytes stopped_writer)) = [0; 0; 2; 37; 109; 111; 111; 118]
  /\ take 8 (drop (20 + 549) (file_bytes stopped_writer))
     = be32 (0xF00 - 549) ++ [102; 114; 101; 101]
  /\ read_be (take 8 (drop (3860 + 8) (file_bytes stopped_writer))) = 16 + 12.
Proof. vm_compute. repeat split. Qed.
